(** * Verification of [autogen/oai/anthropic.py]

    A shallow embedding of the Anthropic client adapter: the outbound
    translation [create], the inbound translation [message_retrieval], the
    tool-use state cache and the cost calculator, over an explicit store of
    Python objects. *)

From stdpp Require Import gmap strings list fin_maps pretty.
From Stdlib Require Import ZArith Lia SpecFloat.

Set Warnings "-register-all".
Open Scope string_scope.
Open Scope list_scope.
Open Scope nat_scope.

(** ** Python values and the object store *)

(** Locations of mutable objects (dicts and lists). *)
Abbreviation loc := nat (only parsing).

(** A JSON payload, as carried by the [input] field of a tool_use block.
    The module only stores and serialises such payloads, it never updates
    one in place, so they are kept as immutable trees. *)
Inductive json :=
| JNull
| JBool (b : bool)
| JInt (z : Z)
| JStr (s : string)
| JList (l : list json)
| JDict (d : list (string * json)).

Inductive val :=
| VNone
| VBool (b : bool)
| VInt (z : Z)
| VStr (s : string)
| VJson (j : json)
| VRef (l : loc).

Inductive obj :=
| ODict (d : gmap string val)
| OList (l : list val).

(** The store grows at its end: a new object gets the location
    [length h]; objects are never freed. *)
Abbreviation heap := (list obj) (only parsing).

Inductive exn :=
| KeyError (k : string)
| IndexError
| AttributeError (a : string)
| TypeError
| OverflowError
| ZeroDivisionError
| DanglingRef.

Inductive result (A : Type) :=
| Ok (a : A)
| Raise (e : exn).
Arguments Ok {A} a.
Arguments Raise {A} e.

Definition result_bind {A B} (r : result A) (k : A → result B) : result B :=
  match r with
  | Ok a => k a
  | Raise e => Raise e
  end.

#[export] Instance result_ret : MRet result := @Ok.
#[export] Instance result_mbind : MBind result := λ A B k r, result_bind r k.

(** Computations read and update the store; a raised exception keeps the
    store as it was when the exception was raised. *)
Definition M (A : Type) : Type := heap → result A * heap.

Definition ret {A} (a : A) : M A := λ h, (Ok a, h).
Definition raise {A} (e : exn) : M A := λ h, (Raise e, h).
Definition bind {A B} (m : M A) (k : A → M B) : M B :=
  λ h, match m h with
       | (Ok a, h') => k a h'
       | (Raise e, h') => (Raise e, h')
       end.

#[export] Instance M_ret : MRet M := @ret.
#[export] Instance M_bind : MBind M := λ A B k m, bind m k.

Definition get_heap : M heap := λ h, (Ok h, h).

Definition alloc (o : obj) : M loc := λ h, (Ok (length h), h ++ [o]).

Definition load (l : loc) : M obj :=
  λ h, match h !! l with
       | Some o => (Ok o, h)
       | None => (Raise DanglingRef, h)
       end.

Definition store (l : loc) (o : obj) : M unit :=
  λ h, match h !! l with
       | Some _ => (Ok tt, <[l := o]> h)
       | None => (Raise DanglingRef, h)
       end.

(** [as_dict e v]: the dict [v] refers to; [e] is what Python raises when
    the operation at hand is applied to something that is not a dict. *)
Definition as_dict (e : exn) (v : val) : M (gmap string val) :=
  match v with
  | VRef l => o ← load l;
              match o with
              | ODict d => mret d
              | OList _ => raise e
              end
  | _ => raise e
  end.

Definition as_list (e : exn) (v : val) : M (list val) :=
  match v with
  | VRef l => o ← load l;
              match o with
              | OList xs => mret xs
              | ODict _ => raise e
              end
  | _ => raise e
  end.

(** [d[k]] *)
Definition dict_getitem (v : val) (k : string) : M val :=
  d ← as_dict TypeError v;
  match d !! k with
  | Some x => mret x
  | None => raise (KeyError k)
  end.

(** [k in d] *)
Definition dict_contains (v : val) (k : string) : M bool :=
  d ← as_dict TypeError v;
  mret (bool_decide (is_Some (d !! k))).

(** [d.get(k, default)] *)
Definition dict_get (v : val) (k : string) (default : val) : M val :=
  d ← as_dict (AttributeError "get") v;
  mret (match d !! k with Some x => x | None => default end).

(** [d[k] = x] *)
Definition dict_setitem (v : val) (k : string) (x : val) : M unit :=
  match v with
  | VRef l => d ← as_dict TypeError v; store l (ODict (<[k := x]> d))
  | _ => raise TypeError
  end.

(** [d.pop(k)] *)
Definition dict_pop (v : val) (k : string) : M val :=
  match v with
  | VRef l => d ← as_dict (AttributeError "pop") v;
              match d !! k with
              | Some x => _ ← store l (ODict (delete k d)); mret x
              | None => raise (KeyError k)
              end
  | _ => raise (AttributeError "pop")
  end.

(** [d.copy()]: a new dict with the same items (a shallow copy). *)
Definition dict_copy (v : val) : M val :=
  d ← as_dict (AttributeError "copy") v;
  l ← alloc (ODict d);
  mret (VRef l).

(** [xs[i]] for [0 <= i] *)
Definition list_getitem (v : val) (i : nat) : M val :=
  xs ← as_list TypeError v;
  match xs !! i with
  | Some x => mret x
  | None => raise IndexError
  end.

(** [xs[-1]] *)
Definition list_last (v : val) : M val :=
  xs ← as_list TypeError v;
  match last xs with
  | Some x => mret x
  | None => raise IndexError
  end.

(** [xs.append(x)] *)
Definition list_append (v : val) (x : val) : M unit :=
  match v with
  | VRef l => xs ← as_list (AttributeError "append") v; store l (OList (xs ++ [x]))
  | _ => raise (AttributeError "append")
  end.

Definition new_dict (d : gmap string val) : M val := l ← alloc (ODict d); mret (VRef l).
Definition new_list (xs : list val) : M val := l ← alloc (OList xs); mret (VRef l).

(** [v == s] for a string literal [s]: only a string can be equal to it. *)
Definition val_eq_str (v : val) (s : string) : bool :=
  match v with
  | VStr s' => bool_decide (s' = s)
  | _ => false
  end.

(** [for x in xs: body(x)] and [for i, x in enumerate(xs): body(i, x)]. *)
Fixpoint for_each {A} (xs : list A) (body : A → M unit) : M unit :=
  match xs with
  | [] => mret tt
  | x :: xs' => _ ← body x; for_each xs' body
  end.

Fixpoint for_enumerate {A} (i : nat) (xs : list A) (body : nat → A → M unit) : M unit :=
  match xs with
  | [] => mret tt
  | x :: xs' => _ ← body i x; for_enumerate (S i) xs' body
  end.

(** [[f(x) for x in xs]] *)
Fixpoint list_comprehension {A B} (xs : list A) (f : A → M B) : M (list B) :=
  match xs with
  | [] => mret []
  | x :: xs' => y ← f x; ys ← list_comprehension xs' f; mret (y :: ys)
  end.

(** [xs + ys]: a new list. *)
Definition list_add (v w : val) : M val :=
  xs ← as_list TypeError v;
  ys ← as_list TypeError w;
  new_list (xs ++ ys).

Definition lift {A} (r : result A) : M A := λ h, (r, h).

(** ** Responses of the vendor SDK *)

(** The content blocks of a response ([anthropic.types]): a text block has
    the attributes [text] and [type], a tool_use block [id], [input],
    [name] and [type]. *)
Inductive ContentBlock :=
| TextBlock (text : string)
| ToolUseBlock (id : string) (input : json) (name : string).

Record Usage := { input_tokens : Z; output_tokens : Z }.

Record Response := {
  content : list ContentBlock;
  usage : option Usage;
  response_model : string
}.

(** Attribute access [choice.a]. *)
Definition block_getattr (choice : ContentBlock) (a : string) : result val :=
  match choice with
  | TextBlock text =>
      if bool_decide (a = "text") then Ok (VStr text)
      else if bool_decide (a = "type") then Ok (VStr "text")
      else Raise (AttributeError a)
  | ToolUseBlock id input name =>
      if bool_decide (a = "id") then Ok (VStr id)
      else if bool_decide (a = "input") then Ok (VJson input)
      else if bool_decide (a = "name") then Ok (VStr name)
      else if bool_decide (a = "type") then Ok (VStr "tool_use")
      else Raise (AttributeError a)
  end.

(** Attribute access on the values of the store: none of them has data
    attributes. *)
Definition val_getattr (v : val) (a : string) : result val := Raise (AttributeError a).

(** [choice.model_dump()]: a new dict of the block's fields. *)
Definition model_dump (choice : ContentBlock) : M val :=
  match choice with
  | TextBlock text =>
      new_dict (<["text" := VStr text]> (<["type" := VStr "text"]> ∅))
  | ToolUseBlock id input name =>
      new_dict (<["id" := VStr id]> (<["input" := VJson input]>
               (<["name" := VStr name]> (<["type" := VStr "tool_use"]> ∅))))
  end.

(** [openai.types.chat.ChatCompletionMessage] *)
Record FunctionCall := { name : string; arguments : string }.

Record ChatCompletionMessage := {
  msg_content : option string;
  role : string;
  function_call : option FunctionCall
}.

(** What [message_retrieval] puts into its result list. *)
Inductive retrieved :=
| RNone
| RText (s : string)
| RMessage (m : ChatCompletionMessage).

Inductive completions := BetaToolsMessages | PlainMessages.

Record AnthropicClient := {
  model : val;
  _last_tooluse_status : loc
}.

Section Client.

(** [Message.model_fields] of the vendor SDK, the fields of its message
    schema. *)
Variable model_fields : gset string.

(** [anthropic_version >= "0.23.1"] *)
Variable TOOL_ENABLED : bool.

(** [json.dumps] *)
Variable json_dumps : json → string.

Definition json_of_val (v : val) : result json :=
  match v with
  | VNone => Ok JNull
  | VBool b => Ok (JBool b)
  | VInt z => Ok (JInt z)
  | VStr s => Ok (JStr s)
  | VJson j => Ok j
  | VRef _ => Raise TypeError
  end.

Definition pop_invalid_message_keys (messages : val) : M (val * val) :=
  msgs ← as_list TypeError messages;
  valid ← list_comprehension msgs (λ message,
    d ← as_dict (AttributeError "items") message;
    new_dict (filter (λ kv, kv.1 ∈ model_fields) d));
  valid_messages ← new_list valid;
  last_message ← list_last messages;
  d ← as_dict (AttributeError "items") last_message;
  invalid_message_dict ← new_dict (filter (λ kv, kv.1 ∉ model_fields) d);
  mret (valid_messages, invalid_message_dict).

Definition AnthropicClient__init__ (config : val) : M AnthropicClient :=
  m ← dict_getitem config "model";
  status ← alloc (ODict ∅);
  mret {| model := m; _last_tooluse_status := status |}.

Definition response_to_openai_message (response : ContentBlock) : M ChatCompletionMessage :=
  dict_response ← model_dump response;
  n ← dict_getitem dict_response "name";
  i ← dict_getitem dict_response "input";
  j ← lift (json_of_val i);
  match n with
  | VStr n =>
      mret {| msg_content := None; role := "assistant";
              function_call := Some {| name := n; arguments := json_dumps j |} |}
  | _ => raise TypeError
  end.

Definition restore_last_tooluse_status (self : AnthropicClient) : M val :=
  let status := VRef (_last_tooluse_status self) in
  cached_content ← new_list [];
  has_think ← dict_contains status "think";
  _ ← (if has_think : bool then
         think ← dict_getitem status "think";
         block ← new_dict (<["type" := VStr "text"]> (<["text" := think]> ∅));
         list_append cached_content block
       else mret tt);
  tool_use ← dict_getitem status "tool_use";
  _ ← list_append cached_content tool_use;
  new_dict (<["role" := VStr "assistant"]> (<["content" := cached_content]> ∅)).

Definition return_function_call_result (self : AnthropicClient) (result : val) : M val :=
  let status := VRef (_last_tooluse_status self) in
  tool_use ← dict_getitem status "tool_use";
  tool_use_id ← dict_getitem tool_use "id";
  block ← new_dict (<["type" := VStr "tool_result"]> (<["tool_use_id" := tool_use_id]>
                   (<["content" := result]> ∅)));
  blocks ← new_list [block];
  new_dict (<["role" := VStr "user"]> (<["content" := blocks]> ∅)).

Definition openai_func_to_anthropic (openai_func : val) : M val :=
  res ← dict_copy openai_func;
  parameters ← dict_pop res "parameters";
  _ ← dict_setitem res "input_schema" parameters;
  mret res.

Definition convert_tools_to_functions (tools : val) : M val :=
  functions ← new_list [];
  ts ← as_list TypeError tools;
  _ ← for_each ts (λ tool,
        ty ← dict_get tool "type" VNone;
        if val_eq_str ty "function" then
          has_function ← dict_contains tool "function";
          if has_function : bool then
            f ← dict_getitem tool "function";
            list_append functions f
          else mret tt
        else mret tt);
  mret functions.

(** The loop of [message_retrieval] when tools are enabled; [res] is the
    local result list. *)
Fixpoint message_retrieval_loop (self : AnthropicClient) (messages : list ContentBlock)
    (res : list retrieved) : M (list retrieved) :=
  let status := VRef (_last_tooluse_status self) in
  match messages with
  | [] => mret res
  | choice :: messages' =>
      ty ← lift (block_getattr choice "type");
      if val_eq_str ty "tool_use" then
        m ← response_to_openai_message choice;
        let res := RMessage m :: res in
        dumped ← model_dump choice;
        _ ← dict_setitem status "tool_use" dumped;
        message_retrieval_loop self messages' res
      else
        text ← lift (block_getattr choice "text");
        match text with
        | VStr s =>
            let res := res ++ [RText s] in
            think ← lift (block_getattr choice "text");
            _ ← dict_setitem status "think" think;
            message_retrieval_loop self messages' res
        | _ => raise TypeError
        end
  end.

Definition message_retrieval (self : AnthropicClient) (response : Response)
    : M (list retrieved) :=
  let messages := content response in
  if bool_decide (length messages = 0) then mret [RNone]
  else if TOOL_ENABLED then message_retrieval_loop self messages []
  else
    list_comprehension messages (λ choice,
      message ← lift (block_getattr choice "message");
      fc ← lift (val_getattr message "function_call");
      match fc with
      | VNone =>
          message ← lift (block_getattr choice "message");
          c ← lift (val_getattr message "content");
          match c with VStr s => mret (RText s) | _ => mret RNone end
      | _ =>
          text ← lift (block_getattr choice "text");
          match text with VStr s => mret (RText s) | _ => mret RNone end
      end).

(** The body of the loop of [create] over [enumerate(valid_messages)]. *)
Definition create_loop_body (self : AnthropicClient) (params raw_contents processed_messages : val)
    (i : nat) (message : val) : M unit :=
  old_message ← list_getitem raw_contents i;
  r ← dict_getitem message "role";
  if val_eq_str r "system" then
    c ← dict_getitem message "content";
    dict_setitem params "system" c
  else
    r ← dict_getitem message "role";
    if val_eq_str r "function" then
      c ← dict_getitem message "content";
      turn ← return_function_call_result self c;
      list_append processed_messages turn
    else
      marked ← dict_contains old_message "function_call";
      if marked : bool then
        turn ← restore_last_tooluse_status self;
        list_append processed_messages turn
      else
        c ← dict_getitem message "content";
        if val_eq_str c "" then
          _ ← dict_setitem message "content" (VStr "I'm done. Please send TERMINATE");
          list_append processed_messages message
        else
          list_append processed_messages message.

(** [create], lines 81-83: tool declarations are unwrapped into the
    legacy function declarations. *)
Definition create_functions (params : val) : M unit :=
  has_tools ← dict_contains params "tools";
  if has_tools : bool then
    tools ← dict_getitem params "tools";
    converted_functions ← convert_tools_to_functions tools;
    empty ← new_list [];
    functions ← dict_get params "functions" empty;
    functions ← list_add functions converted_functions;
    dict_setitem params "functions" functions
  else mret tt.

(** [create], lines 85-105: the translation of the messages. *)
Definition create_messages (self : AnthropicClient) (params : val) : M unit :=
  raw_contents ← dict_getitem params "messages";
  processed_messages ← new_list [];
  '(valid_messages, _) ← pop_invalid_message_keys raw_contents;
  valid ← as_list TypeError valid_messages;
  _ ← for_enumerate 0 valid (create_loop_body self params raw_contents processed_messages);
  dict_setitem params "messages" processed_messages.

(** [create], lines 107-120: the endpoint and the keyword arguments of the
    outbound call, built on a copy of the request. *)
Definition create_outbound (params : val) : M (completions * val) :=
  has_functions ← (if TOOL_ENABLED then dict_contains params "functions" else mret false);
  let completions := if has_functions : bool then BetaToolsMessages else PlainMessages in
  params ← dict_copy params;
  _ ← dict_setitem params "stream" (VBool false);
  _ ← dict_pop params "model_client_cls";
  max_tokens ← dict_get params "max_tokens" (VInt 4096);
  _ ← dict_setitem params "max_tokens" max_tokens;
  has_functions ← dict_contains params "functions";
  _ ← (if has_functions : bool then
         tools_configs ← dict_pop params "functions";
         configs ← as_list TypeError tools_configs;
         configs ← list_comprehension configs openai_func_to_anthropic;
         tools_configs ← new_list configs;
         dict_setitem params "tools" tools_configs
       else mret tt);
  mret (completions, params).

(** [create] up to the call of the transport. *)
Definition create_request (self : AnthropicClient) (params : val) : M (completions * val) :=
  _ ← create_functions params;
  _ ← create_messages self params;
  create_outbound params.

(** The transport collaborator: [completions.create] applied to the
    keyword arguments [params]. *)
Variable completions_create : completions → val → M Response.

Definition create (self : AnthropicClient) (params : val) : M Response :=
  '(completions, params) ← create_request self params;
  completions_create completions params.

End Client.

(** ** Python numbers *)

(** A Python float is an IEEE 754 binary64 number. *)
Definition prec : Z := 53.
Definition emax : Z := 1024.

Inductive number :=
| PInt (z : Z)
| PFloat (f : spec_float).

(** [float(z)]: the nearest float, ties to even; too large an int raises. *)
Definition float_of_int (z : Z) : result spec_float :=
  match binary_normalize prec emax z 0 false with
  | S754_infinity _ => Raise OverflowError
  | f => Ok f
  end.

(** [x / y] on ints: the correctly rounded quotient. *)
Definition int_truediv (x y : Z) : result spec_float :=
  if (y =? 0)%Z then Raise ZeroDivisionError
  else if (x =? 0)%Z then Ok (S754_zero (y <? 0)%Z)
  else
    let '(q, e, l) := SFdiv_core_binary prec emax (Z.abs x) 0 (Z.abs y) 0 in
    match binary_round_aux prec emax (xorb (x <? 0)%Z (y <? 0)%Z) q e l with
    | S754_infinity _ => Raise OverflowError
    | f => Ok f
    end.

Definition py_float (a : number) : result spec_float :=
  match a with
  | PInt z => float_of_int z
  | PFloat f => Ok f
  end.

Definition is_zero (f : spec_float) : bool :=
  match f with
  | S754_zero _ => true
  | _ => false
  end.

(** [a * b], [a / b] and [a + b] *)
Definition py_mul (a b : number) : result number :=
  match a, b with
  | PInt x, PInt y => Ok (PInt (x * y))
  | _, _ => f ← py_float a; g ← py_float b; Ok (PFloat (SFmul prec emax f g))
  end.

Definition py_truediv (a b : number) : result number :=
  match a, b with
  | PInt x, PInt y => f ← int_truediv x y; Ok (PFloat f)
  | _, _ => f ← py_float a; g ← py_float b;
            if is_zero g then Raise ZeroDivisionError
            else Ok (PFloat (SFdiv prec emax f g))
  end.

Definition py_add (a b : number) : result number :=
  match a, b with
  | PInt x, PInt y => Ok (PInt (x + y))
  | _, _ => f ← py_float a; g ← py_float b; Ok (PFloat (SFadd prec emax f g))
  end.

(** [f == z] for a float and an int: the comparison is exact. *)
Definition float_eq_int (f : spec_float) (z : Z) : bool :=
  match f with
  | S754_zero _ => (z =? 0)%Z
  | S754_finite s m e =>
      if (0 <=? e)%Z then (z =? cond_Zopp s (Zpos m) * 2 ^ e)%Z
      else (z * 2 ^ (- e) =? cond_Zopp s (Zpos m))%Z
  | _ => false
  end.

(** [a == b] *)
Definition py_eq (a b : number) : bool :=
  match a, b with
  | PInt x, PInt y => (x =? y)%Z
  | PFloat f, PFloat g => SFeqb f g
  | PFloat f, PInt y => float_eq_int f y
  | PInt x, PFloat g => float_eq_int g x
  end.


(** ** The cost calculator *)

(** The token counts of a response, 0 when it has no usage:
    [response.usage.input_tokens if response.usage is not None else 0]. *)
Definition tokens_input (response : Response) : Z :=
  match usage response with Some u => input_tokens u | None => 0%Z end.

Definition tokens_output (response : Response) : Z :=
  match usage response with Some u => output_tokens u | None => 0%Z end.

Section Cost.

(** [ANTHROPIC_PRICE1MM] is imported from [openai_utils]: a mapping from the
    model identifier to a mapping from the keys of [tokens] to prices per
    million tokens. [cost] is defined for any such table. *)
Variable ANTHROPIC_PRICE1MM : gmap string (gmap string number).

(** One round of the loop of [cost]:
    [total += value * price_per_million[key] / 1_000_000]. *)
Definition cost_add (price_per_million : gmap string number) (total : number)
    (key : string) (value : Z) : result number :=
  match price_per_million !! key with
  | None => Raise (KeyError key)
  | Some price =>
      x ← py_mul (PInt value) price;
      y ← py_truediv x (PInt 1000000);
      py_add total y
  end.

Definition cost (self : AnthropicClient) (response : Response) : result number :=
  let total := PFloat (S754_zero false) in
  match model self with
  | VRef _ | VJson _ => Raise TypeError
  | VStr m =>
      match ANTHROPIC_PRICE1MM !! m with
      | None => Ok (PInt 0)
      | Some price_per_million =>
          total ← cost_add price_per_million total "input" (tokens_input response);
          total ← cost_add price_per_million total "output" (tokens_output response);
          Ok total
      end
  | _ => Ok (PInt 0)
  end.

End Cost.

(** The amount the spec gives for a listed model:
    [input_tokens * price["input"] / 1_000_000
     + output_tokens * price["output"] / 1_000_000]. *)
Definition cost_formula (price_input price_output : number) (tokens_input tokens_output : Z)
    : result number :=
  x ← py_mul (PInt tokens_input) price_input;
  a ← py_truediv x (PInt 1000000);
  y ← py_mul (PInt tokens_output) price_output;
  b ← py_truediv y (PInt 1000000);
  py_add a b.




(** ** What a computation leaves in the store *)

(** [post m h Q]: the outcome of [m] run on [h], a result or an exception,
    satisfies [Q]. *)
Definition post {A} (m : M A) (h : heap) (Q : result A → heap → Prop) : Prop :=
  Q (m h).1 (m h).2.

(** A computation that only reads the store. *)
Definition reads {A} (m : M A) : Prop := ∀ h, (m h).2 = h.

(** [keeps p K lp W h0 h]: the store [h] descends from [h0]. Every object
    of [h0] is as it was, except that the dict [p] may have changed in the
    keys [K], the list [lp] may have grown at its end, and the objects in
    [W] may have changed in any way. *)
Definition keeps (p : loc) (K : gset string) (lp : loc) (W : loc → Prop) (h0 h : heap) : Prop :=
  length h0 ≤ length h ∧
  (∀ l, l < length h0 → l ≠ p → l ≠ lp → ¬ W l → h !! l = h0 !! l) ∧
  (∀ d, h0 !! p = Some (ODict d) →
        ∃ d', h !! p = Some (ODict d') ∧ ∀ k, k ∉ K → d' !! k = d !! k) ∧
  (∀ xs, h0 !! lp = Some (OList xs) → ∃ ys, h !! lp = Some (OList (xs ++ ys))).

(** The outcome of a computation that keeps the store in this sense; a
    returned value satisfies [P]. *)
Definition kept {A} (p : loc) (K : gset string) (lp : loc) (W : loc → Prop) (h0 : heap)
    (P : A → heap → Prop) : result A → heap → Prop :=
  λ r h, keeps p K lp W h0 h ∧ ∀ a, r = Ok a → P a h.

(** A reference that may be written through: to an object allocated after
    the store [h0], or to one of [W]. *)
Definition writable (W : loc → Prop) (h0 : heap) (v : val) : Prop :=
  ∃ l, v = VRef l ∧ (length h0 ≤ l ∨ W l).

(** The dict at [l] has no key [k]. *)
Definition lacks_key (k : string) (l : loc) (h : heap) : Prop :=
  ∃ d, h !! l = Some (ODict d) ∧ d !! k = None.

(** The keys of the request that [create] binds in place. *)
Definition rebound_keys : gset string := list_to_set ["functions"; "system"; "messages"].

(** [extends h h']: [h'] has every object of [h], as it is in [h]. *)
Definition extends (h h' : heap) : Prop := ∀ l o, h !! l = Some o → h' !! l = Some o.

(** ** The turns of a request, read off the store *)

(** The dict a turn refers to. *)
Definition turn_dict (h : heap) (v : val) : option (gmap string val) :=
  match v with
  | VRef l => match h !! l with
              | Some (ODict d) => Some d
              | _ => None
              end
  | _ => None
  end.

(** The dicts of the turns of the list [v]. *)
Definition turns (h : heap) (v : val) : option (list (gmap string val)) :=
  match v with
  | VRef l => match h !! l with
              | Some (OList xs) => mapM (turn_dict h) xs
              | _ => None
              end
  | _ => None
  end.

(** The dicts of the turns under [params["messages"]]. *)
Definition request_messages (h : heap) (p : loc) : option (list (gmap string val)) :=
  match h !! p with
  | Some (ODict d) => v ← d !! "messages"; turns h v
  | _ => None
  end.

(** A turn already in the shape of the target protocol: only fields of the
    message schema, a role other than "system" and "function", no
    function_call marker and a content other than the empty string. *)
Definition target_shaped (model_fields : gset string) (d : gmap string val) : Prop :=
  dom d ⊆ model_fields ∧
  d !! "function_call" = None ∧
  ∃ r c, d !! "role" = Some r ∧ val_eq_str r "system" = false ∧
         val_eq_str r "function" = false ∧
         d !! "content" = Some c ∧ val_eq_str c "" = false.

(** ** What the inbound translation is expected to return *)

(** The function-call-shaped assistant message of a tool_use block. *)
Definition function_call_message (json_dumps : json → string) (choice : ContentBlock)
    : option ChatCompletionMessage :=
  match choice with
  | ToolUseBlock _ input name =>
      Some {| msg_content := None; role := "assistant";
              function_call := Some {| name := name; arguments := json_dumps input |} |}
  | TextBlock _ => None
  end.

Definition block_text (choice : ContentBlock) : option string :=
  match choice with
  | TextBlock text => Some text
  | ToolUseBlock _ _ _ => None
  end.

(** The messages of the tool_use blocks and the texts of the text blocks,
    each in the order of the blocks. *)
Definition tool_use_messages (json_dumps : json → string) (blocks : list ContentBlock)
    : list ChatCompletionMessage :=
  omap (function_call_message json_dumps) blocks.

Definition block_texts (blocks : list ContentBlock) : list string :=
  omap block_text blocks.

(** ** Sample data *)

(** The fields of [anthropic.types.Message]. *)
Definition message_fields : gset string :=
  list_to_set ["id"; "content"; "model"; "role"; "stop_reason"; "stop_sequence";
               "type"; "usage"].

(** A client just after [__init__]: the configuration at location 0, the
    empty tool-use cache at location 1. *)
Definition new_client_store : list obj :=
  [ODict (<["model" := VStr "claude-3-opus-20240229"]> ∅); ODict ∅].

Definition new_client : AnthropicClient :=
  {| model := VStr "claude-3-opus-20240229"; _last_tooluse_status := 1 |}.

(** A client that remembered the tool_use block "t1", and a request of
    three turns: a system turn, the result "42" of the tool as a turn of role
    "function", and an empty user turn. *)
Definition sample_client : AnthropicClient :=
  {| model := VStr "claude-3-opus-20240229"; _last_tooluse_status := 0 |}.

Definition sample_store : list obj :=
  [ ODict (<["tool_use" := VRef 1]> ∅);
    ODict (<["id" := VStr "t1"]> (<["input" := VJson (JDict [("q", JStr "x")])]>
          (<["name" := VStr "search"]> (<["type" := VStr "tool_use"]> ∅))));
    ODict (<["role" := VStr "system"]> (<["content" := VStr "be brief"]> ∅));
    ODict (<["role" := VStr "function"]> (<["content" := VStr "42"]>
          (<["name" := VStr "search"]> ∅)));
    ODict (<["role" := VStr "user"]> (<["content" := VStr ""]> ∅));
    OList [VRef 2; VRef 3; VRef 4];
    ODict (<["messages" := VRef 5]> (<["model" := VStr "claude-3-opus-20240229"]>
          (<["model_client_cls" := VStr "AnthropicClient"]> ∅))) ].

Definition quoted (s : string) : string :=
  String (Ascii.ascii_of_nat 34) (String.append s (String (Ascii.ascii_of_nat 34) "")).

(** A serialiser in the format of [json.dumps] (items separated by ", ",
    keys by ": "), for payloads whose strings need no escaping. *)
Fixpoint sample_json_dumps (j : json) : string :=
  match j with
  | JNull => "null"
  | JBool true => "true"
  | JBool false => "false"
  | JInt z => pretty z
  | JStr s => quoted s
  | JList l =>
      let fix items (l : list json) : string :=
        match l with
        | [] => ""
        | [x] => sample_json_dumps x
        | x :: l' => String.append (sample_json_dumps x) (String.append ", " (items l'))
        end in
      String.append "[" (String.append (items l) "]")
  | JDict d =>
      let fix items (d : list (string * json)) : string :=
        match d with
        | [] => ""
        | [(k, x)] =>
            String.append (quoted k) (String.append ": " (sample_json_dumps x))
        | (k, x) :: d' =>
            String.append (quoted k)
              (String.append ": "
                 (String.append (sample_json_dumps x) (String.append ", " (items d'))))
        end in
      String.append "{" (String.append (items d) "}")
  end.

(** A response with two tool_use blocks between text blocks. *)
Definition sample_response : Response :=
  {| content := [ TextBlock "Let me look.";
                  ToolUseBlock "t1" (JDict [("q", JStr "x")]) "search";
                  TextBlock "One moment.";
                  ToolUseBlock "t2" (JDict [("n", JInt 3)]) "fetch" ];
     usage := Some {| input_tokens := 100; output_tokens := 50 |};
     response_model := "claude-3-opus-20240229" |}.

(** A request whose two turns are already in the shape of the target
    protocol. *)
Definition plain_turns : list (gmap string val) :=
  [ <["role" := VStr "user"]> (<["content" := VStr "What is 6 times 7?"]> ∅);
    <["role" := VStr "assistant"]> (<["content" := VStr "42"]> ∅) ].

Definition plain_store : list obj :=
  [ ODict (<["role" := VStr "user"]> (<["content" := VStr "What is 6 times 7?"]> ∅));
    ODict (<["role" := VStr "assistant"]> (<["content" := VStr "42"]> ∅));
    OList [VRef 0; VRef 1];
    ODict (<["messages" := VRef 2]> (<["model" := VStr "claude-3-opus-20240229"]>
          (<["model_client_cls" := VStr "AnthropicClient"]> ∅)));
    ODict ∅ ].

Definition plain_client : AnthropicClient :=
  {| model := VStr "claude-3-opus-20240229"; _last_tooluse_status := 4 |}.

(** A price table with one model, at 15.0 and 75.0 per million tokens. *)
Definition sample_prices : gmap string (gmap string number) :=
  {[ "claude-3-opus-20240229" :=
       <["input" := PFloat (binary_normalize prec emax 15 0 false)]>
         (<["output" := PFloat (binary_normalize prec emax 75 0 false)]> ∅) ]}.

(** ** What the cache is expected to remember *)

(** The dict that [model_dump] builds for a block. *)
Definition dumped (choice : ContentBlock) : gmap string val :=
  match choice with
  | TextBlock text => <["text" := VStr text]> (<["type" := VStr "text"]> ∅)
  | ToolUseBlock id input name =>
      <["id" := VStr id]> (<["input" := VJson input]>
        (<["name" := VStr name]> (<["type" := VStr "tool_use"]> ∅)))
  end.

Definition tool_use_block (choice : ContentBlock) : option ContentBlock :=
  match choice with
  | ToolUseBlock _ _ _ => Some choice
  | TextBlock _ => None
  end.

(** The tool_use blocks of a response, in the order of the blocks. *)
Definition tool_use_blocks (blocks : list ContentBlock) : list ContentBlock :=
  omap tool_use_block blocks.

(** ** What the outbound helpers are expected to build *)

(** The declaration that a tool entry wraps: [tool["function"]], for an
    entry of type "function" that has the key. *)
Definition wrapped_function (tool : gmap string val) : option val :=
  if val_eq_str (default VNone (tool !! "type")) "function" then tool !! "function" else None.

(** A function declaration in the form of the vendor: the value under
    "parameters" moved under "input_schema". *)
Definition anthropic_tool (f : gmap string val) : option (gmap string val) :=
  x ← f !! "parameters"; Some (<["input_schema" := x]> (delete "parameters" f)).

(** The keyword arguments built from a request [d] that has no function
    declarations. *)
Definition outbound_kwargs (d : gmap string val) : gmap string val :=
  <["max_tokens" := default (VInt 4096) (d !! "max_tokens")]>
    (delete "model_client_cls" (<["stream" := VBool false]> d)).

(** A request with tool declarations: a search tool that wraps its
    function declaration, an entry of another type and an entry without a
    declaration; one legacy function declaration; one user turn. The cache
    of the client is at location 10. *)
Definition tools_store : list obj :=
  [ ODict (<["type" := VStr "function"]> (<["function" := VRef 1]> ∅));
    ODict (<["name" := VStr "search"]>
          (<["parameters" := VJson (JDict [("type", JStr "object")])]> ∅));
    ODict (<["type" := VStr "retrieval"]> ∅);
    ODict (<["type" := VStr "function"]> ∅);
    OList [VRef 0; VRef 2; VRef 3];
    ODict (<["name" := VStr "fetch"]>
          (<["parameters" := VJson (JDict [("type", JStr "object")])]> ∅));
    OList [VRef 5];
    ODict (<["role" := VStr "user"]> (<["content" := VStr "hi"]> ∅));
    OList [VRef 7];
    ODict (<["messages" := VRef 8]> (<["tools" := VRef 4]> (<["functions" := VRef 6]>
          (<["model_client_cls" := VStr "AnthropicClient"]>
          (<["stream" := VBool true]> ∅)))));
    ODict ∅ ].

Definition tools_client : AnthropicClient :=
  {| model := VStr "claude-3-opus-20240229"; _last_tooluse_status := 10 |}.

(** A client that remembered the text "Let me look." and the tool_use
    block "t1", and a request whose assistant turn carries the function_call
    marker of the legacy protocol. *)
Definition marked_store : list obj :=
  [ ODict (<["think" := VStr "Let me look."]> (<["tool_use" := VRef 1]> ∅));
    ODict (<["id" := VStr "t1"]> (<["input" := VJson (JDict [("q", JStr "x")])]>
          (<["name" := VStr "search"]> (<["type" := VStr "tool_use"]> ∅))));
    ODict (<["role" := VStr "user"]> (<["content" := VStr "What is the weather?"]> ∅));
    ODict (<["role" := VStr "assistant"]> (<["content" := VNone]>
          (<["function_call" := VJson (JDict [("name", JStr "search");
                                               ("arguments", JStr "{}")])]> ∅)));
    ODict (<["role" := VStr "function"]> (<["content" := VStr "42"]>
          (<["name" := VStr "search"]> ∅)));
    OList [VRef 2; VRef 3; VRef 4];
    ODict (<["messages" := VRef 5]> (<["model" := VStr "claude-3-opus-20240229"]>
          (<["model_client_cls" := VStr "AnthropicClient"]> ∅))) ].

(** ** What the translation leaves in the request *)

Definition is_system_turn (d : gmap string val) : bool :=
  match d !! "role" with
  | Some r => val_eq_str r "system"
  | None => false
  end.

(** The request [dp] after the turn [d]: the content of a system turn is
    bound to "system". *)
Definition hoist_system (dp d : gmap string val) : gmap string val :=
  if is_system_turn d then
    match d !! "content" with
    | Some c => <["system" := c]> dp
    | None => dp
    end
  else dp.

(** A price that is a number: an int or a finite float, of any sign. *)
Definition finite_price (price : number) : Prop :=
  match price with
  | PFloat (S754_infinity _) | PFloat S754_nan => False
  | _ => True
  end.

(** ** What the translation emits for a turn *)

(** The id of the tool_use entry that the cache [dc] refers to. *)
Definition remembered_id (h : heap) (dc : gmap string val) : option val :=
  tu ← dc !! "tool_use"; d ← turn_dict h tu; d !! "id".

(** [emitted_within F model_fields dc T h d v]: in the store [h] the value
    [v] refers to the translation of the turn [d], which is not a system
    turn, for a cache [dc] whose tool_use entry has the id [T]. The
    translation is made of objects at locations in [F]. A turn of role
    "function" becomes a user turn with one tool_result block; a turn with
    a function_call marker becomes the assistant turn recalled from the
    cache; any other turn keeps its recognised fields, the empty content
    replaced by the sentinel. *)
Definition emitted_within (F : loc → Prop) (model_fields : gset string)
    (dc : gmap string val) (T : option val) (h : heap) (d : gmap string val) (v : val)
    : Prop :=
  ∃ lt r, v = VRef lt ∧ F lt ∧ d !! "role" = Some r ∧
    if val_eq_str r "function" then
      ∃ c id lb lk,
        d !! "content" = Some c ∧ T = Some id ∧ F lb ∧ F lk ∧
        h !! lt = Some (ODict (<["role" := VStr "user"]> (<["content" := VRef lb]> ∅))) ∧
        h !! lb = Some (OList [VRef lk]) ∧
        h !! lk = Some (ODict (<["type" := VStr "tool_result"]> (<["tool_use_id" := id]>
                               (<["content" := c]> ∅))))
    else if bool_decide (is_Some (d !! "function_call")) then
      ∃ tu lcnt,
        dc !! "tool_use" = Some tu ∧ F lcnt ∧
        h !! lt = Some (ODict (<["role" := VStr "assistant"]>
                                 (<["content" := VRef lcnt]> ∅))) ∧
        match dc !! "think" with
        | Some think =>
            ∃ lb, F lb ∧ h !! lcnt = Some (OList [VRef lb; tu]) ∧
                  h !! lb = Some (ODict (<["type" := VStr "text"]> (<["text" := think]> ∅)))
        | None => h !! lcnt = Some (OList [tu])
        end
    else
      ∃ c, d !! "content" = Some c ∧
           h !! lt = Some (ODict (<["content" := if val_eq_str c ""
                                                 then VStr "I'm done. Please send TERMINATE"
                                                 else c]>
                                    (filter (λ kv, kv.1 ∈ model_fields) d))).

(** * Properties *)

(** ** Running a computation on a known store *)

Arguments as_dict : simpl never.
Arguments as_list : simpl never.
Arguments dict_getitem : simpl never.
Arguments dict_contains : simpl never.
Arguments dict_get : simpl never.
Arguments dict_setitem : simpl never.
Arguments dict_pop : simpl never.
Arguments dict_copy : simpl never.
Arguments list_getitem : simpl never.
Arguments list_last : simpl never.
Arguments list_append : simpl never.
Arguments list_add : simpl never.
Arguments new_dict : simpl never.
Arguments new_list : simpl never.
Arguments alloc : simpl never.
Arguments load : simpl never.
Arguments store : simpl never.
Arguments lift : simpl never.

Lemma run_bind {A B} (m : M A) (k : A → M B) h :
  (m ≫= k) h = match m h with
               | (Ok a, h') => k a h'
               | (Raise e, h') => (Raise e, h')
               end.
Proof. reflexivity. Qed.

Lemma run_ret {A} (a : A) h : (mret a : M A) h = (Ok a, h).
Proof. reflexivity. Qed.

Lemma run_lift {A} (r : result A) h : lift r h = (r, h).
Proof. reflexivity. Qed.

Lemma run_alloc o h : alloc o h = (Ok (length h), h ++ [o]).
Proof. reflexivity. Qed.

Lemma run_new_dict d h : new_dict d h = (Ok (VRef (length h)), h ++ [ODict d]).
Proof. reflexivity. Qed.

Lemma run_new_list xs h : new_list xs h = (Ok (VRef (length h)), h ++ [OList xs]).
Proof. reflexivity. Qed.

Lemma run_store l o o' h :
  h !! l = Some o' → store l o h = (Ok tt, <[l := o]> h).
Proof. intros E. unfold store. by rewrite E. Qed.

Lemma run_as_dict e l h d :
  h !! l = Some (ODict d) → as_dict e (VRef l) h = (Ok d, h).
Proof. intros E. unfold as_dict, load. by rewrite run_bind, E. Qed.

Lemma run_as_list e l h xs :
  h !! l = Some (OList xs) → as_list e (VRef l) h = (Ok xs, h).
Proof. intros E. unfold as_list, load. by rewrite run_bind, E. Qed.

Lemma run_dict_getitem l k h d x :
  h !! l = Some (ODict d) → d !! k = Some x → dict_getitem (VRef l) k h = (Ok x, h).
Proof.
  intros E Ek. unfold dict_getitem.
  by rewrite run_bind, (run_as_dict _ _ _ _ E), Ek.
Qed.

Lemma run_dict_getitem_missing l k h d :
  h !! l = Some (ODict d) → d !! k = None →
  dict_getitem (VRef l) k h = (Raise (KeyError k), h).
Proof.
  intros E Ek. unfold dict_getitem.
  by rewrite run_bind, (run_as_dict _ _ _ _ E), Ek.
Qed.

Lemma run_dict_contains l k h d :
  h !! l = Some (ODict d) →
  dict_contains (VRef l) k h = (Ok (bool_decide (is_Some (d !! k))), h).
Proof.
  intros E. unfold dict_contains. by rewrite run_bind, (run_as_dict _ _ _ _ E).
Qed.

Lemma run_dict_get l k dv h d :
  h !! l = Some (ODict d) →
  dict_get (VRef l) k dv h = (Ok (match d !! k with Some x => x | None => dv end), h).
Proof.
  intros E. unfold dict_get. by rewrite run_bind, (run_as_dict _ _ _ _ E).
Qed.

Lemma run_dict_setitem l k x h d :
  h !! l = Some (ODict d) →
  dict_setitem (VRef l) k x h = (Ok tt, <[l := ODict (<[k := x]> d)]> h).
Proof.
  intros E. unfold dict_setitem. rewrite run_bind, (run_as_dict _ _ _ _ E).
  by apply run_store with (o' := ODict d).
Qed.

Lemma run_dict_pop_missing l k h d :
  h !! l = Some (ODict d) → d !! k = None →
  dict_pop (VRef l) k h = (Raise (KeyError k), h).
Proof.
  intros E Ek. unfold dict_pop. by rewrite run_bind, (run_as_dict _ _ _ _ E), Ek.
Qed.

Lemma run_dict_copy l h d :
  h !! l = Some (ODict d) →
  dict_copy (VRef l) h = (Ok (VRef (length h)), h ++ [ODict d]).
Proof.
  intros E. unfold dict_copy. by rewrite run_bind, (run_as_dict _ _ _ _ E).
Qed.

Lemma run_list_getitem l i h xs x :
  h !! l = Some (OList xs) → xs !! i = Some x → list_getitem (VRef l) i h = (Ok x, h).
Proof.
  intros E Ei. unfold list_getitem.
  by rewrite run_bind, (run_as_list _ _ _ _ E), Ei.
Qed.

Lemma run_list_last l h xs x :
  h !! l = Some (OList xs) → last xs = Some x → list_last (VRef l) h = (Ok x, h).
Proof.
  intros E Ei. unfold list_last.
  by rewrite run_bind, (run_as_list _ _ _ _ E), Ei.
Qed.

Lemma run_list_append l x h xs :
  h !! l = Some (OList xs) →
  list_append (VRef l) x h = (Ok tt, <[l := OList (xs ++ [x])]> h).
Proof.
  intros E. unfold list_append. rewrite run_bind, (run_as_list _ _ _ _ E).
  by apply run_store with (o' := OList xs).
Qed.

(** Lengths and lookups in a store that was extended and updated. *)
Ltac heap_len :=
  repeat match goal with
         | H : ?h !! ?l = Some _ |- _ =>
             lazymatch goal with
             | _ : l < length h |- _ => fail
             | _ => pose proof (lookup_lt_Some h l _ H)
             end
         end;
  rewrite ?length_app, ?length_insert in *; simpl in *; lia.

Ltac heap_lookup :=
  repeat first
    [ eassumption
    | rewrite list_lookup_insert_eq by heap_len
    | rewrite list_lookup_insert_ne by heap_len
    | rewrite list_lookup_middle by heap_len
    | rewrite lookup_app_l by heap_len ];
  try reflexivity.

Ltac mrun_prim :=
  first
    [ rewrite run_ret
    | rewrite run_lift
    | rewrite run_new_list
    | rewrite run_new_dict
    | rewrite run_alloc
    | erewrite run_dict_contains by heap_lookup
    | erewrite run_dict_get by heap_lookup
    | erewrite run_dict_getitem by heap_lookup
    | erewrite run_dict_getitem_missing by heap_lookup
    | erewrite run_dict_pop_missing by heap_lookup
    | erewrite run_dict_copy by heap_lookup
    | erewrite run_list_getitem by heap_lookup
    | erewrite run_list_last by heap_lookup
    | erewrite run_dict_setitem by heap_lookup
    | erewrite run_list_append by heap_lookup
    | erewrite run_as_dict by heap_lookup
    | erewrite run_as_list by heap_lookup ].

Ltac mstep :=
  first [ mrun_prim
        | rewrite run_bind; mrun_prim
        | rewrite run_bind; rewrite run_bind; mrun_prim ];
  cbv beta iota.

(** ** The tool-use state cache before any tool use *)

Section ToolUseCache.

Context (self : AnthropicClient) (h : list obj) (d : gmap string val).
Hypothesis cache_dict : h !! _last_tooluse_status self = Some (ODict d).
Hypothesis never_remembered : d !! "tool_use" = None.

Lemma restore_unprimed :
  ∃ h', restore_last_tooluse_status self h = (Raise (KeyError "tool_use"), h').
Proof.
  unfold restore_last_tooluse_status. do 2 mstep.
  destruct (d !! "think") as [think|] eqn:E.
  - rewrite bool_decide_true by eauto. cbv beta iota.
    rewrite run_bind. do 4 mstep. eauto.
  - rewrite bool_decide_false by (intros [? ?]; done). cbv beta iota.
    do 2 mstep. eauto.
Qed.

Lemma return_result_unprimed result :
  return_function_call_result self result h = (Raise (KeyError "tool_use"), h).
Proof. unfold return_function_call_result. by mstep. Qed.

End ToolUseCache.

(** C5: before any tool_use block was remembered, both recall operations
    raise the missing-key fault [KeyError "tool_use"] instead of returning,
    and the loop of [create], their only caller, lets the fault through: a
    turn of role "function", and a turn whose original carries a
    function_call marker, make the loop body raise the same fault. *)
Theorem recall_before_remember (self : AnthropicClient) (h : list obj) (d : gmap string val) :
  h !! _last_tooluse_status self = Some (ODict d) →
  d !! "tool_use" = None →
  (∃ h', restore_last_tooluse_status self h = (Raise (KeyError "tool_use"), h')) ∧
  (∀ result, return_function_call_result self result h = (Raise (KeyError "tool_use"), h)) ∧
  (∀ params lr lp lm i ms old dm r,
     h !! lr = Some (OList ms) → ms !! i = Some old →
     h !! lm = Some (ODict dm) → dm !! "role" = Some r →
     val_eq_str r "system" = false →
     (val_eq_str r "function" = true ∧ is_Some (dm !! "content")) ∨
     (val_eq_str r "function" = false ∧
      ∃ lo dold, old = VRef lo ∧ h !! lo = Some (ODict dold) ∧
                 is_Some (dold !! "function_call")) →
     ∃ h', create_loop_body self params (VRef lr) (VRef lp) i (VRef lm) h
           = (Raise (KeyError "tool_use"), h')).
Proof.
  intros Hc Hd. split; [by eapply restore_unprimed|].
  split; [intros; by eapply return_result_unprimed|].
  intros params lr lp lm i ms old dm r Hlr Hi Hlm Hr Hsys Hcase.
  unfold create_loop_body. do 2 mstep. rewrite Hsys. mstep.
  destruct Hcase as [[Hf [c Hcont]]|[Hf (lo & dold & -> & Hlo & Hmark)]]; rewrite Hf.
  - mstep. rewrite run_bind, (return_result_unprimed self h d Hc Hd). eauto.
  - mstep. rewrite bool_decide_true by done. cbv beta iota.
    rewrite run_bind.
    destruct (restore_unprimed self h d Hc Hd) as [h' ->]. eauto.
Qed.

Lemma recall_before_remember_new_client :
  (∃ h', restore_last_tooluse_status new_client new_client_store
         = (Raise (KeyError "tool_use"), h')) ∧
  (∀ result, return_function_call_result new_client result new_client_store
             = (Raise (KeyError "tool_use"), new_client_store)).
Proof.
  destruct (recall_before_remember new_client new_client_store ∅) as (H1 & H2 & _).
  - reflexivity.
  - reflexivity.
  - split; [exact H1 | exact H2].
Defined.

(** The client of the samples is the one the constructor builds. *)
Example new_client_constructed :
  AnthropicClient__init__ (VRef 0) [ODict (<["model" := VStr "claude-3-opus-20240229"]> ∅)]
  = (Ok new_client, new_client_store).
Proof. reflexivity. Qed.

(** ** The inbound translation *)

Section Inbound.

Context (json_dumps : json → string) (self : AnthropicClient).

Lemma run_response_to_openai_message id input name h :
  response_to_openai_message json_dumps (ToolUseBlock id input name) h =
    (Ok {| msg_content := None; role := "assistant";
           function_call := Some {| name := name; arguments := json_dumps input |} |},
     h ++ [ODict (<["id" := VStr id]> (<["input" := VJson input]>
                 (<["name" := VStr name]> (<["type" := VStr "tool_use"]> ∅))))]).
Proof.
  unfold response_to_openai_message, model_dump. mstep.
  erewrite run_bind, run_dict_getitem; [|heap_lookup|reflexivity]. cbv beta iota.
  erewrite run_bind, run_dict_getitem; [|heap_lookup|reflexivity]. cbv beta iota.
  reflexivity.
Qed.

Lemma message_retrieval_loop_result messages :
  ∀ res h d,
    h !! _last_tooluse_status self = Some (ODict d) →
    ∃ h' d',
      message_retrieval_loop json_dumps self messages res h =
        (Ok ((RMessage <$> reverse (tool_use_messages json_dumps messages)) ++ res ++
             (RText <$> block_texts messages)), h') ∧
      h' !! _last_tooluse_status self = Some (ODict d').
Proof.
  induction messages as [|choice messages IH]; intros res h d Hc; simpl.
  - rewrite app_nil_r. eauto.
  - destruct choice as [text|id input name]; simpl.
    + change (block_getattr (TextBlock text) "type") with (Ok (VStr "text")).
      change (block_getattr (TextBlock text) "text") with (Ok (VStr text)).
      mstep. change (val_eq_str (VStr "text") "tool_use") with false. cbv iota.
      do 3 mstep.
      edestruct (IH (res ++ [RText text])) as (h' & d' & -> & Hc'); [heap_lookup|].
      exists h', d'. split; [|done].
      by rewrite <-(app_assoc res).
    + change (block_getattr (ToolUseBlock id input name) "type") with (Ok (VStr "tool_use")).
      mstep. change (val_eq_str (VStr "tool_use") "tool_use") with true. cbv iota.
      rewrite run_bind, run_response_to_openai_message. cbv beta iota.
      unfold model_dump. do 2 mstep.
      match goal with
      | |- context [message_retrieval_loop _ _ _ (?m :: res) ?h1] =>
          destruct (IH (m :: res) h1 (<["tool_use" := VRef (length h + 1)]> d))
            as (h' & d' & E & Hc')
      end.
      { rewrite length_app. simpl. heap_lookup. }
      rewrite length_app in E |- *. simpl in E |- *. rewrite E.
      exists h', d'. split; [|done].
      unfold tool_use_messages. simpl. rewrite reverse_cons, fmap_app. simpl.
      by rewrite <-app_assoc.
Qed.

End Inbound.

(** C9: with tools enabled, the messages of the tool_use blocks come out in
    the reverse of the blocks' order, followed by the texts of the text
    blocks in their order (each tool_use message is inserted at position 0,
    each text is appended). *)
Theorem message_retrieval_reverses_tool_use (json_dumps : json → string)
    (self : AnthropicClient) (response : Response) (h : list obj) (d : gmap string val) :
  h !! _last_tooluse_status self = Some (ODict d) →
  content response ≠ [] →
  ∃ h', message_retrieval true json_dumps self response h =
          (Ok ((RMessage <$> reverse (tool_use_messages json_dumps (content response))) ++
               (RText <$> block_texts (content response))), h').
Proof.
  intros Hc Hne. unfold message_retrieval.
  rewrite bool_decide_false by (by destruct (content response)).
  destruct (message_retrieval_loop_result json_dumps self (content response) [] h d Hc)
    as (h' & d' & -> & _).
  eauto.
Qed.

Lemma message_retrieval_reverses_sample :
  ∃ h', message_retrieval true sample_json_dumps new_client sample_response new_client_store =
          (Ok [ RMessage {| msg_content := None; role := "assistant";
                            function_call := Some {| name := "fetch";
                                                     arguments := String.append "{" (String.append (quoted "n") ": 3}") |} |};
                RMessage {| msg_content := None; role := "assistant";
                            function_call := Some {| name := "search";
                                                     arguments :=
                              String.append "{" (String.append (quoted "q")
                                (String.append ": " (String.append (quoted "x") "}"))) |} |};
                RText "Let me look."; RText "One moment." ], h').
Proof.
  apply (message_retrieval_reverses_tool_use sample_json_dumps new_client sample_response
           new_client_store ∅).
  - reflexivity.
  - discriminate.
Defined.

(** After the retrieval of the sample response the cache holds the last
    tool_use block, "t2", and the recall for a result addresses it. *)
Example remember_then_recall :
  let h1 := (message_retrieval true sample_json_dumps new_client sample_response
               new_client_store).2 in
  let r := return_function_call_result new_client (VStr "42") h1 in
  r.1 = Ok (VRef 8) ∧
  r.2 !! 6 = Some (ODict (<["type" := VStr "tool_result"]> (<["tool_use_id" := VStr "t2"]>
                         (<["content" := VStr "42"]> ∅)))).
Proof. split; by vm_compute. Qed.

Lemma messages_before_texts (ms : list ChatCompletionMessage) (ts : list string) :
  let res := (RMessage <$> ms) ++ (RText <$> ts) in
  (∀ m, RMessage m ∈ res ↔ m ∈ ms) ∧
  (∀ s, RText s ∈ res ↔ s ∈ ts) ∧
  (∀ i j m s, res !! i = Some (RMessage m) → res !! j = Some (RText s) → i < j).
Proof.
  simpl. split; [|split].
  - intros m. rewrite elem_of_app, !list_elem_of_fmap. split.
    + intros [(m' & [= ->] & ?)|(s & [=] & ?)]. done.
    + intros ?. left. eauto.
  - intros s. rewrite elem_of_app, !list_elem_of_fmap. split.
    + intros [(m & [=] & ?)|(s' & [= ->] & ?)]. done.
    + intros ?. right. eauto.
  - intros i j m s Hi Hj.
    apply lookup_app_Some in Hi as [Hi|[_ Hi]], Hj as [Hj|[Hlen Hj]].
    + apply list_lookup_fmap_Some in Hj as (? & [=] & _).
    + apply lookup_lt_Some in Hi. lia.
    + apply list_lookup_fmap_Some in Hj as (? & [=] & _).
    + apply list_lookup_fmap_Some in Hi as (? & [=] & _).
Qed.

(** C4: with tools enabled, [message_retrieval] returns a list that holds
    exactly the function-call messages of the tool_use blocks and the texts
    of the text blocks, and every such message stands before every text,
    wherever the blocks stood in the response. *)
Theorem tool_use_messages_come_first (json_dumps : json → string)
    (self : AnthropicClient) (response : Response) (h : list obj) (d : gmap string val) :
  h !! _last_tooluse_status self = Some (ODict d) →
  ∃ res h',
    message_retrieval true json_dumps self response h = (Ok res, h') ∧
    (∀ m, RMessage m ∈ res ↔ m ∈ tool_use_messages json_dumps (content response)) ∧
    (∀ s, RText s ∈ res ↔ s ∈ block_texts (content response)) ∧
    (∀ i j m s, res !! i = Some (RMessage m) → res !! j = Some (RText s) → i < j).
Proof.
  intros Hc. unfold message_retrieval. case_bool_decide as Hlen.
  - apply length_zero_iff_nil in Hlen. rewrite Hlen.
    exists [RNone], h. split; [done|]. split; [|split].
    + intros m. rewrite list_elem_of_singleton. split; [done|]. by intros ?%elem_of_nil.
    + intros s. rewrite list_elem_of_singleton. split; [done|]. by intros ?%elem_of_nil.
    + intros [|i] j m s Hi Hj; by destruct j.
  - destruct (message_retrieval_loop_result json_dumps self (content response) [] h d Hc)
      as (h' & d' & -> & _).
    eexists _, h'. split; [reflexivity|].
    pose proof (messages_before_texts (reverse (tool_use_messages json_dumps (content response)))
                  (block_texts (content response))) as (Hm & Ht & Hord).
    simpl in *. split; [|split]; [|done..].
    intros m. rewrite Hm. apply elem_of_reverse.
Qed.

Lemma tool_use_messages_come_first_sample :
  ∃ res h',
    message_retrieval true sample_json_dumps new_client sample_response new_client_store
      = (Ok res, h') ∧
    (∀ m, RMessage m ∈ res ↔ m ∈ tool_use_messages sample_json_dumps (content sample_response)) ∧
    (∀ s, RText s ∈ res ↔ s ∈ block_texts (content sample_response)) ∧
    (∀ i j m s, res !! i = Some (RMessage m) → res !! j = Some (RText s) → i < j).
Proof.
  apply (tool_use_messages_come_first sample_json_dumps new_client sample_response
           new_client_store ∅).
  reflexivity.
Defined.

(** C2: with tools disabled, retrieving from the response whose only
    content block is the text block "hello" does not return ["hello"]: the
    legacy branch reads [choice.message], an attribute that a content block
    does not have, and raises [AttributeError]. *)
Theorem legacy_retrieval_raises (json_dumps : json → string) (self : AnthropicClient)
    (usage : option Usage) (response_model : string) (h : list obj) :
  message_retrieval false json_dumps self
    {| content := [TextBlock "hello"]; usage := usage; response_model := response_model |} h
  = (Raise (AttributeError "message"), h).
Proof. reflexivity. Qed.

(** ** The outbound translation, one turn at a time *)

Lemma filter_fields_lookup (model_fields : gset string) (d : gmap string val) k x :
  k ∈ model_fields → d !! k = Some x →
  filter (λ kv : string * val, kv.1 ∈ model_fields) d !! k = Some x.
Proof. intros Hk Hd. by apply map_lookup_filter_Some. Qed.

(** The loop body on a turn of role "function": a new turn with one
    tool_result block, addressed to the remembered tool_use id, is appended
    to the outbound messages; nothing else in the store changes. *)
Lemma create_loop_body_function (self : AnthropicClient) (params : val)
    (lr lp lm ltu i : nat) (h : list obj) (ms ps : list val) (old : val)
    (dm dc dtu : gmap string val) (T c : val) :
  h !! _last_tooluse_status self = Some (ODict dc) →
  dc !! "tool_use" = Some (VRef ltu) →
  h !! ltu = Some (ODict dtu) →
  dtu !! "id" = Some T →
  h !! lr = Some (OList ms) →
  ms !! i = Some old →
  h !! lm = Some (ODict dm) →
  dm !! "role" = Some (VStr "function") →
  dm !! "content" = Some c →
  h !! lp = Some (OList ps) →
  create_loop_body self params (VRef lr) (VRef lp) i (VRef lm) h =
    (Ok tt,
     <[lp := OList (ps ++ [VRef (length h + 2)])]>
       (h ++ [ ODict (<["type" := VStr "tool_result"]> (<["tool_use_id" := T]>
                     (<["content" := c]> ∅)));
               OList [VRef (length h)];
               ODict (<["role" := VStr "user"]> (<["content" := VRef (length h + 1)]> ∅)) ])).
Proof.
  intros Hc Htu Hltu Hid Hlr Hi Hlm Hrole Hcontent Hlp.
  unfold create_loop_body. do 2 mstep.
  change (val_eq_str (VStr "function") "system") with false. cbv iota.
  mstep. change (val_eq_str (VStr "function") "function") with true. cbv iota.
  mstep. unfold return_function_call_result. rewrite run_bind.
  do 5 mstep. mstep.
  rewrite !length_app. simpl. rewrite <-!app_assoc. simpl.
  by rewrite <-!Nat.add_assoc.
Qed.

(** The loop body on a turn that takes the last two branches. *)
Lemma create_loop_body_plain (self : AnthropicClient) (params : val) (lr lp lm lo i : nat)
    (h : list obj) (ms ps : list val) (d dm : gmap string val) (r c : val) :
  h !! lr = Some (OList ms) →
  ms !! i = Some (VRef lo) →
  h !! lo = Some (ODict d) →
  d !! "function_call" = None →
  h !! lm = Some (ODict dm) →
  dm !! "role" = Some r →
  val_eq_str r "system" = false →
  val_eq_str r "function" = false →
  dm !! "content" = Some c →
  h !! lp = Some (OList ps) →
  create_loop_body self params (VRef lr) (VRef lp) i (VRef lm) h =
    (Ok tt,
     <[lp := OList (ps ++ [VRef lm])]>
       (if val_eq_str c ""
        then <[lm := ODict (<["content" := VStr "I'm done. Please send TERMINATE"]> dm)]> h
        else h)).
Proof.
  intros Hlr Hi Hlo Hmark Hlm Hrole Hsys Hfun Hcontent Hlp.
  assert (lp ≠ lm) as Hne by (intros ->; congruence).
  unfold create_loop_body. do 2 mstep. rewrite Hsys. mstep. rewrite Hfun.
  mstep. rewrite bool_decide_false by (rewrite Hmark; by intros [? ?]). cbv iota.
  mstep. destruct (val_eq_str c "") eqn:Hempty.
  - do 2 mstep. reflexivity.
  - mstep. reflexivity.
Qed.

(** ** Reasoning about outcomes *)

Lemma post_bind {A B} (m : M A) (k : A → M B) h Q :
  post m h (λ r h1, match r with
                    | Ok a => post (k a) h1 Q
                    | Raise e => Q (Raise e) h1
                    end) →
  post (m ≫= k) h Q.
Proof. unfold post. rewrite run_bind. by destruct (m h) as [[a|e] h1]. Qed.

Lemma post_tail {A} (m : M A) h Q : post (m ≫= mret) h Q → post m h Q.
Proof. unfold post. rewrite run_bind. by destruct (m h) as [[a|e] h1]. Qed.

Lemma post_ret {A} (a : A) h (Q : result A → list obj → Prop) :
  Q (Ok a) h → post (mret a) h Q.
Proof. done. Qed.

Lemma post_mono {A} (m : M A) h (Q Q' : result A → list obj → Prop) :
  post m h Q → (∀ r h', Q r h' → Q' r h') → post m h Q'.
Proof. unfold post. auto. Qed.

Lemma post_bind_read {A B} (m : M A) (k : A → M B) h Q :
  reads m →
  (∀ e, Q (Raise e) h) →
  (∀ a, post (k a) h Q) →
  post (m ≫= k) h Q.
Proof.
  intros Hm He Hk. apply post_bind. unfold post. rewrite Hm.
  destruct (m h).1; [apply Hk | apply He].
Qed.

Lemma reads_ret {A} (a : A) : reads (mret a : M A).
Proof. done. Qed.

Lemma reads_raise {A} e : reads (raise e : M A).
Proof. done. Qed.

Lemma reads_lift {A} (r : result A) : reads (lift r).
Proof. done. Qed.

Lemma reads_load l : reads (load l).
Proof. intros h. unfold load. by destruct (h !! l). Qed.

Lemma reads_bind {A B} (m : M A) (k : A → M B) :
  reads m → (∀ a, reads (k a)) → reads (m ≫= k).
Proof.
  intros Hm Hk h. rewrite run_bind. specialize (Hm h).
  destruct (m h) as [[a|e] h1]; simpl in *; subst; [apply Hk | done].
Qed.

Lemma reads_as_dict e v : reads (as_dict e v).
Proof.
  destruct v; try apply reads_raise. apply reads_bind; [apply reads_load|].
  intros [d|xs]; [apply reads_ret | apply reads_raise].
Qed.

Lemma reads_as_list e v : reads (as_list e v).
Proof.
  destruct v; try apply reads_raise. apply reads_bind; [apply reads_load|].
  intros [d|xs]; [apply reads_raise | apply reads_ret].
Qed.

Lemma reads_dict_getitem v k : reads (dict_getitem v k).
Proof.
  apply reads_bind; [apply reads_as_dict|].
  intros d. destruct (d !! k); [apply reads_ret | apply reads_raise].
Qed.

Lemma reads_dict_contains v k : reads (dict_contains v k).
Proof. apply reads_bind; [apply reads_as_dict | intros; apply reads_ret]. Qed.

Lemma reads_dict_get v k dv : reads (dict_get v k dv).
Proof. apply reads_bind; [apply reads_as_dict | intros; apply reads_ret]. Qed.

Lemma reads_list_getitem v i : reads (list_getitem v i).
Proof.
  apply reads_bind; [apply reads_as_list|].
  intros xs. destruct (xs !! i); [apply reads_ret | apply reads_raise].
Qed.

Lemma reads_list_last v : reads (list_last v).
Proof.
  apply reads_bind; [apply reads_as_list|].
  intros xs. destruct (last xs); [apply reads_ret | apply reads_raise].
Qed.

Create HintDb reads discriminated.
#[local] Hint Resolve reads_ret reads_raise reads_lift reads_as_dict reads_as_list
  reads_dict_getitem reads_dict_contains reads_dict_get reads_list_getitem
  reads_list_last : reads.

(** What the operations that write leave behind. *)
Lemma post_bind_alloc {B} o (k : nat → M B) h Q :
  post (k (length h)) (h ++ [o]) Q → post (alloc o ≫= k) h Q.
Proof. intros Hk. by apply post_bind. Qed.

Lemma post_bind_new_dict {B} d (k : val → M B) h Q :
  post (k (VRef (length h))) (h ++ [ODict d]) Q → post (new_dict d ≫= k) h Q.
Proof. intros Hk. by apply post_bind. Qed.

Lemma post_bind_new_list {B} xs (k : val → M B) h Q :
  post (k (VRef (length h))) (h ++ [OList xs]) Q → post (new_list xs ≫= k) h Q.
Proof. intros Hk. by apply post_bind. Qed.

Lemma post_new_dict d h (Q : result val → list obj → Prop) :
  Q (Ok (VRef (length h))) (h ++ [ODict d]) → post (new_dict d) h Q.
Proof. done. Qed.

Lemma post_new_list xs h (Q : result val → list obj → Prop) :
  Q (Ok (VRef (length h))) (h ++ [OList xs]) → post (new_list xs) h Q.
Proof. done. Qed.

Lemma as_dict_cases e v h :
  (∃ l d, v = VRef l ∧ h !! l = Some (ODict d) ∧ as_dict e v h = (Ok d, h)) ∨
  (∃ e', as_dict e v h = (Raise e', h)).
Proof.
  destruct v as [| | | | |l]; try (right; by eexists).
  unfold as_dict, load. rewrite run_bind.
  destruct (h !! l) as [[d|xs]|] eqn:E; [left; eauto | right; by eexists..].
Qed.

Lemma as_list_cases e v h :
  (∃ l xs, v = VRef l ∧ h !! l = Some (OList xs) ∧ as_list e v h = (Ok xs, h)) ∨
  (∃ e', as_list e v h = (Raise e', h)).
Proof.
  destruct v as [| | | | |l]; try (right; by eexists).
  unfold as_list, load. rewrite run_bind.
  destruct (h !! l) as [[d|xs]|] eqn:E; [right; by eexists | left; eauto | right; by eexists].
Qed.

Lemma post_bind_as_list {B} e v (k : list val → M B) h Q :
  (∀ e', Q (Raise e') h) →
  (∀ l xs, v = VRef l → h !! l = Some (OList xs) → post (k xs) h Q) →
  post (as_list e v ≫= k) h Q.
Proof.
  intros He Hk. apply post_bind. unfold post.
  destruct (as_list_cases e v h) as [(l & xs & -> & Hl & ->)|[e' ->]]; simpl.
  - by eapply Hk.
  - apply He.
Qed.

Lemma post_bind_as_dict {B} e v (k : gmap string val → M B) h Q :
  (∀ e', Q (Raise e') h) →
  (∀ l d, v = VRef l → h !! l = Some (ODict d) → post (k d) h Q) →
  post (as_dict e v ≫= k) h Q.
Proof.
  intros He Hk. apply post_bind. unfold post.
  destruct (as_dict_cases e v h) as [(l & d & -> & Hl & ->)|[e' ->]]; simpl.
  - by eapply Hk.
  - apply He.
Qed.

Lemma post_bind_dict_setitem {B} v key x (k : unit → M B) h Q :
  (∀ e, Q (Raise e) h) →
  (∀ l d, v = VRef l → h !! l = Some (ODict d) →
          post (k tt) (<[l := ODict (<[key := x]> d)]> h) Q) →
  post (dict_setitem v key x ≫= k) h Q.
Proof.
  intros He Hk. apply post_bind. unfold post, dict_setitem.
  destruct (as_dict_cases TypeError v h) as [(l & d & -> & Hl & E)|[e' E]].
  - rewrite run_bind, E, (run_store _ _ _ _ Hl). simpl. by apply Hk.
  - destruct v; try apply He. rewrite run_bind, E. apply He.
Qed.

Lemma post_bind_dict_pop {B} v key (k : val → M B) h Q :
  (∀ e, Q (Raise e) h) →
  (∀ l d x, v = VRef l → h !! l = Some (ODict d) → d !! key = Some x →
            post (k x) (<[l := ODict (delete key d)]> h) Q) →
  post (dict_pop v key ≫= k) h Q.
Proof.
  intros He Hk. apply post_bind. unfold post, dict_pop.
  destruct (as_dict_cases (AttributeError "pop") v h) as [(l & d & -> & Hl & E)|[e' E]].
  - rewrite run_bind, E. destruct (d !! key) as [x|] eqn:Ex; [|apply He].
    rewrite run_bind, (run_store _ _ _ _ Hl). simpl. by eapply Hk.
  - destruct v; try apply He. rewrite run_bind, E. apply He.
Qed.

Lemma post_bind_dict_copy {B} v (k : val → M B) h Q :
  (∀ e, Q (Raise e) h) →
  (∀ l d, v = VRef l → h !! l = Some (ODict d) →
          post (k (VRef (length h))) (h ++ [ODict d]) Q) →
  post (dict_copy v ≫= k) h Q.
Proof.
  intros He Hk. apply post_bind. unfold post, dict_copy.
  destruct (as_dict_cases (AttributeError "copy") v h) as [(l & d & -> & Hl & E)|[e' E]].
  - rewrite run_bind, E. simpl. by eapply Hk.
  - rewrite run_bind, E. apply He.
Qed.

Lemma post_bind_list_append {B} v x (k : unit → M B) h Q :
  (∀ e, Q (Raise e) h) →
  (∀ l xs, v = VRef l → h !! l = Some (OList xs) →
           post (k tt) (<[l := OList (xs ++ [x])]> h) Q) →
  post (list_append v x ≫= k) h Q.
Proof.
  intros He Hk. apply post_bind. unfold post, list_append.
  destruct (as_list_cases (AttributeError "append") v h) as [(l & xs & -> & Hl & E)|[e' E]].
  - rewrite run_bind, E, (run_store _ _ _ _ Hl). simpl. by apply Hk.
  - destruct v; try apply He. rewrite run_bind, E. apply He.
Qed.

Lemma post_bind_list_add {B} v w (k : val → M B) h Q :
  (∀ e, Q (Raise e) h) →
  (∀ xs, post (k (VRef (length h))) (h ++ [OList xs]) Q) →
  post (list_add v w ≫= k) h Q.
Proof.
  intros He Hk. apply post_bind. unfold post, list_add.
  destruct (as_list_cases TypeError v h) as [(l & xs & -> & Hl & E)|[e' E]];
    rewrite run_bind, E; [|apply He].
  destruct (as_list_cases TypeError w h) as [(l' & ys & -> & Hl' & E')|[e' E']];
    rewrite run_bind, E'; [|apply He].
  apply Hk.
Qed.

Lemma post_seq {A B} (m : M A) (k : A → M B) h (I : result A → list obj → Prop) Q :
  post m h I →
  (∀ e h', I (Raise e) h' → Q (Raise e) h') →
  (∀ a h', I (Ok a) h' → post (k a) h' Q) →
  post (m ≫= k) h Q.
Proof.
  intros Hm He Hk. apply post_bind. unfold post in *.
  destruct (m h) as [[a|e] h1]; simpl in *; eauto.
Qed.

Lemma post_for_each {A} (I : list obj → Prop) (xs : list A) (body : A → M unit) h :
  I h →
  (∀ x h, I h → post (body x) h (λ _ h', I h')) →
  post (for_each xs body) h (λ _ h', I h').
Proof.
  intros Hh Hbody. revert h Hh. induction xs as [|x xs IH]; intros h Hh; simpl; [done|].
  eapply post_seq; [by apply Hbody | by simpl | intros u h' Hh'; by apply IH].
Qed.

Lemma post_for_enumerate {A} (I : list obj → Prop) (P : A → Prop) (xs : list A)
    (body : nat → A → M unit) i h :
  I h →
  Forall P xs →
  (∀ i x h, P x → I h → post (body i x) h (λ _ h', I h')) →
  post (for_enumerate i xs body) h (λ _ h', I h').
Proof.
  intros Hh Hxs Hbody. revert i h Hh.
  induction Hxs as [|x xs Hx Hxs IH]; intros i h Hh; simpl; [done|].
  eapply post_seq; [by apply Hbody | by simpl | intros u h' Hh'; by apply IH].
Qed.

Lemma post_list_comprehension {A B} (I : list obj → Prop) (P : B → Prop) (xs : list A)
    (f : A → M B) h :
  I h →
  (∀ x h, I h → post (f x) h (λ r h', I h' ∧ ∀ y, r = Ok y → P y)) →
  post (list_comprehension xs f) h (λ r h', I h' ∧ ∀ ys, r = Ok ys → Forall P ys).
Proof.
  intros Hh Hf. revert h Hh. induction xs as [|x xs IH]; intros h Hh; simpl.
  - split; [done|]. by intros ys [= <-].
  - eapply post_seq; [by apply Hf | simpl; intros e h' [? _]; by split |].
    intros y h1 [Hh1 Hy]. simpl.
    eapply post_seq; [by apply IH | simpl; intros e h' [? _]; by split |].
    intros ys h2 [Hh2 Hys]. split; [done|].
    intros ? [= <-]. constructor; eauto.
Qed.

(** ** Stores that descend from a given one *)

Section Keeps.

Context (p : nat) (K : gset string) (lp : nat) (W : nat → Prop) (h0 : list obj).
Hypothesis W_apart : ∀ l, W l → l ≠ p ∧ l ≠ lp.

Lemma keeps_refl : keeps p K lp W h0 h0.
Proof.
  split; [done|]. split; [done|]. split.
  - intros d Hd. by exists d.
  - intros xs Hxs. exists []. by rewrite app_nil_r.
Qed.

Lemma keeps_length h : keeps p K lp W h0 h → length h0 ≤ length h.
Proof. by intros [? _]. Qed.

Lemma keeps_alloc h o : keeps p K lp W h0 h → keeps p K lp W h0 (h ++ [o]).
Proof.
  intros (Hlen & Hold & Hp & Hlp). split; [rewrite length_app; lia|]. split; [|split].
  - intros l Hl Hne1 Hne2 HW. rewrite lookup_app_l by lia. by apply Hold.
  - intros d Hd. destruct (Hp d Hd) as (d' & Hd' & Hsame).
    exists d'. split; [|done]. by apply lookup_app_l_Some.
  - intros xs Hxs. destruct (Hlp xs Hxs) as (ys & Hys).
    exists ys. by apply lookup_app_l_Some.
Qed.

Lemma keeps_store h l o :
  keeps p K lp W h0 h → length h0 ≤ l ∨ W l → keeps p K lp W h0 (<[l := o]> h).
Proof.
  intros (Hlen & Hold & Hp & Hlp) Hl. split; [by rewrite length_insert|]. split; [|split].
  - intros l' Hl' Hne1 Hne2 HW. rewrite list_lookup_insert_ne; [by apply Hold|].
    intros ->. destruct Hl; [lia|done].
  - intros d Hd. apply lookup_lt_Some in Hd as Hlt.
    rewrite list_lookup_insert_ne; [by apply Hp|].
    intros ->. destruct Hl as [?|[? ?]%W_apart]; [lia|done].
  - intros xs Hxs. apply lookup_lt_Some in Hxs as Hlt.
    rewrite list_lookup_insert_ne; [by apply Hlp|].
    intros ->. destruct Hl as [?|[? ?]%W_apart]; [lia|done].
Qed.

Lemma keeps_setitem h d k x :
  keeps p K lp W h0 h → h !! p = Some (ODict d) → k ∈ K →
  keeps p K lp W h0 (<[p := ODict (<[k := x]> d)]> h).
Proof.
  intros (Hlen & Hold & Hp & Hlp) Hd Hk. split; [by rewrite length_insert|]. split; [|split].
  - intros l' Hl' Hne1 Hne2 HW. rewrite list_lookup_insert_ne by done. by apply Hold.
  - intros d0 Hd0. destruct (Hp d0 Hd0) as (d' & Hd' & Hsame).
    rewrite Hd in Hd'. injection Hd' as <-.
    exists (<[k := x]> d). split.
    + apply list_lookup_insert_eq. by eapply lookup_lt_Some.
    + intros k' Hk'. rewrite lookup_insert_ne by (intros ->; done). by apply Hsame.
  - intros xs Hxs. destruct (Hlp xs Hxs) as (ys & Hys).
    exists ys. rewrite list_lookup_insert_ne; [done|]. intros ->. congruence.
Qed.

Lemma keeps_append h xs x :
  keeps p K lp W h0 h → h !! lp = Some (OList xs) →
  keeps p K lp W h0 (<[lp := OList (xs ++ [x])]> h).
Proof.
  intros (Hlen & Hold & Hp & Hlp) Hxs. split; [by rewrite length_insert|]. split; [|split].
  - intros l' Hl' Hne1 Hne2 HW. rewrite list_lookup_insert_ne by done. by apply Hold.
  - intros d Hd. destruct (Hp d Hd) as (d' & Hd' & Hsame).
    exists d'. split; [|done]. rewrite list_lookup_insert_ne; [done|]. intros ->. congruence.
  - intros xs0 Hxs0. destruct (Hlp xs0 Hxs0) as (ys & Hys).
    rewrite Hxs in Hys. injection Hys as ->.
    exists (ys ++ [x]). rewrite app_assoc.
    apply list_lookup_insert_eq. by eapply lookup_lt_Some.
Qed.

Lemma kept_raise {A} (P : A → list obj → Prop) e h :
  keeps p K lp W h0 h → kept p K lp W h0 P (Raise e) h.
Proof. intros Hk. split; [done|]. by intros a [=]. Qed.

Lemma kept_ok {A} (P : A → list obj → Prop) a h :
  keeps p K lp W h0 h → P a h → kept p K lp W h0 P (Ok a) h.
Proof. intros Hk HP. split; [done|]. by intros ? [= <-]. Qed.

End Keeps.

(** ** What [create] leaves in the store *)

Ltac keeps_side :=
  lazymatch goal with
  | |- keeps _ _ _ _ _ _ => idtac
  | |- ∀ _, _ → _ ≠ _ ∧ _ ≠ _ => assumption
  | |- _ !! _ = Some _ => eassumption
  | |- _ ∈ _ => by vm_compute
  | |- _ ∨ _ =>
      first [ left; rewrite ?length_app, ?length_insert; simpl; lia | assumption ]
  end.

Ltac keeps_solve :=
  repeat match goal with
         | H : keeps _ _ _ _ ?h0 ?h |- _ =>
             lazymatch goal with
             | _ : length h0 ≤ length h |- _ => fail
             | _ => pose proof (keeps_length _ _ _ _ _ _ H)
             end
         | H : writable _ _ _ |- _ => destruct H as (? & ? & ?)
         end;
  simplify_eq;
  repeat first
    [ assumption
    | apply keeps_alloc; keeps_side
    | eapply keeps_append; keeps_side
    | eapply keeps_setitem; keeps_side
    | apply keeps_store; keeps_side ].

Ltac post_error :=
  try solve [intros; discriminate];
  intros; simpl in *;
  repeat match goal with
         | H : keeps _ _ _ _ _ _ ∧ _ |- _ => destruct H as [? _]
         | H : kept _ _ _ _ _ _ _ _ |- _ => destruct H as [? _]
         end;
  first [ apply kept_raise; keeps_solve
        | split; [keeps_solve | discriminate]
        | keeps_solve ].

Ltac post_step :=
  lazymatch goal with
  | |- post (new_list _ ≫= _) _ _ => apply post_bind_new_list
  | |- post (new_dict _ ≫= _) _ _ => apply post_bind_new_dict
  | |- post (alloc _ ≫= _) _ _ => apply post_bind_alloc
  | |- post (dict_setitem _ _ _ ≫= _) _ _ =>
      apply post_bind_dict_setitem; [post_error | intros ? ? ? ?]
  | |- post (dict_pop _ _ ≫= _) _ _ =>
      apply post_bind_dict_pop; [post_error | intros ? ? ? ? ? ?]
  | |- post (dict_copy _ ≫= _) _ _ =>
      apply post_bind_dict_copy; [post_error | intros ? ? ? ?]
  | |- post (list_append _ _ ≫= _) _ _ =>
      apply post_bind_list_append; [post_error | intros ? ? ? ?]
  | |- post (list_add _ _ ≫= _) _ _ =>
      apply post_bind_list_add; [post_error | intros ?]
  | |- post (_ ≫= _) _ _ =>
      apply post_bind_read; [eauto with reads | post_error | intros ?]
  end.

Section Frame.

Context (model_fields : gset string) (TOOL_ENABLED : bool) (self : AnthropicClient).
Context (p lp : nat) (W : nat → Prop) (h0 : list obj).
Hypothesis W_apart : ∀ l, W l → l ≠ p ∧ l ≠ lp.

Local Abbreviation K := rebound_keys.

Lemma writable_length h :
  keeps p K lp W h0 h → writable W h0 (VRef (length h)).
Proof.
  intros Hk. exists (length h). split; [done|]. left. by apply keeps_length in Hk.
Qed.

Lemma convert_tools_keeps tools h :
  keeps p K lp W h0 h →
  post (convert_tools_to_functions tools) h (kept p K lp W h0 (λ v _, writable W h0 v)).
Proof.
  intros Hk. unfold convert_tools_to_functions. do 2 post_step.
  eapply post_seq.
  - apply post_for_each with (I := keeps p K lp W h0); [keeps_solve|].
    intros tool h1 Hk1. post_step.
    destruct (val_eq_str _ _); [|done]. post_step.
    match goal with |- context [if ?b then _ else _] => destruct b; [|done] end.
    post_step. apply post_tail. post_step. apply post_ret. keeps_solve.
  - post_error.
  - intros u h1 Hk1. apply post_ret. apply kept_ok; [done|].
    by apply writable_length.
Qed.

Lemma create_functions_keeps h :
  keeps p K lp W h0 h →
  post (create_functions (VRef p)) h (λ _ h', keeps p K lp W h0 h').
Proof.
  intros Hk. unfold create_functions. post_step.
  match goal with |- context [if ?b then _ else _] => destruct b; [|done] end.
  post_step. eapply post_seq; [by apply convert_tools_keeps | post_error |].
  intros v h1 [Hk1 _]. do 3 post_step. apply post_tail. post_step.
  apply post_ret. keeps_solve.
Qed.

Lemma pop_invalid_message_keys_keeps raw h :
  keeps p K lp W h0 h →
  post (pop_invalid_message_keys model_fields raw) h
    (kept p K lp W h0 (λ r h', ∃ lv valid, r.1 = VRef lv ∧ h' !! lv = Some (OList valid) ∧
                                     Forall (writable W h0) valid)).
Proof.
  intros Hk. unfold pop_invalid_message_keys. post_step.
  eapply post_seq.
  - apply post_list_comprehension with (I := keeps p K lp W h0) (P := writable W h0); [done|].
    intros message h1 Hk1. post_step. apply post_new_dict.
    split; [keeps_solve|]. intros y [= <-]. by apply writable_length.
  - post_error.
  - intros valid h1 [Hk1 Hvalid]. do 4 post_step. apply post_ret.
    apply kept_ok; [keeps_solve|]. simpl.
    exists (length h1), valid. split; [done|]. split; [heap_lookup|by apply Hvalid].
Qed.

Lemma return_function_call_result_keeps result h :
  keeps p K lp W h0 h →
  post (return_function_call_result self result) h (λ _ h', keeps p K lp W h0 h').
Proof.
  intros Hk. unfold return_function_call_result. do 4 post_step.
  apply post_new_dict. keeps_solve.
Qed.

Lemma restore_last_tooluse_status_keeps h :
  keeps p K lp W h0 h →
  post (restore_last_tooluse_status self) h (λ _ h', keeps p K lp W h0 h').
Proof.
  intros Hk. unfold restore_last_tooluse_status. do 2 post_step.
  eapply post_seq with (I := λ _ h', keeps p K lp W h0 h').
  - match goal with |- context [if ?b then _ else _] => destruct b end.
    + do 2 post_step. apply post_tail. post_step. apply post_ret. keeps_solve.
    + apply post_ret. keeps_solve.
  - post_error.
  - intros u h1 Hk1. do 2 post_step. apply post_new_dict. keeps_solve.
Qed.

Lemma create_loop_body_keeps raw lp' i message h :
  keeps p K lp W h0 h →
  length h0 ≤ lp' ∨ lp' = lp →
  writable W h0 message →
  post (create_loop_body self (VRef p) raw (VRef lp') i message) h
    (λ _ h', keeps p K lp W h0 h').
Proof.
  intros Hk Hlp Hm. unfold create_loop_body. do 2 post_step.
  assert (∀ h1 xs x, keeps p K lp W h0 h1 → h1 !! lp' = Some (OList xs) →
                     keeps p K lp W h0 (<[lp' := OList (xs ++ [x])]> h1)) as Happend.
  { intros h1 xs x Hk1 Hxs. destruct Hlp as [Hlp| ->].
    - apply keeps_store; auto.
    - by apply keeps_append. }
  clear Hlp.
  destruct (val_eq_str _ "system").
  { post_step. apply post_tail. post_step. apply post_ret. keeps_solve. }
  post_step. destruct (val_eq_str _ "function").
  { post_step.
    eapply post_seq; [by apply return_function_call_result_keeps | post_error |].
    intros turn h1 Hk1. apply post_tail. post_step. apply post_ret.
    simplify_eq. by apply Happend. }
  post_step. match goal with |- context [if ?b then _ else _] => destruct b end.
  { eapply post_seq; [by apply restore_last_tooluse_status_keeps | post_error |].
    intros turn h1 Hk1. apply post_tail. post_step. apply post_ret.
    simplify_eq. by apply Happend. }
  post_step. destruct (val_eq_str _ "").
  - post_step. apply post_tail. post_step. apply post_ret.
    simplify_eq. apply Happend; [keeps_solve|done].
  - apply post_tail. post_step. apply post_ret. simplify_eq. by apply Happend.
Qed.

Lemma create_messages_keeps h :
  keeps p K lp W h0 h →
  post (create_messages model_fields self (VRef p)) h (λ _ h', keeps p K lp W h0 h').
Proof.
  intros Hk. unfold create_messages. do 2 post_step.
  eapply post_seq; [apply pop_invalid_message_keys_keeps; keeps_solve
                   | post_error |].
  intros [valid_messages invalid] h1 [Hk1 Hvalid].
  destruct (Hvalid _ eq_refl) as (lv & valid & Hlv & Hlist & Hfresh). simpl in Hlv. subst.
  apply post_bind_as_list; [post_error|]. intros l xs [= <-] Hxs.
  rewrite Hlist in Hxs. injection Hxs as <-.
  eapply post_seq with (I := λ _ h', keeps p K lp W h0 h').
  - apply post_for_enumerate with (I := keeps p K lp W h0) (P := writable W h0); [done..|].
    intros i x h2 Hx Hk2. apply create_loop_body_keeps; [done| |done].
    left. by apply keeps_length in Hk.
  - post_error.
  - intros u h2 Hk2. apply post_tail. post_step. apply post_ret. keeps_solve.
Qed.

Lemma openai_func_to_anthropic_keeps openai_func h :
  keeps p K lp W h0 h →
  post (openai_func_to_anthropic openai_func) h
    (λ r h', keeps p K lp W h0 h' ∧ ∀ y : val, r = Ok y → True).
Proof.
  intros Hk. unfold openai_func_to_anthropic. do 3 post_step.
  apply post_ret. split; [keeps_solve|done].
Qed.

Lemma create_outbound_keeps h :
  keeps p K lp W h0 h →
  post (create_outbound TOOL_ENABLED (VRef p)) h (λ _ h', keeps p K lp W h0 h').
Proof.
  intros Hk. unfold create_outbound.
  eapply post_seq with (I := λ _ h', h' = h).
  - destruct TOOL_ENABLED; [|done]. apply reads_dict_contains.
  - intros e h' ->. done.
  - intros has_functions h' ->. do 6 post_step.
    eapply post_seq with (I := λ _ h', keeps p K lp W h0 h').
    + match goal with |- context [if ?b then _ else _] => destruct b end.
      * do 2 post_step.
        eapply post_seq.
        { apply post_list_comprehension with (I := keeps p K lp W h0) (P := λ _, True);
            [keeps_solve|].
          intros. by apply openai_func_to_anthropic_keeps. }
        { post_error. }
        intros configs h2 [Hk2 _]. post_step. apply post_tail. post_step.
        apply post_ret. keeps_solve.
      * apply post_ret. keeps_solve.
    + post_error.
    + intros u h2 Hk2. by apply post_ret.
Qed.

Lemma create_request_keeps h :
  keeps p K lp W h0 h →
  post (create_request model_fields TOOL_ENABLED self (VRef p)) h (λ _ h', keeps p K lp W h0 h').
Proof.
  intros Hk. unfold create_request.
  eapply post_seq; [by apply create_functions_keeps | by simpl |].
  intros u h1 Hk1.
  eapply post_seq; [by apply create_messages_keeps | by simpl |].
  intros u' h2 Hk2. by apply create_outbound_keeps.
Qed.

End Frame.

(** C3, as the code has it: [create] changes no object that existed before
    the call other than the request mapping itself (so no message mapping
    of the caller and not the tool-use cache), and in the request mapping it
    binds at most the keys "functions", "system" and "messages"; every other
    key keeps its value. This holds whether [create] returns or raises. *)
Theorem create_request_frame (model_fields : gset string) (TOOL_ENABLED : bool)
    (self : AnthropicClient) (p : nat) (h : list obj) :
  let h' := (create_request model_fields TOOL_ENABLED self (VRef p) h).2 in
  (∀ l, l < length h → l ≠ p → h' !! l = h !! l) ∧
  (∀ d, h !! p = Some (ODict d) →
        ∃ d', h' !! p = Some (ODict d') ∧
              ∀ k, k ∉ rebound_keys → d' !! k = d !! k).
Proof.
  assert (∀ l : nat, False → l ≠ p ∧ l ≠ length h) as Hno by done.
  pose proof (create_request_keeps model_fields TOOL_ENABLED self p (length h) (λ _, False)
                h Hno h (keeps_refl p rebound_keys _ _ h)) as (_ & Hold & Hp & _).
  simpl. split; [|done].
  intros l Hl Hne. apply Hold; [done..|lia|tauto].
Qed.

(** The claim C3 as stated fails: on the sample request (a system turn,
    a function turn and an empty turn) [create] returns and has rebound
    "messages" and added "system" in the caller's request mapping. *)
Lemma create_rebinds_request_keys :
  let run := create_request message_fields true sample_client (VRef 6) sample_store in
  run.1 = Ok (PlainMessages, VRef 16) ∧
  sample_store !! 6 =
    Some (ODict (<["messages" := VRef 5]> (<["model" := VStr "claude-3-opus-20240229"]>
                (<["model_client_cls" := VStr "AnthropicClient"]> ∅)))) ∧
  run.2 !! 6 =
    Some (ODict (<["messages" := VRef 7]> (<["system" := VStr "be brief"]>
                (<["model" := VStr "claude-3-opus-20240229"]>
                (<["model_client_cls" := VStr "AnthropicClient"]> ∅))))) ∧
  run.2 !! 6 ≠ sample_store !! 6.
Proof. simpl. repeat split; [by vm_compute..|]. by vm_compute. Qed.

(** ** The mandatory key "model_client_cls" *)

Lemma create_outbound_missing_key (TOOL_ENABLED : bool) (p : nat) (h : list obj)
    (d : gmap string val) :
  h !! p = Some (ODict d) →
  d !! "model_client_cls" = None →
  ∃ h', create_outbound TOOL_ENABLED (VRef p) h = (Raise (KeyError "model_client_cls"), h').
Proof.
  intros Hp Hd. unfold create_outbound.
  assert (∀ B (k : bool → M B),
            ((if TOOL_ENABLED then dict_contains (VRef p) "functions" else mret false) ≫= k) h
            = k (if TOOL_ENABLED then bool_decide (is_Some (d !! "functions")) else false) h)
    as ->.
  { intros B k. destruct TOOL_ENABLED; [by mstep | reflexivity]. }
  do 2 mstep. rewrite run_bind.
  erewrite run_dict_pop_missing; [|heap_lookup|by rewrite lookup_insert_ne].
  cbv beta iota. eauto.
Qed.

Section Removal.

Context (k : string) (lk : nat).

Lemma lacks_key_alloc h o : lacks_key k lk h → lacks_key k lk (h ++ [o]).
Proof. intros (d & Hd & Hk). exists d. split; [by apply lookup_app_l_Some|done]. Qed.

Lemma lacks_key_store h l o : lacks_key k lk h → l ≠ lk → lacks_key k lk (<[l := o]> h).
Proof. intros (d & Hd & Hk) Hne. exists d. by rewrite list_lookup_insert_ne. Qed.

Lemma lacks_key_setitem h d k' x :
  lacks_key k lk h → h !! lk = Some (ODict d) → k' ≠ k →
  lacks_key k lk (<[lk := ODict (<[k' := x]> d)]> h).
Proof.
  intros (d' & Hd' & Hk) Hd Hne. rewrite Hd in Hd'. injection Hd' as <-.
  eexists. split; [by apply list_lookup_insert_eq; eapply lookup_lt_Some|].
  by rewrite lookup_insert_ne.
Qed.

Lemma lacks_key_pop h d k' :
  lacks_key k lk h → h !! lk = Some (ODict d) →
  lacks_key k lk (<[lk := ODict (delete k' d)]> h).
Proof.
  intros (d' & Hd' & Hk) Hd. rewrite Hd in Hd'. injection Hd' as <-.
  eexists. split; [by apply list_lookup_insert_eq; eapply lookup_lt_Some|].
  rewrite lookup_delete. by case_decide.
Qed.

End Removal.

(** Whenever the last stage of [create] returns, the keyword arguments of
    the outbound call are a dict without "model_client_cls". *)
Lemma create_outbound_removes (TOOL_ENABLED : bool) (params : val) (h : list obj) :
  post (create_outbound TOOL_ENABLED params) h
    (λ r h', ∀ c kw, r = Ok (c, kw) →
             ∃ lk, kw = VRef lk ∧ lacks_key "model_client_cls" lk h').
Proof.
  unfold create_outbound.
  eapply post_seq with (I := λ _ _, True); [done | post_error |].
  intros has_functions h1 _.
  apply post_bind_dict_copy; [post_error|]. intros l d -> Hl.
  apply post_bind_dict_setitem; [post_error|]. intros l1 d1 [= <-] Hl1.
  apply post_bind_dict_pop; [post_error|]. intros l2 d2 x [= <-] Hl2 Hx.
  set (lk := length h1).
  assert (∀ h2 : list obj, lacks_key "model_client_cls" lk h2 → lk < length h2) as Hlt.
  { intros h2 (? & ? & _). by eapply lookup_lt_Some. }
  match goal with |- post _ ?h2 _ => assert (lacks_key "model_client_cls" lk h2) as Hlk end.
  { eexists. split; [by apply list_lookup_insert_eq; eapply lookup_lt_Some|].
    apply lookup_delete_eq. }
  apply post_bind_read; [eauto with reads | post_error | intros max_tokens].
  apply post_bind_dict_setitem; [post_error|]. intros l3 d3 [= <-] Hl3.
  eapply (lacks_key_setitem _ _ _ _ "max_tokens" max_tokens) in Hlk; [|done..].
  apply post_bind_read; [eauto with reads | post_error | intros has].
  eapply post_seq with (I := λ _ h2, lacks_key "model_client_cls" lk h2).
  - destruct has; [|by apply post_ret].
    apply post_bind_dict_pop; [post_error|]. intros l4 d4 y [= <-] Hl4 Hy.
    eapply (lacks_key_pop _ _ _ _ "functions") in Hlk; [|done].
    apply post_bind_read; [eauto with reads | post_error | intros configs].
    eapply post_seq.
    + apply post_list_comprehension
        with (I := lacks_key "model_client_cls" lk) (P := λ _, True); [done|].
      intros f h2 Hh2. unfold openai_func_to_anthropic.
      apply post_bind_dict_copy; [by split|]. intros l5 d5 -> Hl5.
      pose proof (Hlt _ Hh2) as Hlt2.
      apply post_bind_dict_pop; [intros; split; [by apply lacks_key_alloc|done]|].
      intros l6 d6 z [= <-] Hl6 Hz.
      apply post_bind_dict_setitem; [intros; split; [|done]|].
      { apply lacks_key_store; [by apply lacks_key_alloc|lia]. }
      intros l7 d7 [= <-] Hl7. apply post_ret. split; [|done].
      apply lacks_key_store; [|lia].
      apply lacks_key_store; [by apply lacks_key_alloc|lia].
    + by intros e h2 [? _].
    + intros configs' h2 [Hh2 _].
      apply post_bind_new_list. apply post_tail.
      apply post_bind_dict_setitem; [intros; by apply lacks_key_alloc|].
      intros l8 d8 [= <-] Hl8. apply post_ret.
      eapply lacks_key_setitem; [by apply lacks_key_alloc|done..].
  - post_error.
  - intros [] h2 Hh2. apply post_ret. intros c kw [= <- <-]. by exists lk.
Qed.

(** C10: [create] removes "model_client_cls" from its copy of the request
    before the outbound call: whenever the request is built, the keyword
    arguments of the call do not have the key. The removal is unconditional,
    so a call whose request mapping lacks the key never returns and never
    reaches the transport: it raises. Whenever the translation of the
    declarations and of the messages (lines 81-105) completes, the exception
    is [KeyError "model_client_cls"]; when the translation itself raises,
    [create] stops there, with that exception and the store as the
    translation left it. *)
Theorem create_needs_model_client_cls (model_fields : gset string) (TOOL_ENABLED : bool)
    (completions_create : completions → val → M Response)
    (self : AnthropicClient) (p : nat) (h : list obj) :
  (∀ c kw h',
     create_request model_fields TOOL_ENABLED self (VRef p) h = (Ok (c, kw), h') →
     ∃ lk, kw = VRef lk ∧ lacks_key "model_client_cls" lk h') ∧
  (∀ d,
     h !! p = Some (ODict d) →
     d !! "model_client_cls" = None →
     ∃ e h',
       create model_fields TOOL_ENABLED completions_create self (VRef p) h = (Raise e, h') ∧
       (∀ h2, (create_functions (VRef p) ≫= λ _, create_messages model_fields self (VRef p)) h
              = (Ok tt, h2) →
              e = KeyError "model_client_cls") ∧
       (∀ e1 h1, (create_functions (VRef p) ≫= λ _, create_messages model_fields self (VRef p)) h
                 = (Raise e1, h1) →
                 e = e1 ∧ h' = h1)).
Proof.
  split.
  { intros c kw h' Hrun.
    assert (post (create_request model_fields TOOL_ENABLED self (VRef p)) h
              (λ r h', ∀ c kw, r = Ok (c, kw) →
                       ∃ lk, kw = VRef lk ∧ lacks_key "model_client_cls" lk h')) as Hpost.
    { unfold create_request.
      eapply post_seq with (I := λ _ _, True); [done | post_error |]. intros [] h1 _.
      eapply post_seq with (I := λ _ _, True); [done | post_error |]. intros [] h2 _.
      apply create_outbound_removes. }
    unfold post in Hpost. rewrite Hrun in Hpost. by apply (Hpost c). }
  intros d Hp Hd. unfold create, create_request. rewrite !run_bind.
  assert (∀ l : nat, False → l ≠ p ∧ l ≠ length h) as Hno by done.
  pose proof (create_functions_keeps p (length h) (λ _, False) h Hno h
                (keeps_refl p rebound_keys _ _ h)) as Hk1.
  unfold post in Hk1.
  destruct (create_functions (VRef p) h) as [[[]|e1] h1].
  2:{ exists e1, h1. split; [done|]. split; [intros h2 [=]|]. by intros e h2 [= <- <-]. }
  simpl in Hk1. rewrite run_bind.
  pose proof (create_messages_keeps model_fields self p (length h) (λ _, False) h Hno
                h1 Hk1) as Hk2.
  unfold post in Hk2.
  destruct (create_messages model_fields self (VRef p) h1) as [[[]|e2] h2].
  2:{ exists e2, h2. split; [done|]. split; [intros h3 [=]|]. by intros e h3 [= <- <-]. }
  simpl in Hk2. destruct Hk2 as (_ & _ & Hsame & _).
  destruct (Hsame _ Hp) as (d' & Hp' & Hd').
  assert (d' !! "model_client_cls" = None) as Hmiss.
  { rewrite Hd' by (by vm_compute). done. }
  destruct (create_outbound_missing_key TOOL_ENABLED p h2 d' Hp' Hmiss) as [h' ->].
  eexists _, _. split; [done|]. split; [done|]. intros e h3 [=].
Qed.

Lemma create_needs_model_client_cls_sample :
  (∃ lk, VRef 16 = VRef lk ∧
         lacks_key "model_client_cls" lk
           (create_request message_fields true sample_client (VRef 6) sample_store).2) ∧
  (∃ e h',
     create message_fields true (λ _ _, raise TypeError) sample_client (VRef 6)
       (<[6 := ODict (<["messages" := VRef 5]> ∅)]> sample_store) = (Raise e, h') ∧
     (∀ h2, (create_functions (VRef 6) ≫=
               λ _, create_messages message_fields sample_client (VRef 6))
              (<[6 := ODict (<["messages" := VRef 5]> ∅)]> sample_store) = (Ok tt, h2) →
            e = KeyError "model_client_cls") ∧
     (∀ e1 h1, (create_functions (VRef 6) ≫=
                  λ _, create_messages message_fields sample_client (VRef 6))
                 (<[6 := ODict (<["messages" := VRef 5]> ∅)]> sample_store) = (Raise e1, h1) →
               e = e1 ∧ h' = h1)).
Proof.
  split.
  - apply (proj1 (create_needs_model_client_cls message_fields true (λ _ _, raise TypeError)
                    sample_client 6 sample_store) PlainMessages).
    by vm_compute.
  - apply (proj2 (create_needs_model_client_cls message_fields true (λ _ _, raise TypeError)
                    sample_client 6 (<[6 := ODict (<["messages" := VRef 5]> ∅)]> sample_store))
             (<["messages" := VRef 5]> ∅)); reflexivity.
Defined.

(** On the sample request the exception is the missing key, and with the
    key the request is built, for the plain endpoint. *)
Example create_sample_runs :
  (create message_fields true (λ _ _, raise TypeError) sample_client (VRef 6)
     (<[6 := ODict (<["messages" := VRef 5]> ∅)]> sample_store)).1
  = Raise (KeyError "model_client_cls") ∧
  (create_request message_fields true sample_client (VRef 6) sample_store).1
  = Ok (PlainMessages, VRef 16).
Proof. split; by vm_compute. Qed.

(** The claim C10 as stated fails: a request without "model_client_cls"
    does not always end in the missing-key error for that key. The request
    [{"messages": []}] lacks the key and [create] raises [IndexError], from
    [messages[-1]] in [pop_invalid_message_keys] (line 33), before line 115
    is reached. *)
Lemma create_empty_conversation_index_error :
  let h := [ODict ∅; OList []; ODict (<["messages" := VRef 1]> ∅)] in
  let run := create message_fields true (λ _ _, raise TypeError) sample_client (VRef 2) h in
  h !! 2 = Some (ODict (<["messages" := VRef 1]> ∅)) ∧
  (<["messages" := VRef 1]> ∅ : gmap string val) !! "model_client_cls" = None ∧
  h !! 1 = Some (OList []) ∧
  run.1 = Raise IndexError ∧
  run.1 ≠ Raise (KeyError "model_client_cls").
Proof. simpl. repeat split; [by vm_compute..|]. by vm_compute. Qed.

(** ** The translation of a whole conversation *)

Lemma extends_refl h : extends h h.
Proof. by intros l o. Qed.

Lemma extends_trans h1 h2 h3 : extends h1 h2 → extends h2 h3 → extends h1 h3.
Proof. intros H12 H23 l o Hl. by apply H23, H12. Qed.

Lemma extends_alloc h o : extends h (h ++ [o]).
Proof. intros l o' Hl. by apply lookup_app_l_Some. Qed.

Lemma turn_dict_Some h v d :
  turn_dict h v = Some d ↔ ∃ l, v = VRef l ∧ h !! l = Some (ODict d).
Proof.
  split.
  - destruct v as [| | | | |l]; simpl; try done.
    destruct (h !! l) as [[d'|]|] eqn:E; try done. intros [= <-]. eauto.
  - intros (l & -> & Hl). simpl. by rewrite Hl.
Qed.

Lemma turn_dict_extends h h' v d :
  extends h h' → turn_dict h v = Some d → turn_dict h' v = Some d.
Proof.
  intros Hext (l & -> & Hl)%turn_dict_Some. apply turn_dict_Some. eauto.
Qed.

Section Conversation.

Context (model_fields : gset string) (self : AnthropicClient).

Local Abbreviation keep_fields := (filter (λ kv : string * val, kv.1 ∈ model_fields)).

(** The comprehension of [pop_invalid_message_keys]: one new dict per turn,
    holding the recognised fields of the turn. *)
Lemma run_filter_comprehension xs :
  ∀ ds h,
    Forall2 (λ x d, turn_dict h x = Some d) xs ds →
    ∃ h' valid,
      list_comprehension xs
        (λ message, d ← as_dict (AttributeError "items") message;
                    new_dict (keep_fields d)) h = (Ok valid, h') ∧
      extends h h' ∧
      NoDup valid ∧
      Forall2 (λ v d, ∃ l, v = VRef l ∧ length h ≤ l ∧
                           h' !! l = Some (ODict (keep_fields d))) valid ds.
Proof.
  induction xs as [|x xs IH]; intros ds h Hxs.
  - apply Forall2_nil_inv_l in Hxs as ->. exists h, []. simpl.
    split; [done|]. split; [apply extends_refl|]. split; constructor.
  - apply Forall2_cons_inv_l in Hxs as (d & ds' & Hx & Hxs & ->).
    apply turn_dict_Some in Hx as (m & -> & Hm). simpl.
    do 2 mstep.
    destruct (IH ds' (h ++ [ODict (keep_fields d)]))
      as (h' & valid & E & Hext & Hnodup & Hvalid).
    { eapply Forall2_impl; [done|]. intros v d' Hv.
      by eapply turn_dict_extends; [apply extends_alloc|]. }
    rewrite run_bind, E. cbv beta iota.
    exists h', (VRef (length h) :: valid). split; [done|].
    split; [by eapply extends_trans; [apply extends_alloc|]|].
    split.
    + constructor; [|done]. intros Hin.
      apply list_elem_of_lookup in Hin as [j Hj].
      destruct (Forall2_lookup_l _ _ _ _ _ Hvalid Hj) as (d' & _ & l & [= <-] & Hl & _).
      rewrite length_app in Hl. simpl in Hl. lia.
    + constructor.
      * exists (length h). split; [done|]. split; [done|].
        apply Hext. by rewrite list_lookup_middle.
      * eapply Forall2_impl; [done|]. intros v d' (l & -> & Hl & Hd').
        exists l. rewrite length_app in Hl. simpl in Hl. split; [done|]. split; [lia|done].
Qed.

Lemma run_pop_invalid_message_keys lr xs ds h :
  h !! lr = Some (OList xs) →
  Forall2 (λ x d, turn_dict h x = Some d) xs ds →
  xs ≠ [] →
  ∃ h' lv valid invalid,
    pop_invalid_message_keys model_fields (VRef lr) h = (Ok (VRef lv, invalid), h') ∧
    extends h h' ∧
    length h ≤ lv ∧
    h' !! lv = Some (OList valid) ∧
    NoDup valid ∧
    Forall2 (λ v d, ∃ l, v = VRef l ∧ length h ≤ l ∧
                         h' !! l = Some (ODict (keep_fields d))) valid ds.
Proof.
  intros Hlr Hxs Hne. unfold pop_invalid_message_keys. mstep.
  destruct (run_filter_comprehension xs ds h Hxs)
    as (h1 & valid & E & Hext & Hnodup & Hvalid).
  rewrite run_bind, E. cbv beta iota. mstep.
  destruct (last xs) as [x|] eqn:Hlast; [|by apply last_None in Hlast].
  assert (∃ d, turn_dict h x = Some d) as (d & (m & -> & Hm)%turn_dict_Some).
  { apply last_Some in Hlast as (xs' & ->).
    apply Forall2_app_inv_l in Hxs as (? & ? & _ & (d & ? & Hd & _ & ->)%Forall2_cons_inv_l & _).
    eauto. }
  pose proof (Hext _ _ Hlr) as Hlr1. pose proof (Hext _ _ Hm) as Hm1.
  erewrite run_bind, run_list_last; [|heap_lookup|done]. cbv beta iota.
  do 3 mstep.
  eexists _, (length h1), valid, _. split; [reflexivity|].
  assert (length h ≤ length h1) as Hlen.
  { apply lookup_lt_Some in Hlr1, Hlr. destruct (decide (length h ≤ length h1)); [done|].
    destruct (lookup_lt_is_Some_2 h (length h1)) as [o Ho]; [lia|].
    apply Hext in Ho. apply lookup_lt_Some in Ho. lia. }
  split.
  { eapply extends_trans; [done|].
    eapply extends_trans; apply extends_alloc. }
  split; [done|]. split; [heap_lookup|]. split; [done|].
  eapply Forall2_impl; [done|]. intros v d' (l & -> & Hl & Hd').
  exists l. split; [done|]. split; [done|]. heap_lookup.
Qed.

End Conversation.

Lemma Forall2_Forall_r_impl {A B} (R R' : A → B → Prop) (P : B → Prop) xs ys :
  Forall2 R xs ys → Forall P ys →
  (∀ x y, R x y → P y → R' x y) →
  Forall2 R' xs ys.
Proof.
  intros HR HP Himpl. induction HR as [|x y xs ys Hxy HR IH]; [constructor|].
  apply Forall_cons in HP as [Hy HP]. constructor; auto.
Qed.

Section PlainConversation.

Context (model_fields : gset string) (self : AnthropicClient).

Local Abbreviation keep_fields := (filter (λ kv : string * val, kv.1 ∈ model_fields)).

Lemma target_shaped_keep d :
  target_shaped model_fields d → keep_fields d = d.
Proof.
  intros [Hdom _]. apply map_filter_id. intros k x Hk. simpl.
  apply Hdom. by apply elem_of_dom_2 in Hk.
Qed.

Lemma drop_cons_lookup {A} (xs : list A) i x rest :
  drop i xs = x :: rest → xs !! i = Some x ∧ rest = drop (S i) xs.
Proof.
  intros E. split.
  - rewrite <-(Nat.add_0_r i), <-lookup_drop, E. done.
  - replace (S i) with (i + 1) by lia. by rewrite <-drop_drop, E.
Qed.

(** The loop of [create] over target-shaped turns appends the filtered
    copies, in order, and changes nothing else. *)
Lemma run_plain_loop params lr lp xs valid :
  ∀ i ps h,
    lr ≠ lp →
    h !! lr = Some (OList xs) →
    h !! lp = Some (OList ps) →
    Forall2 (λ old v, ∃ d l, turn_dict h old = Some d ∧ v = VRef l ∧
                             h !! l = Some (ODict d) ∧ target_shaped model_fields d)
            (drop i xs) valid →
    for_enumerate i valid (create_loop_body self params (VRef lr) (VRef lp)) h =
      (Ok tt, <[lp := OList (ps ++ valid)]> h).
Proof.
  induction valid as [|v valid IH]; intros i ps h Hne Hlr Hlp Hall; simpl.
  - rewrite app_nil_r, list_insert_id by done. done.
  - apply Forall2_cons_inv_r in Hall as (old & rest & Hv & Hall & Hdrop).
    destruct Hv as (d & l & (m & -> & Hm)%turn_dict_Some & -> & Hl & Hshape).
    apply drop_cons_lookup in Hdrop as [Hi ->].
    destruct Hshape as (Hdom & Hmark & r & c & Hrole & Hsys & Hfun & Hcontent & Hempty).
    rewrite run_bind.
    rewrite (create_loop_body_plain self params lr lp l m i h xs ps d d r c) by done.
    rewrite Hempty. cbv beta iota.
    assert (lp ≠ l) as Hlpl by (intros ->; congruence).
    assert (lp ≠ m) as Hlpm by (intros ->; congruence).
    rewrite (IH (S i) (ps ++ [VRef l])); [| done | heap_lookup | heap_lookup |].
    + by rewrite list_insert_insert_eq, <-app_assoc.
    + eapply Forall2_impl; [done|].
      intros old v (d' & l' & (m' & -> & Hm')%turn_dict_Some & -> & Hl' & Hshape').
      exists d', l'. split.
      * apply turn_dict_Some. exists m'. split; [done|].
        rewrite list_lookup_insert_ne; [done|]. intros ->; congruence.
      * split; [done|]. split; [|done].
        rewrite list_lookup_insert_ne; [done|]. intros ->; congruence.
Qed.

Lemma request_messages_Some h p ds :
  request_messages h p = Some ds ↔
  ∃ dp lr xs, h !! p = Some (ODict dp) ∧ dp !! "messages" = Some (VRef lr) ∧
              h !! lr = Some (OList xs) ∧
              Forall2 (λ x d, turn_dict h x = Some d) xs ds.
Proof.
  unfold request_messages, turns. split.
  - destruct (h !! p) as [[dp|]|]; try done.
    destruct (dp !! "messages") as [[| | | | |lr]|] eqn:Hmsg; simpl; try done.
    destruct (h !! lr) as [[|xs]|] eqn:Hlr; try done.
    intros Hm. apply mapM_Some_1 in Hm. by exists dp, lr, xs.
  - intros (dp & lr & xs & -> & Hmsg & Hlr & Hall). rewrite Hmsg. simpl. rewrite Hlr.
    by apply mapM_Some_2.
Qed.

(** Translating a conversation of target-shaped turns succeeds and leaves
    under "messages" new turns with the same fields and values. *)
Lemma create_messages_plain p h ds :
  request_messages h p = Some ds →
  ds ≠ [] →
  Forall (target_shaped model_fields) ds →
  ∃ h', create_messages model_fields self (VRef p) h = (Ok tt, h') ∧
        request_messages h' p = Some ds.
Proof.
  intros (dp & lr & xs & Hp & Hmsg & Hlr & Hall)%request_messages_Some Hne Hshaped.
  unfold create_messages. do 2 mstep.
  destruct (run_pop_invalid_message_keys model_fields lr xs ds (h ++ [OList []]))
    as (h1 & lv & valid & invalid & E & Hext & Hlv & Hvalid_list & _ & Hvalid).
  { heap_lookup. }
  { eapply Forall2_impl; [done|]. intros x d Hx.
    by eapply turn_dict_extends; [apply extends_alloc|]. }
  { intros ->. apply Forall2_nil_inv_l in Hall. done. }
  rewrite run_bind, E. cbv beta iota. mstep.
  rewrite length_app in Hlv. simpl in Hlv.
  pose proof (extends_trans _ _ _ (extends_alloc h (OList [])) Hext) as Hext0.
  pose proof (Hext0 _ _ Hlr) as Hlr1. pose proof (Hext0 _ _ Hp) as Hp1.
  assert (h1 !! length h = Some (OList [])) as Hlp1.
  { apply Hext. by rewrite list_lookup_middle. }
  rewrite run_bind.
  rewrite (run_plain_loop (VRef p) lr (length h) xs valid 0 [] h1).
  - cbv beta iota. mstep. eexists. split; [reflexivity|].
    apply request_messages_Some.
    assert (p ≠ length h) as Hpne by (apply lookup_lt_Some in Hp; lia).
    eexists _, (length h), valid. split; [heap_lookup|].
    split; [by rewrite lookup_insert_eq|]. split; [heap_lookup|].
    eapply Forall2_Forall_r_impl; [exact Hvalid | exact Hshaped |].
    intros v d (l & -> & Hl & Hd) Hd_shaped.
    apply turn_dict_Some. exists l. split; [done|].
    rewrite length_app in Hl. simpl in Hl.
    rewrite !list_lookup_insert_ne by (apply lookup_lt_Some in Hp; lia).
    by rewrite Hd, target_shaped_keep.
  - apply lookup_lt_Some in Hlr. lia.
  - done.
  - done.
  - rewrite drop_0.
    assert (Forall2 (λ d v, ∃ l, v = VRef l ∧ h1 !! l = Some (ODict d) ∧
                                 target_shaped model_fields d) ds valid) as Hds.
    { apply Forall2_flip.
      eapply Forall2_Forall_r_impl; [exact Hvalid | exact Hshaped |].
      intros v d (l & -> & Hl & Hd) Hd_shaped. exists l. split; [done|].
      split; [|done]. by rewrite Hd, target_shaped_keep. }
    eapply Forall2_trans; [|exact Hall|exact Hds].
    intros x d v Hx (l & -> & Hl & Hd_shaped). exists d, l.
    split; [by eapply turn_dict_extends|]. done.
Qed.


End PlainConversation.


(** ** The cost calculator *)

Section Rounding.

Open Scope Z_scope.
















End Rounding.

Section CostProperties.

Context (ANTHROPIC_PRICE1MM : gmap string (gmap string number)).





End CostProperties.


(** The sample response costs 100 * 15.0 / 1e6 + 50 * 75.0 / 1e6, the float
    0x1.5810624dd2f1ap-8; an unlisted model costs 0. *)
Example cost_sample_value :
  cost sample_prices sample_client sample_response
  = Ok (PFloat (S754_finite false 6052837899185946 (-60))) ∧
  cost ∅ sample_client sample_response = Ok (PInt 0).
Proof. split; by vm_compute. Qed.


(** Why the first part of [cost_spec] does not read [==] alone: with 10^308
    input tokens and -10^308 output tokens both [cost] and the expression
    are inf + -inf, the NaN, the one float that is not [==] to itself. *)
Example cost_nan_for_huge_tokens :
  let response :=
    {| content := [];
       usage := Some {| input_tokens := (10 ^ 308)%Z; output_tokens := (- 10 ^ 308)%Z |};
       response_model := "claude-3-opus-20240229" |} in
  cost sample_prices sample_client response = Ok (PFloat S754_nan) ∧
  cost_formula (PFloat (binary_normalize prec emax 15 0 false))
               (PFloat (binary_normalize prec emax 75 0 false))
               (10 ^ 308) (- 10 ^ 308) = Ok (PFloat S754_nan) ∧
  py_eq (PFloat S754_nan) (PFloat S754_nan) = false.
Proof. simpl. repeat split; by vm_compute. Qed.

(** ** One turn inside the translation of a conversation *)

Lemma run_for_enumerate_app {A} (xs ys : list A) (body : nat → A → M unit) :
  ∀ i h,
    for_enumerate i (xs ++ ys) body h =
    (for_enumerate i xs body ≫= λ _, for_enumerate (i + length xs) ys body) h.
Proof.
  induction xs as [|x xs IH]; intros i h; simpl.
  - by rewrite Nat.add_0_r.
  - rewrite !run_bind. destruct (body i x h) as [[[]|e] h1]; [|done].
    rewrite IH, run_bind. by replace (i + S (length xs)) with (S i + length xs) by lia.
Qed.

Lemma post_for_enumerate_app {A B} (xs ys : list A) (body : nat → A → M unit) i
    (k : unit → M B) h Q :
  post (for_enumerate i xs body ≫= λ _, for_enumerate (i + length xs) ys body ≫= k) h Q →
  post (for_enumerate i (xs ++ ys) body ≫= k) h Q.
Proof.
  unfold post. rewrite !run_bind, run_for_enumerate_app, !run_bind.
  destruct (for_enumerate i xs body h) as [[[]|e] h1]; [|done].
  by rewrite run_bind.
Qed.

Lemma post_bind_assoc {A B C} (m : M A) (k : A → M B) (k' : B → M C) h Q :
  post (m ≫= λ a, k a ≫= k') h Q → post ((m ≫= k) ≫= k') h Q.
Proof. unfold post. rewrite !run_bind. by destruct (m h) as [[a|e] h1]. Qed.

Lemma post_bind_run {A B} (m : M A) (k : A → M B) h a h1 Q :
  m h = (Ok a, h1) → post (k a) h1 Q → post (m ≫= k) h Q.
Proof. intros E Hk. apply post_bind. unfold post at 1. by rewrite E. Qed.

Lemma post_conj {A} (m : M A) h (Q1 Q2 : result A → list obj → Prop) :
  post m h Q1 → post m h Q2 → post m h (λ r h', Q1 r h' ∧ Q2 r h').
Proof. by split. Qed.

Lemma extends_length h h' : extends h h' → length h ≤ length h'.
Proof.
  intros Hext. destruct (decide (length h ≤ length h')); [done|].
  destruct (lookup_lt_is_Some_2 h (length h')) as [o Ho]; [lia|].
  apply Hext, lookup_lt_Some in Ho. lia.
Qed.

Lemma extends_keeps p K lp W h h' : extends h h' → keeps p K lp W h h'.
Proof.
  intros Hext. split; [by apply extends_length|]. split; [|split].
  - intros l Hl _ _ _. destruct (lookup_lt_is_Some_2 h l Hl) as [o Ho].
    by rewrite Ho, (Hext _ _ Ho).
  - intros d Hd. exists d. split; [by apply Hext|done].
  - intros xs Hxs. exists []. rewrite app_nil_r. by apply Hext.
Qed.

(** A dict of the old store keeps its keys outside [K], wherever it is. *)
Lemma keeps_dict_key p K lp W h0 h l d :
  keeps p K lp W h0 h →
  h0 !! l = Some (ODict d) → l ≠ lp → ¬ W l →
  ∃ d', h !! l = Some (ODict d') ∧ ∀ k, k ∉ K → d' !! k = d !! k.
Proof.
  intros (_ & Hold & Hp & _) Hl Hlp HW. destruct (decide (l = p)) as [->|Hne].
  - by apply Hp.
  - exists d. split; [|done]. rewrite Hold; [done|by eapply lookup_lt_Some|done..].
Qed.

Lemma keeps_list p K lp W h0 h l xs :
  keeps p K lp W h0 h →
  h0 !! l = Some (OList xs) → l ≠ lp → ¬ W l → h0 !! p ≠ Some (OList xs) →
  h !! l = Some (OList xs).
Proof.
  intros (_ & Hold & _ & _) Hl Hlp HW Hp.
  rewrite Hold; [done|by eapply lookup_lt_Some| |done..]. by intros ->.
Qed.

Section Turn.

Context (model_fields : gset string) (self : AnthropicClient).
Context (p : nat) (h : list obj) (dp : gmap string val) (lr : nat) (xs : list val).
Context (ds : list (gmap string val)) (i : nat) (x : val) (d : gmap string val).

Hypothesis request_dict : h !! p = Some (ODict dp).
Hypothesis request_messages_key : dp !! "messages" = Some (VRef lr).
Hypothesis messages_list : h !! lr = Some (OList xs).
Hypothesis messages_dicts : Forall2 (λ x d, turn_dict h x = Some d) xs ds.
Hypothesis turn_at : xs !! i = Some x.
Hypothesis turn_dict_at : ds !! i = Some d.

Local Abbreviation keep_fields := (filter (λ kv : string * val, kv.1 ∈ model_fields)).
Local Abbreviation K := rebound_keys.
Local Abbreviation lp := (length h).

(** A run of the translation that returns went through turn [i]: in some
    store [hi] that descends from [h], with the filtered copy [lm] of the
    turn and the outbound list [lp], the loop body returned a store [hi'];
    what the body allocated, the copy and the items of the outbound list are
    still there at the end, under "messages". *)
Lemma create_messages_split h' :
  create_messages model_fields self (VRef p) h = (Ok tt, h') →
  ∃ hi hi' lm ps,
    keeps p K lp (λ _, False) h hi ∧
    lp < lm ∧
    hi !! lm = Some (ODict (keep_fields d)) ∧
    hi !! lp = Some (OList ps) ∧
    create_loop_body self (VRef p) (VRef lr) (VRef lp) i (VRef lm) hi = (Ok tt, hi') ∧
    (∃ dp', h' !! p = Some (ODict dp') ∧ dp' !! "messages" = Some (VRef lp)) ∧
    (∀ ps', hi' !! lp = Some (OList ps') → ∃ zs, h' !! lp = Some (OList (ps' ++ zs))) ∧
    (∀ l, length hi ≤ l < length hi' ∨ l = lm → h' !! l = hi' !! l).
Proof.
  intros Hrun.
  cut (post (create_messages model_fields self (VRef p)) h (λ r h', r = Ok tt →
    ∃ hi hi' lm ps,
      keeps p K lp (λ _, False) h hi ∧
      lp < lm ∧
      hi !! lm = Some (ODict (keep_fields d)) ∧
      hi !! lp = Some (OList ps) ∧
      create_loop_body self (VRef p) (VRef lr) (VRef lp) i (VRef lm) hi = (Ok tt, hi') ∧
      (∃ dp', h' !! p = Some (ODict dp') ∧ dp' !! "messages" = Some (VRef lp)) ∧
      (∀ ps', hi' !! lp = Some (OList ps') → ∃ zs, h' !! lp = Some (OList (ps' ++ zs))) ∧
      (∀ l, length hi ≤ l < length hi' ∨ l = lm → h' !! l = hi' !! l))).
  { unfold post. rewrite Hrun. simpl. auto. }
  clear h' Hrun.
  assert (p < length h) as Hplt by (by eapply lookup_lt_Some).
  unfold create_messages.
  eapply post_bind_run; [by eapply run_dict_getitem|].
  eapply post_bind_run; [apply run_new_list|].
  destruct (run_pop_invalid_message_keys model_fields lr xs ds (h ++ [OList []]))
    as (h1 & lv & valid & invalid & E & Hext & Hlv & Hvalid_list & Hnodup & Hvalid).
  { heap_lookup. }
  { eapply Forall2_impl; [done|]. intros ? ? ?.
    by eapply turn_dict_extends; [apply extends_alloc|]. }
  { intros ->. done. }
  eapply post_bind_run; [exact E|]. cbv beta iota.
  eapply post_bind_run; [by eapply run_as_list|].
  rewrite length_app in Hlv, Hvalid. simpl in Hlv, Hvalid.
  pose proof (extends_trans _ _ _ (extends_alloc h (OList [])) Hext) as Hext0.
  assert (h1 !! lp = Some (OList [])) as Hlp1.
  { apply Hext. by rewrite list_lookup_middle. }
  assert (∀ v, v ∈ valid → ∃ l, v = VRef l ∧ lp < l ∧ l < length h1) as Hrefs.
  { intros v [j Hj]%list_elem_of_lookup.
    destruct (Forall2_lookup_l _ _ _ _ _ Hvalid Hj) as (? & _ & l & -> & Hl & Hl').
    exists l. split; [done|]. apply lookup_lt_Some in Hl'. lia. }
  destruct (Forall2_lookup_r _ _ _ _ _ Hvalid turn_dict_at) as (v & Hv & lm & -> & Hlm & Hcopy).
  pose proof (take_drop_middle valid i (VRef lm) Hv) as Hsplit.
  assert (length (take i valid) = i) as Hpre.
  { rewrite length_take. apply lookup_lt_Some in Hv. lia. }
  rewrite <-Hsplit in Hnodup.
  apply NoDup_app in Hnodup as (_ & Hpre_apart & [Hlm_post _]%NoDup_cons).
  assert (∀ v, v ∈ take i valid ∨ v ∈ drop (S i) valid → v ∈ valid) as Hsub.
  { intros v ?. rewrite <-Hsplit, elem_of_app, elem_of_cons. tauto. }
  set (Wpre := λ l : nat, VRef l ∈ take i valid).
  set (Wpost := λ l : nat, VRef l ∈ drop (S i) valid).
  assert (∀ l, Wpre l → l ≠ p ∧ l ≠ lp) as Hpre_ok.
  { intros l Hl. destruct (Hrefs (VRef l)) as (? & [= <-] & ? & ?); [apply Hsub; by left|]. lia. }
  assert (∀ l, Wpost l → l ≠ p ∧ l ≠ lp) as Hpost_ok.
  { intros l Hl. destruct (Hrefs (VRef l)) as (? & [= <-] & ? & ?); [apply Hsub; by right|]. lia. }
  assert (∀ l : nat, False → l ≠ p ∧ l ≠ lp) as Hno by done.
  rewrite <-Hsplit. apply post_for_enumerate_app. rewrite Hpre. cbn [for_enumerate].
  eapply post_seq with
    (I := λ _ hi, keeps p K lp (λ _, False) h hi ∧ keeps p K lp Wpre h1 hi).
  { apply post_for_enumerate
      with (P := λ v, ∃ l, v = VRef l ∧ lp < l ∧ Wpre l)
           (I := λ hi, keeps p K lp (λ _, False) h hi ∧ keeps p K lp Wpre h1 hi).
    - split; [by apply extends_keeps | by apply keeps_refl].
    - apply Forall_forall. intros v Hin.
      destruct (Hrefs v) as (l & -> & ? & ?); [apply Hsub; by left|]. by exists l.
    - intros j v hj (l & -> & Hl & HW) [Hj Hj']. apply post_conj.
      + apply create_loop_body_keeps; [done..|by left|].
        exists l. split; [done|]. left. lia.
      + apply create_loop_body_keeps; [done..|by right|].
        exists l. split; [done|]. by right. }
  { intros e hi _ [=]. }
  intros [] hi [Hi Hi'].
  assert (hi !! lm = Some (ODict (keep_fields d))) as Hcopy_i.
  { destruct Hi' as (_ & Hold & _ & _). rewrite Hold; [done|by eapply lookup_lt_Some|lia..|].
    intros Hin. by apply (Hpre_apart (VRef lm) Hin), list_elem_of_here. }
  destruct Hi' as (Hlen_i & _ & _ & Hlist). destruct (Hlist _ Hlp1) as (ps & Hps).
  simpl in Hps.
  apply post_bind_assoc, post_bind. unfold post at 1.
  pose proof (create_loop_body_keeps self p lp (λ l, l = lm) hi
                ltac:(intros ? ->; lia) (VRef lr) lp (0 + i) (VRef lm) hi
                (keeps_refl _ _ _ _ _) ltac:(by right)
                ltac:(exists lm; split; [done|by right])) as Hbody.
  unfold post in Hbody.
  destruct (create_loop_body self (VRef p) (VRef lr) (VRef lp) (0 + i) (VRef lm) hi)
    as [[[]|e] hi'] eqn:Ebody; simpl in Hbody |- *; [|intros [=]].
  eapply post_seq with (I := λ _ hn, keeps p K lp Wpost hi' hn).
  { apply post_for_enumerate
      with (P := λ v, ∃ l, v = VRef l ∧ Wpost l) (I := keeps p K lp Wpost hi').
    - by apply keeps_refl.
    - apply Forall_forall. intros v Hin.
      destruct (Hrefs v) as (l & -> & ? & ?); [apply Hsub; by right|]. by exists l.
    - intros j v hj (l & -> & HW) Hj.
      apply create_loop_body_keeps; [done..|by right|].
      exists l. split; [done|]. by right. }
  { intros e hn _ [=]. }
  intros [] hn Hn. apply post_tail.
  apply post_bind_dict_setitem; [intros e [=]|]. intros l dn [= <-] Hpn.
  apply post_ret. intros _.
  exists hi, hi', lm, ps. split; [done|]. split; [lia|]. split; [done|]. split; [done|].
  split; [done|].
  pose proof (keeps_length _ _ _ _ _ _ Hbody) as Hlen_body.
  pose proof (keeps_length _ _ _ _ _ _ Hi) as Hlen_hi.
  pose proof (lookup_lt_Some _ _ _ Hps) as Hlp_hi.
  split; [|split].
  - eexists. split; [by apply list_lookup_insert_eq; eapply lookup_lt_Some|].
    by rewrite lookup_insert_eq.
  - intros ps' Hps'. destruct Hn as (_ & _ & _ & Hgrow).
    destruct (Hgrow _ Hps') as (zs & Hzs). exists zs.
    rewrite list_lookup_insert_ne by lia. done.
  - intros l Hl. destruct Hn as (_ & Hold & _ & _).
    assert (l < length hi') as Hlt.
    { destruct Hl as [?| ->]; [lia|]. apply lookup_lt_Some in Hcopy_i. lia. }
    assert (l ≠ p ∧ l ≠ lp) as [? ?] by (destruct Hl as [?| ->]; lia).
    rewrite list_lookup_insert_ne by done.
    apply Hold; [done..|]. intros Hin.
    destruct (Hrefs (VRef l)) as (? & [= <-] & ? & ?); [apply Hsub; by right|].
    destruct Hl as [?| ->]; [lia|done].
Qed.

End Turn.

Lemma not_rebound k :
  bool_decide (k ∉ rebound_keys) = true → k ∉ rebound_keys.
Proof. intros Hk. by apply bool_decide_eq_true in Hk. Qed.

(** C1: on a client whose cache has remembered a tool_use block with id
    [T], a run of the translation that returns has translated every turn of
    role "function" with string content [R] into an outbound turn
    {role: "user", content: [{type: "tool_result", tool_use_id: T, content: R}]}:
    the list bound to "messages" holds a reference to such a turn. *)
Theorem function_turn_translated (model_fields : gset string) (self : AnthropicClient)
    (p : nat) (h h' : list obj) (ds : list (gmap string val)) (i ltu : nat)
    (d dc dtu : gmap string val) (T : val) (R : string) :
  request_messages h p = Some ds →
  ds !! i = Some d →
  d !! "role" = Some (VStr "function") →
  d !! "content" = Some (VStr R) →
  "role" ∈ model_fields →
  "content" ∈ model_fields →
  h !! _last_tooluse_status self = Some (ODict dc) →
  dc !! "tool_use" = Some (VRef ltu) →
  h !! ltu = Some (ODict dtu) →
  dtu !! "id" = Some T →
  create_messages model_fields self (VRef p) h = (Ok tt, h') →
  ∃ dp' lp outs j lt lb lk,
    h' !! p = Some (ODict dp') ∧
    dp' !! "messages" = Some (VRef lp) ∧
    h' !! lp = Some (OList outs) ∧
    outs !! j = Some (VRef lt) ∧
    h' !! lt = Some (ODict (<["role" := VStr "user"]> (<["content" := VRef lb]> ∅))) ∧
    h' !! lb = Some (OList [VRef lk]) ∧
    h' !! lk = Some (ODict (<["type" := VStr "tool_result"]> (<["tool_use_id" := T]>
                           (<["content" := VStr R]> ∅)))).
Proof.
  intros (dp & lr & xs & Hp & Hmsg & Hlr & Hall)%request_messages_Some Hd Hrole Hcontent
    Hr Hcn Hc Htu Hltu Hid Hrun.
  destruct (Forall2_lookup_r _ _ _ _ _ Hall Hd) as (x & Hx & _).
  destruct (create_messages_split model_fields self p h dp lr xs ds i x d
              Hp Hmsg Hlr Hall Hx Hd h' Hrun)
    as (hi & hi' & lm & ps & Hi & Hlm & Hcopy & Hps & Hbody & Hp' & Hgrow & Hsame).
  destruct (keeps_dict_key _ _ _ _ _ _ _ _ Hi Hc) as (dc' & Hc' & Hdc');
    [apply lookup_lt_Some in Hc; lia | tauto |].
  destruct (keeps_dict_key _ _ _ _ _ _ _ _ Hi Hltu) as (dtu' & Hltu' & Hdtu');
    [apply lookup_lt_Some in Hltu; lia | tauto |].
  rewrite <-Hdc' in Htu by (by apply not_rebound).
  rewrite <-Hdtu' in Hid by (by apply not_rebound).
  assert (hi !! lr = Some (OList xs)) as Hlr'.
  { eapply keeps_list; [done..| |tauto|congruence].
    apply lookup_lt_Some in Hlr. lia. }
  rewrite (create_loop_body_function self (VRef p) lr (length h) lm ltu i hi xs ps x
             (filter (λ kv, kv.1 ∈ model_fields) d) dc' dtu' T (VStr R)) in Hbody;
    [|done..| by apply filter_fields_lookup | by apply filter_fields_lookup | done].
  injection Hbody as <-.
  destruct Hp' as (dp' & Hp' & Hmsg').
  destruct (Hgrow (ps ++ [VRef (length hi + 2)])) as (zs & Hzs); [heap_lookup|].
  assert (length h < length hi) as Hlt by (by apply lookup_lt_Some in Hps).
  exists dp', (length h), ((ps ++ [VRef (length hi + 2)]) ++ zs), (length ps),
    (length hi + 2), (length hi + 1), (length hi).
  split; [done|]. split; [done|]. split; [done|].
  split.
  { rewrite <-app_assoc. simpl. by rewrite list_lookup_middle. }
  rewrite !Hsame by (rewrite length_insert, length_app; simpl; lia).
  rewrite !list_lookup_insert_ne by lia.
  split; [|split].
  - rewrite lookup_app_r by lia. by replace (length hi + 2 - length hi) with 2 by lia.
  - rewrite lookup_app_r by lia. by replace (length hi + 1 - length hi) with 1 by lia.
  - rewrite lookup_app_r by lia. by rewrite Nat.sub_diag.
Qed.

Lemma function_turn_translated_sample :
  let h' := (create_messages message_fields sample_client (VRef 6) sample_store).2 in
  ∃ dp' lp outs j lt lb lk,
    h' !! 6 = Some (ODict dp') ∧
    dp' !! "messages" = Some (VRef lp) ∧
    h' !! lp = Some (OList outs) ∧
    outs !! j = Some (VRef lt) ∧
    h' !! lt = Some (ODict (<["role" := VStr "user"]> (<["content" := VRef lb]> ∅))) ∧
    h' !! lb = Some (OList [VRef lk]) ∧
    h' !! lk = Some (ODict (<["type" := VStr "tool_result"]>
                           (<["tool_use_id" := VStr "t1"]> (<["content" := VStr "42"]> ∅)))).
Proof.
  apply (function_turn_translated message_fields sample_client 6 sample_store _
           [ <["role" := VStr "system"]> (<["content" := VStr "be brief"]> ∅);
             <["role" := VStr "function"]> (<["content" := VStr "42"]>
               (<["name" := VStr "search"]> ∅));
             <["role" := VStr "user"]> (<["content" := VStr ""]> ∅) ]
           1 1
           (<["role" := VStr "function"]> (<["content" := VStr "42"]>
              (<["name" := VStr "search"]> ∅)))
           (<["tool_use" := VRef 1]> ∅)
           (<["id" := VStr "t1"]> (<["input" := VJson (JDict [("q", JStr "x")])]>
              (<["name" := VStr "search"]> (<["type" := VStr "tool_use"]> ∅))))
           (VStr "t1") "42");
    reflexivity || (by vm_compute).
Defined.

(** C6: a run of the translation that returns has emitted every turn whose
    role is neither "system" nor "function" and whose original carries no
    function_call marker: the list bound to "messages" refers to a turn
    that holds the recognised fields of the original, with the sentinel as
    content when the content was the empty string and with the content
    unchanged otherwise. *)
Theorem plain_turn_translated (model_fields : gset string) (self : AnthropicClient)
    (p : nat) (h h' : list obj) (ds : list (gmap string val)) (i : nat)
    (d : gmap string val) (r c : val) :
  request_messages h p = Some ds →
  ds !! i = Some d →
  d !! "role" = Some r →
  val_eq_str r "system" = false →
  val_eq_str r "function" = false →
  d !! "function_call" = None →
  d !! "content" = Some c →
  "role" ∈ model_fields →
  "content" ∈ model_fields →
  create_messages model_fields self (VRef p) h = (Ok tt, h') →
  ∃ dp' lp outs j lt,
    h' !! p = Some (ODict dp') ∧
    dp' !! "messages" = Some (VRef lp) ∧
    h' !! lp = Some (OList outs) ∧
    outs !! j = Some (VRef lt) ∧
    h' !! lt =
      Some (ODict (<["content" := if val_eq_str c ""
                                  then VStr "I'm done. Please send TERMINATE" else c]>
                     (filter (λ kv, kv.1 ∈ model_fields) d))).
Proof.
  intros (dp & lr & xs & Hp & Hmsg & Hlr & Hall)%request_messages_Some Hd Hrole Hsys Hfun
    Hmark Hcontent Hr Hcn Hrun.
  destruct (Forall2_lookup_r _ _ _ _ _ Hall Hd) as (x & Hx & (lo & -> & Hlo)%turn_dict_Some).
  destruct (create_messages_split model_fields self p h dp lr xs ds i (VRef lo) d
              Hp Hmsg Hlr Hall Hx Hd h' Hrun)
    as (hi & hi' & lm & ps & Hi & Hlm & Hcopy & Hps & Hbody & Hp' & Hgrow & Hsame).
  destruct (keeps_dict_key _ _ _ _ _ _ _ _ Hi Hlo) as (d' & Hlo' & Hd');
    [apply lookup_lt_Some in Hlo; lia | tauto |].
  rewrite <-Hd' in Hmark by (by apply not_rebound).
  assert (hi !! lr = Some (OList xs)) as Hlr'.
  { eapply keeps_list; [done..| |tauto|congruence].
    apply lookup_lt_Some in Hlr. lia. }
  rewrite (create_loop_body_plain self (VRef p) lr (length h) lm lo i hi xs ps d'
             (filter (λ kv, kv.1 ∈ model_fields) d) r c) in Hbody;
    [|done..| by apply filter_fields_lookup | done | done
     | by apply filter_fields_lookup | done].
  injection Hbody as <-.
  destruct Hp' as (dp' & Hp' & Hmsg').
  assert (length h ≠ lm) as Hne by lia.
  destruct (Hgrow (ps ++ [VRef lm])) as (zs & Hzs).
  { apply list_lookup_insert_eq. destruct (val_eq_str c "");
      rewrite ?length_insert; by eapply lookup_lt_Some. }
  exists dp', (length h), ((ps ++ [VRef lm]) ++ zs), (length ps), lm.
  split; [done|]. split; [done|]. split; [done|].
  split.
  { rewrite <-app_assoc. simpl. by rewrite list_lookup_middle. }
  rewrite Hsame by (by right).
  rewrite list_lookup_insert_ne by done.
  destruct (val_eq_str c "").
  - apply list_lookup_insert_eq. by eapply lookup_lt_Some.
  - rewrite Hcopy. do 2 f_equal. symmetry. apply insert_id.
    by apply filter_fields_lookup.
Qed.

Lemma plain_turn_translated_sample :
  let h' := (create_messages message_fields sample_client (VRef 6) sample_store).2 in
  ∃ dp' lp outs j lt,
    h' !! 6 = Some (ODict dp') ∧
    dp' !! "messages" = Some (VRef lp) ∧
    h' !! lp = Some (OList outs) ∧
    outs !! j = Some (VRef lt) ∧
    h' !! lt =
      Some (ODict (<["content" := VStr "I'm done. Please send TERMINATE"]>
                     (filter (λ kv : string * val, kv.1 ∈ message_fields)
                        (<["role" := VStr "user"]> (<["content" := VStr ""]> ∅)
                         : gmap string val)))).
Proof.
  apply (plain_turn_translated message_fields sample_client 6 sample_store _
           [ <["role" := VStr "system"]> (<["content" := VStr "be brief"]> ∅);
             <["role" := VStr "function"]> (<["content" := VStr "42"]>
               (<["name" := VStr "search"]> ∅));
             <["role" := VStr "user"]> (<["content" := VStr ""]> ∅) ]
           2 (<["role" := VStr "user"]> (<["content" := VStr ""]> ∅))
           (VStr "user") (VStr ""));
    reflexivity || (by vm_compute).
Defined.

(** * Further properties of the adapter *)

(** ** What a response leaves in the tool-use cache *)

Section Remember.

Context (json_dumps : json → string) (self : AnthropicClient).

Local Abbreviation lc := (_last_tooluse_status self).

Lemma message_retrieval_loop_cache messages :
  ∀ res h d,
    h !! lc = Some (ODict d) →
    ∃ res' h' d',
      message_retrieval_loop json_dumps self messages res h = (Ok res', h') ∧
      h' !! lc = Some (ODict d') ∧
      length h ≤ length h' ∧
      (∀ l, l < length h → l ≠ lc → h' !! l = h !! l) ∧
      (∀ k, k ≠ "think" → k ≠ "tool_use" → d' !! k = d !! k) ∧
      d' !! "think" = match last (block_texts messages) with
                      | Some s => Some (VStr s)
                      | None => d !! "think"
                      end ∧
      match last (tool_use_blocks messages) with
      | Some b => ∃ l, d' !! "tool_use" = Some (VRef l) ∧ length h ≤ l ∧
                       h' !! l = Some (ODict (dumped b))
      | None => d' !! "tool_use" = d !! "tool_use"
      end.
Proof.
  induction messages as [|choice messages IH]; intros res h d Hc; simpl.
  - exists res, h, d. done.
  - pose proof (lookup_lt_Some _ _ _ Hc) as Hlc.
    destruct choice as [text|id input name]; simpl.
    + change (block_getattr (TextBlock text) "type") with (Ok (VStr "text")).
      change (block_getattr (TextBlock text) "text") with (Ok (VStr text)).
      mstep. change (val_eq_str (VStr "text") "tool_use") with false. cbv iota.
      do 3 mstep.
      edestruct (IH (res ++ [RText text]))
        as (res' & h' & d' & -> & Hc' & Hlen & Hold & Hkeys & Ht & Htu); [heap_lookup|].
      rewrite length_insert in Hlen, Hold, Htu.
      exists res', h', d'. split; [done|]. split; [done|]. split; [done|].
      split; [|split; [|split]].
      * intros l Hl Hne. rewrite Hold by done. by rewrite list_lookup_insert_ne.
      * intros k Hk1 Hk2. rewrite Hkeys by done. by rewrite lookup_insert_ne.
      * rewrite Ht, last_cons. destruct (last (block_texts messages)); [done|].
        by rewrite lookup_insert_eq.
      * destruct (last (tool_use_blocks messages)); [done|].
        rewrite Htu. by rewrite lookup_insert_ne.
    + change (block_getattr (ToolUseBlock id input name) "type") with (Ok (VStr "tool_use")).
      mstep. change (val_eq_str (VStr "tool_use") "tool_use") with true. cbv iota.
      rewrite run_bind, run_response_to_openai_message. cbv beta iota.
      unfold model_dump. do 2 mstep.
      match goal with
      | |- context [message_retrieval_loop _ _ _ (?m :: res) ?h1] =>
          destruct (IH (m :: res) h1 (<["tool_use" := VRef (length h + 1)]> d))
            as (res' & h' & d' & E & Hc' & Hlen & Hold & Hkeys & Ht & Htu)
      end.
      { rewrite length_app. simpl. heap_lookup. }
      rewrite length_app in E |- *. simpl in E |- *. rewrite E.
      rewrite length_insert, !length_app in Hlen, Hold, Htu. simpl in Hlen, Hold, Htu.
      exists res', h', d'. split; [done|]. split; [done|]. split; [lia|].
      split; [|split; [|split]].
      * intros l Hl Hne. rewrite Hold by lia. rewrite list_lookup_insert_ne by done.
        rewrite <-app_assoc. by rewrite lookup_app_l.
      * intros k Hk1 Hk2. rewrite Hkeys by done. by rewrite lookup_insert_ne.
      * rewrite Ht. by rewrite lookup_insert_ne.
      * fold (tool_use_blocks messages). rewrite last_cons.
        destruct (last (tool_use_blocks messages)) as [b|].
        -- destruct Htu as (l & Hl1 & Hl2 & Hl3). exists l. split; [done|]. split; [lia|done].
        -- exists (length h + 1). rewrite Htu, lookup_insert_eq. split; [done|].
           split; [lia|]. rewrite Hold by lia. rewrite list_lookup_insert_ne by lia.
           rewrite lookup_app_r by (rewrite length_app; simpl; lia).
           rewrite length_app. simpl. by replace (length h + 1 - (length h + 1)) with 0 by lia.
Qed.

End Remember.

(** X1: After a retrieval with tools enabled the cache holds the text of the
    last text block under "think" and a dump of the last tool_use block
    under "tool_use". A key for which the response has no block keeps its
    old value, so a "think" of an earlier response outlives a response
    without text. No other object of the store is changed. *)
Theorem message_retrieval_remembers_last (json_dumps : json → string)
    (self : AnthropicClient) (response : Response) (h : list obj) (d : gmap string val) :
  h !! _last_tooluse_status self = Some (ODict d) →
  ∃ res h' d',
    message_retrieval true json_dumps self response h = (Ok res, h') ∧
    h' !! _last_tooluse_status self = Some (ODict d') ∧
    (∀ l, l < length h → l ≠ _last_tooluse_status self → h' !! l = h !! l) ∧
    (∀ k, k ≠ "think" → k ≠ "tool_use" → d' !! k = d !! k) ∧
    d' !! "think" = match last (block_texts (content response)) with
                    | Some s => Some (VStr s)
                    | None => d !! "think"
                    end ∧
    match last (tool_use_blocks (content response)) with
    | Some b => ∃ l, d' !! "tool_use" = Some (VRef l) ∧ length h ≤ l ∧
                     h' !! l = Some (ODict (dumped b))
    | None => d' !! "tool_use" = d !! "tool_use"
    end.
Proof.
  intros Hc. unfold message_retrieval. case_bool_decide as Hlen.
  - apply length_zero_iff_nil in Hlen. rewrite Hlen. by exists [RNone], h, d.
  - destruct (message_retrieval_loop_cache json_dumps self (content response) [] h d Hc)
      as (res & h' & d' & E & Hc' & _ & Hrest).
    by exists res, h', d'.
Qed.

Lemma message_retrieval_remembers_last_sample :
  ∃ res h' d',
    message_retrieval true sample_json_dumps new_client sample_response new_client_store
      = (Ok res, h') ∧
    h' !! 1 = Some (ODict d') ∧
    (∀ l, l < 2 → l ≠ 1 → h' !! l = new_client_store !! l) ∧
    (∀ k, k ≠ "think" → k ≠ "tool_use" → d' !! k = (∅ : gmap string val) !! k) ∧
    d' !! "think" = Some (VStr "One moment.") ∧
    ∃ l, d' !! "tool_use" = Some (VRef l) ∧ 2 ≤ l ∧
         h' !! l = Some (ODict (dumped (ToolUseBlock "t2" (JDict [("n", JInt 3)]) "fetch"))).
Proof.
  apply (message_retrieval_remembers_last sample_json_dumps new_client sample_response
           new_client_store ∅).
  reflexivity.
Defined.

Lemma length_retrieved (json_dumps : json → string) (blocks : list ContentBlock) :
  length (tool_use_messages json_dumps blocks) + length (block_texts blocks) = length blocks.
Proof.
  induction blocks as [|[text|id input name] blocks IH]; simpl; [done|..];
    unfold tool_use_messages, block_texts in *; simpl; lia.
Qed.

(** X2: With tools enabled a retrieval returns for every response, with one
    element per content block, and with the single element [None] for a
    response without content: the result is never empty. *)
Theorem message_retrieval_one_per_block (json_dumps : json → string)
    (self : AnthropicClient) (response : Response) (h : list obj) (d : gmap string val) :
  h !! _last_tooluse_status self = Some (ODict d) →
  ∃ res h',
    message_retrieval true json_dumps self response h = (Ok res, h') ∧
    length res = max 1 (length (content response)) ∧
    (content response = [] → res = [RNone] ∧ h' = h).
Proof.
  intros Hc. unfold message_retrieval. case_bool_decide as Hlen.
  - rewrite Hlen. by exists [RNone], h.
  - destruct (message_retrieval_loop_result json_dumps self (content response) [] h d Hc)
      as (h' & d' & -> & _).
    eexists _, h'. split; [done|]. split.
    + rewrite !length_app, !length_fmap, length_reverse. simpl.
      pose proof (length_retrieved json_dumps (content response)). lia.
    + intros Hnil. by rewrite Hnil in Hlen.
Qed.

Lemma message_retrieval_one_per_block_sample :
  ∃ res h',
    message_retrieval true sample_json_dumps new_client sample_response new_client_store
      = (Ok res, h') ∧
    length res = 4 ∧
    (content sample_response = [] → res = [RNone] ∧ h' = new_client_store).
Proof.
  apply (message_retrieval_one_per_block sample_json_dumps new_client sample_response
           new_client_store ∅).
  reflexivity.
Defined.

(** X3: With tools disabled a retrieval returns only for a response without
    content: on any content block the legacy branch reads [choice.message],
    which no block has, and raises before it has read or written anything. *)
Theorem legacy_retrieval_unusable (json_dumps : json → string) (self : AnthropicClient)
    (response : Response) (h : list obj) :
  message_retrieval false json_dumps self response h =
    match content response with
    | [] => (Ok [RNone], h)
    | _ :: _ => (Raise (AttributeError "message"), h)
    end.
Proof.
  unfold message_retrieval. destruct (content response) as [|[text|id input name] blocks];
    reflexivity.
Qed.

(** ** Recalling what was remembered *)

Lemma run_return_function_call_result (self : AnthropicClient) (result : val)
    (h : list obj) (dc dtu : gmap string val) (ltu : nat) (T : val) :
  h !! _last_tooluse_status self = Some (ODict dc) →
  dc !! "tool_use" = Some (VRef ltu) →
  h !! ltu = Some (ODict dtu) →
  dtu !! "id" = Some T →
  return_function_call_result self result h =
    (Ok (VRef (length h + 2)),
     h ++ [ ODict (<["type" := VStr "tool_result"]> (<["tool_use_id" := T]>
                  (<["content" := result]> ∅)));
            OList [VRef (length h)];
            ODict (<["role" := VStr "user"]> (<["content" := VRef (length h + 1)]> ∅)) ]).
Proof.
  intros Hc Htu Hltu Hid. unfold return_function_call_result.
  do 4 mstep. rewrite run_new_dict, !length_app. simpl.
  rewrite <-!app_assoc. simpl.
  by replace (length h + 1 + 1) with (length h + 2) by lia.
Qed.

Lemma run_restore_last_tooluse_status (self : AnthropicClient) (h : list obj)
    (d : gmap string val) (tu : val) :
  h !! _last_tooluse_status self = Some (ODict d) →
  d !! "tool_use" = Some tu →
  restore_last_tooluse_status self h =
    match d !! "think" with
    | Some think =>
        (Ok (VRef (length h + 2)),
         h ++ [ OList [VRef (length h + 1); tu];
                ODict (<["type" := VStr "text"]> (<["text" := think]> ∅));
                ODict (<["role" := VStr "assistant"]> (<["content" := VRef (length h)]> ∅)) ])
    | None =>
        (Ok (VRef (length h + 1)),
         h ++ [ OList [tu];
                ODict (<["role" := VStr "assistant"]> (<["content" := VRef (length h)]> ∅)) ])
    end.
Proof.
  intros Hc Htu. pose proof (lookup_lt_Some _ _ _ Hc) as Hlt.
  unfold restore_last_tooluse_status. do 2 mstep.
  destruct (d !! "think") as [think|] eqn:Hthink.
  - rewrite bool_decide_true by eauto. cbv beta iota.
    rewrite run_bind. do 5 mstep. rewrite run_new_dict.
    rewrite !length_insert, !length_app. simpl.
    rewrite <-!app_assoc. simpl.
    rewrite !insert_app_r_alt by lia. rewrite Nat.sub_diag. simpl.
    rewrite <-!app_assoc. simpl.
    by replace (length h + 1 + 1) with (length h + 2) by lia.
  - rewrite bool_decide_false by (intros [? ?]; done). cbv beta iota.
    do 3 mstep. rewrite run_new_dict.
    rewrite !length_insert, !length_app. simpl.
    rewrite !insert_app_r_alt by lia. rewrite Nat.sub_diag. simpl.
    by rewrite <-!app_assoc.
Qed.

(** X4: A primed cache is recalled as a new assistant turn whose content is a
    new list: a new text block for the remembered "think", when there is
    one, followed by the remembered tool_use entry itself (the reference
    held by the cache, not a copy). The cache and every other object of the
    store stay as they were. *)
Theorem restore_returns_remembered (self : AnthropicClient) (h : list obj)
    (d : gmap string val) (tu : val) :
  h !! _last_tooluse_status self = Some (ODict d) →
  d !! "tool_use" = Some tu →
  restore_last_tooluse_status self h =
    match d !! "think" with
    | Some think =>
        (Ok (VRef (length h + 2)),
         h ++ [ OList [VRef (length h + 1); tu];
                ODict (<["type" := VStr "text"]> (<["text" := think]> ∅));
                ODict (<["role" := VStr "assistant"]> (<["content" := VRef (length h)]> ∅)) ])
    | None =>
        (Ok (VRef (length h + 1)),
         h ++ [ OList [tu];
                ODict (<["role" := VStr "assistant"]> (<["content" := VRef (length h)]> ∅)) ])
    end.
Proof. apply run_restore_last_tooluse_status. Qed.

Lemma restore_returns_remembered_sample :
  restore_last_tooluse_status sample_client sample_store =
    (Ok (VRef 8),
     sample_store ++
       [ OList [VRef 1];
         ODict (<["role" := VStr "assistant"]> (<["content" := VRef 7]> ∅)) ]).
Proof.
  rewrite (restore_returns_remembered sample_client sample_store (<["tool_use" := VRef 1]> ∅)
             (VRef 1)) by reflexivity.
  reflexivity.
Defined.

(** ** From a response to the next request *)

Section RememberThenRecall.

Context (json_dumps : json → string) (self : AnthropicClient).
Context (response : Response) (h : list obj) (d : gmap string val) (b : ContentBlock).

Hypothesis cache_dict : h !! _last_tooluse_status self = Some (ODict d).
Hypothesis last_tool_use : last (tool_use_blocks (content response)) = Some b.

Lemma retrieval_remembers :
  ∃ res h1 d1 l,
    message_retrieval true json_dumps self response h = (Ok res, h1) ∧
    h1 !! _last_tooluse_status self = Some (ODict d1) ∧
    d1 !! "think" = match last (block_texts (content response)) with
                    | Some s => Some (VStr s)
                    | None => d !! "think"
                    end ∧
    d1 !! "tool_use" = Some (VRef l) ∧
    h1 !! l = Some (ODict (dumped b)).
Proof.
  unfold message_retrieval. case_bool_decide as Hlen.
  - apply length_zero_iff_nil in Hlen. by rewrite Hlen in last_tool_use.
  - destruct (message_retrieval_loop_cache json_dumps self (content response) [] h d cache_dict)
      as (res & h1 & d1 & E & Hc1 & _ & _ & _ & Ht & Htu).
    rewrite last_tool_use in Htu. destruct Htu as (l & Hl & _ & Hdump).
    by exists res, h1, d1, l.
Qed.

End RememberThenRecall.

(** X5: The result of a tool is addressed to the last tool_use block of the
    last response: after a retrieval with tools enabled,
    [return_function_call_result] builds a user turn whose tool_result block
    carries the id of that block. *)
Theorem result_addresses_last_tool_use (json_dumps : json → string) (self : AnthropicClient)
    (response : Response) (h : list obj) (d : gmap string val)
    (id : string) (input : json) (name : string) (R : val) :
  h !! _last_tooluse_status self = Some (ODict d) →
  last (tool_use_blocks (content response)) = Some (ToolUseBlock id input name) →
  ∃ res h1,
    message_retrieval true json_dumps self response h = (Ok res, h1) ∧
    return_function_call_result self R h1 =
      (Ok (VRef (length h1 + 2)),
       h1 ++ [ ODict (<["type" := VStr "tool_result"]> (<["tool_use_id" := VStr id]>
                     (<["content" := R]> ∅)));
               OList [VRef (length h1)];
               ODict (<["role" := VStr "user"]> (<["content" := VRef (length h1 + 1)]> ∅)) ]).
Proof.
  intros Hc Hlast.
  destruct (retrieval_remembers json_dumps self response h d _ Hc Hlast)
    as (res & h1 & d1 & l & E & Hc1 & _ & Htu & Hdump).
  exists res, h1. split; [done|].
  by apply (run_return_function_call_result self R h1 d1
              (dumped (ToolUseBlock id input name)) l).
Qed.

Lemma result_addresses_last_tool_use_sample :
  ∃ res h1,
    message_retrieval true sample_json_dumps new_client sample_response new_client_store
      = (Ok res, h1) ∧
    return_function_call_result new_client (VStr "42") h1 =
      (Ok (VRef (length h1 + 2)),
       h1 ++ [ ODict (<["type" := VStr "tool_result"]> (<["tool_use_id" := VStr "t2"]>
                     (<["content" := VStr "42"]> ∅)));
               OList [VRef (length h1)];
               ODict (<["role" := VStr "user"]> (<["content" := VRef (length h1 + 1)]> ∅)) ]).
Proof.
  apply (result_addresses_last_tool_use sample_json_dumps new_client sample_response
           new_client_store ∅ "t2" (JDict [("n", JInt 3)]) "fetch" (VStr "42"));
    reflexivity.
Defined.

(** X6: The assistant turn of the last response is rebuilt from the cache:
    after a retrieval with tools enabled, [restore_last_tooluse_status]
    returns an assistant turn whose content is the remembered text, as a
    text block, followed by the dump of the last tool_use block. The text
    is that of the last text block of the response, or, when the response
    has none, whatever an earlier response left under "think". *)
Theorem restore_rebuilds_last_response (json_dumps : json → string) (self : AnthropicClient)
    (response : Response) (h : list obj) (d : gmap string val) (b : ContentBlock) :
  h !! _last_tooluse_status self = Some (ODict d) →
  last (tool_use_blocks (content response)) = Some b →
  ∃ res h1 h2 lt lcnt ltu,
    message_retrieval true json_dumps self response h = (Ok res, h1) ∧
    restore_last_tooluse_status self h1 = (Ok (VRef lt), h2) ∧
    h2 !! lt = Some (ODict (<["role" := VStr "assistant"]> (<["content" := VRef lcnt]> ∅))) ∧
    h2 !! ltu = Some (ODict (dumped b)) ∧
    match (match last (block_texts (content response)) with
           | Some s => Some (VStr s)
           | None => d !! "think"
           end) with
    | Some think =>
        ∃ lb, h2 !! lcnt = Some (OList [VRef lb; VRef ltu]) ∧
              h2 !! lb = Some (ODict (<["type" := VStr "text"]> (<["text" := think]> ∅)))
    | None => h2 !! lcnt = Some (OList [VRef ltu])
    end.
Proof.
  intros Hc Hlast.
  destruct (retrieval_remembers json_dumps self response h d b Hc Hlast)
    as (res & h1 & d1 & l & E & Hc1 & Ht & Htu & Hdump).
  pose proof (run_restore_last_tooluse_status self h1 d1 (VRef l) Hc1 Htu) as Hrun.
  rewrite <-Ht. destruct (d1 !! "think") as [think|].
  - eexists res, h1, _, (length h1 + 2), (length h1), l.
    split; [done|]. split; [exact Hrun|].
    split; [by rewrite lookup_app_r by lia; replace (length h1 + 2 - length h1) with 2 by lia|].
    split; [by apply lookup_app_l_Some|].
    exists (length h1 + 1).
    split; [by rewrite list_lookup_middle|].
    by rewrite lookup_app_r by lia; replace (length h1 + 1 - length h1) with 1 by lia.
  - eexists res, h1, _, (length h1 + 1), (length h1), l.
    split; [done|]. split; [exact Hrun|].
    split; [by rewrite lookup_app_r by lia; replace (length h1 + 1 - length h1) with 1 by lia|].
    split; [by apply lookup_app_l_Some|].
    by rewrite list_lookup_middle.
Qed.

Lemma restore_rebuilds_last_response_sample :
  ∃ res h1 h2 lt lcnt ltu,
    message_retrieval true sample_json_dumps new_client sample_response new_client_store
      = (Ok res, h1) ∧
    restore_last_tooluse_status new_client h1 = (Ok (VRef lt), h2) ∧
    h2 !! lt = Some (ODict (<["role" := VStr "assistant"]> (<["content" := VRef lcnt]> ∅))) ∧
    h2 !! ltu = Some (ODict (dumped (ToolUseBlock "t2" (JDict [("n", JInt 3)]) "fetch"))) ∧
    ∃ lb, h2 !! lcnt = Some (OList [VRef lb; VRef ltu]) ∧
          h2 !! lb = Some (ODict (<["type" := VStr "text"]>
                                    (<["text" := VStr "One moment."]> ∅))).
Proof.
  apply (restore_rebuilds_last_response sample_json_dumps new_client sample_response
           new_client_store ∅ (ToolUseBlock "t2" (JDict [("n", JInt 3)]) "fetch"));
    reflexivity.
Defined.

(** ** Tool declarations on the way out *)

Lemma run_convert_tools_loop (lf : nat) (ts : list val) :
  ∀ tds fs h,
    h !! lf = Some (OList fs) →
    Forall2 (λ t td, turn_dict h t = Some td) ts tds →
    for_each ts (λ tool,
        ty ← dict_get tool "type" VNone;
        if val_eq_str ty "function" then
          has_function ← dict_contains tool "function";
          if has_function : bool then
            f ← dict_getitem tool "function";
            list_append (VRef lf) f
          else mret tt
        else mret tt) h
    = (Ok tt, <[lf := OList (fs ++ omap wrapped_function tds)]> h).
Proof.
  induction ts as [|t ts IH]; intros tds fs h Hlf Hts.
  - apply Forall2_nil_inv_l in Hts as ->. simpl.
    by rewrite app_nil_r, list_insert_id.
  - apply Forall2_cons_inv_l in Hts as (td & tds' & (lt & -> & Hlt)%turn_dict_Some & Hts & ->).
    cbn [for_each]. mstep.
    assert (∀ fs', Forall2 (λ t td, turn_dict (<[lf := OList fs']> h) t = Some td) ts tds')
      as Hts'.
    { intros fs'. eapply Forall2_impl; [done|].
      intros t td' (l & -> & Hl)%turn_dict_Some. apply turn_dict_Some.
      exists l. split; [done|]. rewrite list_lookup_insert_ne; [done|]. intros ->; congruence. }
    assert (∀ w, default VNone (td !! "type") = w →
                 omap wrapped_function (td :: tds') =
                 (if val_eq_str w "function"
                  then match td !! "function" with
                       | Some f => [f]
                       | None => []
                       end
                  else []) ++ omap wrapped_function tds') as Homap.
    { intros w <-. cbn [omap list_omap]. unfold wrapped_function at 1.
      destruct (val_eq_str _ _); [|done]. by destruct (td !! "function"). }
    destruct (td !! "type") as [ty|] eqn:Hty; simpl in Homap |- *;
      rewrite (Homap _ eq_refl); clear Homap;
      [destruct (val_eq_str ty "function") eqn:Hfun|]; cbv iota.
    + mstep. destruct (td !! "function") as [f|] eqn:Hf.
      * rewrite bool_decide_true by eauto. cbv iota. do 2 mstep.
        rewrite (IH tds' (fs ++ [f])); [|heap_lookup|done].
        by rewrite list_insert_insert_eq, <-app_assoc.
      * rewrite bool_decide_false by (intros [? ?]; done). cbv iota. mstep.
        by apply IH.
    + by apply IH.
    + by apply IH.
Qed.

Lemma run_convert_tools_to_functions (lt : nat) (ts : list val)
    (tds : list (gmap string val)) (h : list obj) :
  h !! lt = Some (OList ts) →
  Forall2 (λ t td, turn_dict h t = Some td) ts tds →
  convert_tools_to_functions (VRef lt) h =
    (Ok (VRef (length h)), h ++ [OList (omap wrapped_function tds)]).
Proof.
  intros Hlt Hts. unfold convert_tools_to_functions. do 2 mstep.
  rewrite run_bind.
  rewrite (run_convert_tools_loop (length h) ts tds []).
  - cbv beta iota. rewrite run_ret. simpl.
    rewrite insert_app_r_alt by lia. by rewrite Nat.sub_diag.
  - by rewrite list_lookup_middle.
  - eapply Forall2_impl; [done|]. intros t td Ht.
    by eapply turn_dict_extends; [apply extends_alloc|].
Qed.

(** X7: [convert_tools_to_functions] returns a new list that holds, in the
    order of the tools, the value under "function" of every tool entry of
    type "function"; an entry of another type, without a type or without
    the key is skipped. Nothing that existed is changed. *)
Theorem convert_tools_to_functions_unwraps (lt : nat) (ts : list val)
    (tds : list (gmap string val)) (h : list obj) :
  h !! lt = Some (OList ts) →
  Forall2 (λ t td, turn_dict h t = Some td) ts tds →
  convert_tools_to_functions (VRef lt) h =
    (Ok (VRef (length h)), h ++ [OList (omap wrapped_function tds)]).
Proof. apply run_convert_tools_to_functions. Qed.

Lemma convert_tools_to_functions_unwraps_sample :
  convert_tools_to_functions (VRef 4) tools_store =
    (Ok (VRef 11), tools_store ++ [OList [VRef 1]]).
Proof.
  etrans.
  - apply (convert_tools_to_functions_unwraps 4 [VRef 0; VRef 2; VRef 3]
             [ <["type" := VStr "function"]> (<["function" := VRef 1]> ∅);
               <["type" := VStr "retrieval"]> ∅;
               <["type" := VStr "function"]> ∅ ] tools_store).
    + reflexivity.
    + repeat constructor.
  - reflexivity.
Defined.

Lemma run_list_add (a b : nat) (xs ys : list val) (h : list obj) :
  h !! a = Some (OList xs) → h !! b = Some (OList ys) →
  list_add (VRef a) (VRef b) h = (Ok (VRef (length h)), h ++ [OList (xs ++ ys)]).
Proof. intros Ha Hb. unfold list_add. by do 3 mstep. Qed.

Lemma run_dict_pop (l : nat) (k : string) (h : list obj) (d : gmap string val) (x : val) :
  h !! l = Some (ODict d) → d !! k = Some x →
  dict_pop (VRef l) k h = (Ok x, <[l := ODict (delete k d)]> h).
Proof.
  intros E Ek. unfold dict_pop. rewrite run_bind, (run_as_dict _ _ _ _ E), Ek.
  by rewrite run_bind, (run_store _ _ _ _ E).
Qed.

Lemma insert_at_length {A} (l : list A) (x y : A) (rest : list A) :
  <[length l := y]> (l ++ x :: rest) = l ++ y :: rest.
Proof. rewrite insert_app_r_alt by lia. by rewrite Nat.sub_diag. Qed.

Lemma run_create_functions (p : nat) (h : list obj) (d : gmap string val) (lt : nat)
    (ts : list val) (tds : list (gmap string val)) (fs : list val) :
  h !! p = Some (ODict d) →
  d !! "tools" = Some (VRef lt) →
  h !! lt = Some (OList ts) →
  Forall2 (λ t td, turn_dict h t = Some td) ts tds →
  match d !! "functions" with
  | Some v => ∃ lf, v = VRef lf ∧ h !! lf = Some (OList fs)
  | None => fs = []
  end →
  create_functions (VRef p) h =
    (Ok tt,
     <[p := ODict (<["functions" := VRef (length h + 2)]> d)]>
       (h ++ [ OList (omap wrapped_function tds); OList [];
               OList (fs ++ omap wrapped_function tds) ])).
Proof.
  intros Hp Htools Hlt Hts Hfs. pose proof (lookup_lt_Some _ _ _ Hp) as Hplt.
  unfold create_functions. mstep.
  rewrite bool_decide_true by eauto. cbv iota. mstep.
  rewrite run_bind, (run_convert_tools_to_functions lt ts tds h Hlt Hts). cbv beta iota.
  do 2 mstep.
  destruct (d !! "functions") as [v|] eqn:Hf.
  - destruct Hfs as (lf & -> & Hlf).
    erewrite run_bind, (run_list_add lf (length h) fs); [|heap_lookup..].
    cbv beta iota. erewrite run_dict_setitem by heap_lookup.
    rewrite !length_app. simpl. rewrite <-!app_assoc. simpl.
    by replace (length h + 1 + 1) with (length h + 2) by lia.
  - subst fs.
    erewrite run_bind, (run_list_add (length (h ++ [OList (omap wrapped_function tds)]))
                          (length h) []); [|heap_lookup..].
    cbv beta iota. erewrite run_dict_setitem by heap_lookup.
    rewrite !length_app. simpl. rewrite <-!app_assoc. simpl.
    by replace (length h + 1 + 1) with (length h + 2) by lia.
Qed.

(** X8: Lines 81-83 of [create]. Without "tools" the request is left alone.
    With "tools", "functions" is bound in the caller's request to a new
    list: the caller's function declarations followed by the declarations
    unwrapped from the tools. The caller's own list of functions, the list
    of tools and the key "tools" stay as they were. *)
Theorem create_functions_appends (p : nat) (h : list obj) (d : gmap string val) :
  h !! p = Some (ODict d) →
  (d !! "tools" = None → create_functions (VRef p) h = (Ok tt, h)) ∧
  (∀ lt ts tds fs,
     d !! "tools" = Some (VRef lt) →
     h !! lt = Some (OList ts) →
     Forall2 (λ t td, turn_dict h t = Some td) ts tds →
     match d !! "functions" with
     | Some v => ∃ lf, v = VRef lf ∧ h !! lf = Some (OList fs)
     | None => fs = []
     end →
     create_functions (VRef p) h =
       (Ok tt,
        <[p := ODict (<["functions" := VRef (length h + 2)]> d)]>
          (h ++ [ OList (omap wrapped_function tds); OList [];
                  OList (fs ++ omap wrapped_function tds) ]))).
Proof.
  intros Hp. split.
  - intros Htools. unfold create_functions. mstep.
    by rewrite bool_decide_false by (rewrite Htools; intros [? ?]; done).
  - intros lt ts tds fs. by apply run_create_functions.
Qed.

Lemma create_functions_appends_sample :
  create_functions (VRef 9) tools_store =
    (Ok tt,
     <[9 := ODict (<["functions" := VRef 13]> (<["messages" := VRef 8]>
                  (<["tools" := VRef 4]> (<["functions" := VRef 6]>
                  (<["model_client_cls" := VStr "AnthropicClient"]>
                  (<["stream" := VBool true]> ∅))))))]>
       (tools_store ++ [OList [VRef 1]; OList []; OList [VRef 5; VRef 1]])).
Proof.
  etrans.
  - apply (proj2 (create_functions_appends 9 tools_store _ eq_refl) 4
             [VRef 0; VRef 2; VRef 3]
             [ <["type" := VStr "function"]> (<["function" := VRef 1]> ∅);
               <["type" := VStr "retrieval"]> ∅;
               <["type" := VStr "function"]> ∅ ] [VRef 5]).
    + reflexivity.
    + reflexivity.
    + repeat constructor.
    + exists 6. split; reflexivity.
  - reflexivity.
Defined.

Lemma run_openai_func_to_anthropic (l : nat) (f : gmap string val) (h : list obj) :
  h !! l = Some (ODict f) →
  openai_func_to_anthropic (VRef l) h =
    match f !! "parameters" with
    | Some x =>
        (Ok (VRef (length h)),
         h ++ [ODict (<["input_schema" := x]> (delete "parameters" f))])
    | None => (Raise (KeyError "parameters"), h ++ [ODict f])
    end.
Proof.
  intros Hl. unfold openai_func_to_anthropic. mstep.
  destruct (f !! "parameters") as [x|] eqn:Hx.
  - erewrite run_bind, run_dict_pop; [|heap_lookup|done]. cbv beta iota.
    mstep. rewrite run_ret. by rewrite list_insert_insert_eq, insert_at_length.
  - by mstep.
Qed.

(** X9: [openai_func_to_anthropic] returns a copy of the declaration in which
    the value under "parameters" has moved under "input_schema"; every
    other key is as in the declaration, which is itself not changed. A
    declaration without "parameters" raises [KeyError]. *)
Theorem openai_func_to_anthropic_renames (l : nat) (f : gmap string val) (h : list obj) :
  h !! l = Some (ODict f) →
  openai_func_to_anthropic (VRef l) h =
    match f !! "parameters" with
    | Some x =>
        (Ok (VRef (length h)),
         h ++ [ODict (<["input_schema" := x]> (delete "parameters" f))])
    | None => (Raise (KeyError "parameters"), h ++ [ODict f])
    end.
Proof. apply run_openai_func_to_anthropic. Qed.

Lemma openai_func_to_anthropic_renames_sample :
  openai_func_to_anthropic (VRef 1) tools_store =
    (Ok (VRef 11),
     tools_store ++
       [ODict (<["name" := VStr "search"]>
              (<["input_schema" := VJson (JDict [("type", JStr "object")])]> ∅))]) ∧
  openai_func_to_anthropic (VRef 0) tools_store =
    (Raise (KeyError "parameters"),
     tools_store ++ [ODict (<["type" := VStr "function"]> (<["function" := VRef 1]> ∅))]).
Proof.
  split.
  - etrans.
    + by apply (openai_func_to_anthropic_renames 1
                  (<["name" := VStr "search"]>
                     (<["parameters" := VJson (JDict [("type", JStr "object")])]> ∅))
                  tools_store).
    + reflexivity.
  - etrans.
    + by apply (openai_func_to_anthropic_renames 0
                  (<["type" := VStr "function"]> (<["function" := VRef 1]> ∅)) tools_store).
    + reflexivity.
Defined.

(** ** The keyword arguments of the outbound call *)

Lemma run_tools_comprehension (fs : list val) :
  ∀ tools h,
    Forall2 (λ f t, ∃ fd, turn_dict h f = Some fd ∧ anthropic_tool fd = Some t) fs tools →
    list_comprehension fs openai_func_to_anthropic h =
      (Ok (VRef <$> seq (length h) (length fs)), h ++ (ODict <$> tools)).
Proof.
  induction fs as [|f fs IH]; intros tools h Hfs.
  - apply Forall2_nil_inv_l in Hfs as ->. simpl. by rewrite app_nil_r.
  - apply Forall2_cons_inv_l in Hfs
      as (t & tools' & (fd & (l & -> & Hl)%turn_dict_Some & Ht) & Hfs & ->).
    cbn [list_comprehension]. rewrite run_bind, (run_openai_func_to_anthropic l fd h Hl).
    unfold anthropic_tool in Ht. destruct (fd !! "parameters") as [x|]; [|done].
    simpl in Ht. injection Ht as <-. cbv beta iota.
    rewrite run_bind, (IH tools').
    + cbv beta iota. rewrite run_ret, length_app. simpl.
      rewrite <-app_assoc. simpl. by replace (length h + 1) with (S (length h)) by lia.
    + eapply Forall2_impl; [done|]. intros f t (fd' & Hf & Ht'). exists fd'.
      split; [|done]. by eapply turn_dict_extends; [apply extends_alloc|].
Qed.

Section Outbound.

Context (TOOL_ENABLED : bool) (p : nat) (h : list obj) (d : gmap string val) (cls : val).

Hypothesis request_dict : h !! p = Some (ODict d).
Hypothesis has_client_cls : d !! "model_client_cls" = Some cls.

(** The copy of the request after lines 113-116. *)
Lemma run_create_outbound_copy {A} (k : val → M A) :
  (params ← dict_copy (VRef p);
   _ ← dict_setitem params "stream" (VBool false);
   _ ← dict_pop params "model_client_cls";
   max_tokens ← dict_get params "max_tokens" (VInt 4096);
   _ ← dict_setitem params "max_tokens" max_tokens;
   k params) h
  = k (VRef (length h)) (h ++ [ODict (outbound_kwargs d)]).
Proof.
  do 2 mstep. rewrite insert_at_length.
  erewrite run_bind, run_dict_pop;
    [|by apply list_lookup_middle|by rewrite lookup_insert_ne]. cbv beta iota.
  rewrite insert_at_length. mstep.
  rewrite run_bind. erewrite run_dict_setitem by (by apply list_lookup_middle).
  cbv beta iota. rewrite insert_at_length.
  rewrite lookup_delete_ne, lookup_insert_ne by done.
  unfold outbound_kwargs. by destruct (d !! "max_tokens").
Qed.

Lemma outbound_kwargs_functions : outbound_kwargs d !! "functions" = d !! "functions".
Proof.
  unfold outbound_kwargs.
  by rewrite lookup_insert_ne, lookup_delete_ne, lookup_insert_ne.
Qed.

Lemma run_create_outbound_plain :
  d !! "functions" = None →
  create_outbound TOOL_ENABLED (VRef p) h =
    (Ok (PlainMessages, VRef (length h)), h ++ [ODict (outbound_kwargs d)]).
Proof.
  intros Hf. unfold create_outbound.
  assert ((if TOOL_ENABLED then dict_contains (VRef p) "functions" else mret false) h
          = (Ok false, h)) as E.
  { destruct TOOL_ENABLED; [|done]. mstep.
    by rewrite bool_decide_false by (rewrite Hf; intros [? ?]; done). }
  rewrite run_bind, E. cbv beta iota.
  rewrite run_create_outbound_copy. mstep.
  rewrite bool_decide_false by (rewrite outbound_kwargs_functions, Hf; intros [? ?]; done).
  cbv iota. by rewrite run_bind, run_ret.
Qed.

Lemma run_create_outbound_tools lf fs tools :
  d !! "functions" = Some (VRef lf) →
  h !! lf = Some (OList fs) →
  Forall2 (λ f t, ∃ fd, turn_dict h f = Some fd ∧ anthropic_tool fd = Some t) fs tools →
  create_outbound TOOL_ENABLED (VRef p) h =
    (Ok (if TOOL_ENABLED then BetaToolsMessages else PlainMessages, VRef (length h)),
     h ++ [ODict (<["tools" := VRef (length h + 1 + length fs)]>
                    (delete "functions" (outbound_kwargs d)))]
       ++ (ODict <$> tools)
       ++ [OList (VRef <$> seq (length h + 1) (length fs))]).
Proof.
  intros Hf Hlf Hfs. unfold create_outbound.
  assert ((if TOOL_ENABLED then dict_contains (VRef p) "functions" else mret false) h
          = (Ok TOOL_ENABLED, h)) as E.
  { destruct TOOL_ENABLED; [|done]. mstep. by rewrite bool_decide_true by eauto. }
  rewrite run_bind, E. cbv beta iota.
  rewrite run_create_outbound_copy. mstep.
  rewrite bool_decide_true by (rewrite outbound_kwargs_functions, Hf; eauto).
  cbv iota. rewrite run_bind.
  erewrite run_bind, run_dict_pop;
    [|heap_lookup|by rewrite outbound_kwargs_functions]. cbv beta iota.
  rewrite insert_at_length. mstep.
  rewrite run_bind, (run_tools_comprehension fs tools).
  - cbv beta iota. mstep. rewrite <-!app_assoc. simpl.
    erewrite run_dict_setitem by (by apply list_lookup_middle).
    rewrite insert_at_length, run_ret, !length_app. simpl. rewrite length_fmap.
    pose proof (Forall2_length _ _ _ Hfs) as Hlen. rewrite <-Hlen.
    by replace (length h + S (length fs)) with (length h + 1 + length fs) by lia.
  - eapply Forall2_impl; [done|]. intros f t (fd & Hfd & Ht). exists fd.
    split; [|done]. by eapply turn_dict_extends; [apply extends_alloc|].
Qed.

End Outbound.

(** X10: For a request without function declarations the plain endpoint is
    called with a new dict: the request with "stream" forced to [False]
    (whatever the caller asked for), without "model_client_cls", and with
    "max_tokens" as given or 4096 when the caller gave none. The request of
    the caller is not changed by this stage. *)
Theorem create_outbound_plain_kwargs (TOOL_ENABLED : bool) (p : nat) (h : list obj)
    (d : gmap string val) (cls : val) :
  h !! p = Some (ODict d) →
  d !! "model_client_cls" = Some cls →
  d !! "functions" = None →
  create_outbound TOOL_ENABLED (VRef p) h =
    (Ok (PlainMessages, VRef (length h)), h ++ [ODict (outbound_kwargs d)]) ∧
  outbound_kwargs d !! "stream" = Some (VBool false) ∧
  outbound_kwargs d !! "model_client_cls" = None ∧
  outbound_kwargs d !! "max_tokens" = Some (default (VInt 4096) (d !! "max_tokens")) ∧
  (∀ k, k ≠ "stream" → k ≠ "model_client_cls" → k ≠ "max_tokens" →
        outbound_kwargs d !! k = d !! k).
Proof.
  intros Hp Hcls Hf. split; [by eapply run_create_outbound_plain|].
  unfold outbound_kwargs. split; [|split; [|split]].
  - by rewrite lookup_insert_ne, lookup_delete_ne, lookup_insert_eq.
  - by rewrite lookup_insert_ne, lookup_delete_eq.
  - by rewrite lookup_insert_eq.
  - intros k ? ? ?. by rewrite lookup_insert_ne, lookup_delete_ne, lookup_insert_ne.
Qed.

Lemma create_outbound_plain_kwargs_sample :
  create_outbound true (VRef 3) plain_store =
    (Ok (PlainMessages, VRef 5),
     plain_store ++
       [ODict (<["max_tokens" := VInt 4096]> (<["stream" := VBool false]>
              (<["messages" := VRef 2]> (<["model" := VStr "claude-3-opus-20240229"]> ∅))))]).
Proof.
  etrans.
  - apply (create_outbound_plain_kwargs true 3 plain_store
             (<["messages" := VRef 2]> (<["model" := VStr "claude-3-opus-20240229"]>
                (<["model_client_cls" := VStr "AnthropicClient"]> ∅)))
             (VStr "AnthropicClient")); reflexivity.
  - by vm_compute.
Defined.

(** X11: For a request with function declarations the keyword arguments have no
    "functions" key: "tools" is bound to a new list of new dicts, one per
    declaration and in their order, each the declaration with "parameters"
    renamed to "input_schema". The endpoint is the beta tools endpoint when
    tools are enabled; when they are not, the plain endpoint receives the
    same keyword arguments, "tools" included. *)
Theorem create_outbound_tools_kwargs (TOOL_ENABLED : bool) (p : nat) (h : list obj)
    (d : gmap string val) (cls : val) (lf : nat) (fs : list val)
    (tools : list (gmap string val)) :
  h !! p = Some (ODict d) →
  d !! "model_client_cls" = Some cls →
  d !! "functions" = Some (VRef lf) →
  h !! lf = Some (OList fs) →
  Forall2 (λ f t, ∃ fd, turn_dict h f = Some fd ∧ anthropic_tool fd = Some t) fs tools →
  create_outbound TOOL_ENABLED (VRef p) h =
    (Ok (if TOOL_ENABLED then BetaToolsMessages else PlainMessages, VRef (length h)),
     h ++ [ODict (<["tools" := VRef (length h + 1 + length fs)]>
                    (delete "functions" (outbound_kwargs d)))]
       ++ (ODict <$> tools)
       ++ [OList (VRef <$> seq (length h + 1) (length fs))]).
Proof. intros. by eapply run_create_outbound_tools. Qed.

Lemma create_outbound_tools_kwargs_sample :
  create_outbound false (VRef 9) tools_store =
    (Ok (PlainMessages, VRef 11),
     tools_store ++
       [ ODict (<["tools" := VRef 13]> (<["max_tokens" := VInt 4096]>
               (<["stream" := VBool false]> (<["messages" := VRef 8]>
               (<["tools" := VRef 4]> ∅)))));
         ODict (<["name" := VStr "fetch"]>
               (<["input_schema" := VJson (JDict [("type", JStr "object")])]> ∅));
         OList [VRef 12] ]).
Proof.
  etrans.
  - apply (create_outbound_tools_kwargs false 9 tools_store
             (<["messages" := VRef 8]> (<["tools" := VRef 4]> (<["functions" := VRef 6]>
                (<["model_client_cls" := VStr "AnthropicClient"]>
                (<["stream" := VBool true]> ∅)))))
             (VStr "AnthropicClient") 6 [VRef 5]
             [ <["name" := VStr "fetch"]>
                 (<["input_schema" := VJson (JDict [("type", JStr "object")])]> ∅) ]);
      try reflexivity.
    constructor; [|constructor].
    exists (<["name" := VStr "fetch"]>
              (<["parameters" := VJson (JDict [("type", JStr "object")])]> ∅)).
    split; reflexivity.
  - by vm_compute.
Defined.

Lemma extends_store (h h' : list obj) (l : nat) (o : obj) :
  extends h h' → length h ≤ l → extends h (<[l := o]> h').
Proof.
  intros Hext Hl l' o' Hl'. rewrite list_lookup_insert_ne; [by apply Hext|].
  apply lookup_lt_Some in Hl'. lia.
Qed.

Ltac extends_solve :=
  repeat first
    [ assumption
    | apply extends_refl
    | apply extends_alloc
    | apply extends_store; [|lia]
    | eapply extends_trans; [|apply extends_alloc] ].

Lemma openai_func_to_anthropic_extends (h : list obj) (f : val) (h1 : list obj) :
  extends h h1 →
  post (openai_func_to_anthropic f) h1 (λ r h', extends h h' ∧ ∀ y : val, r = Ok y → True).
Proof.
  intros Hext. pose proof (extends_length _ _ Hext) as Hlen.
  unfold openai_func_to_anthropic.
  apply post_bind_dict_copy; [by split|]. intros l d -> Hl.
  apply post_bind_dict_pop; [intros; split; [extends_solve|done]|].
  intros l1 d1 x [= <-] Hl1 Hx.
  apply post_bind_dict_setitem; [intros; split; [extends_solve|done]|].
  intros l2 d2 [= <-] Hl2. apply post_ret. split; [extends_solve|done].
Qed.

(** X12: Lines 107-120 of [create] change no object that existed before them,
    whatever the outcome: every write goes to the copy of the request or to
    the copies of the declarations. What [create] changes in the request of
    the caller it changes before it takes the copy. *)
Theorem create_outbound_frame (TOOL_ENABLED : bool) (params : val) (h : list obj) :
  extends h (create_outbound TOOL_ENABLED params h).2.
Proof.
  change (post (create_outbound TOOL_ENABLED params) h (λ _ h', extends h h')).
  unfold create_outbound.
  apply post_bind_read; [destruct TOOL_ENABLED; eauto with reads | intros; extends_solve |].
  intros has_functions.
  apply post_bind_dict_copy; [intros; extends_solve|]. intros l d -> Hl.
  apply post_bind_dict_setitem; [intros; extends_solve|]. intros l1 d1 [= <-] Hl1.
  apply post_bind_dict_pop; [intros; extends_solve|]. intros l2 d2 x [= <-] Hl2 Hx.
  apply post_bind_read; [eauto with reads | intros; extends_solve |].
  intros max_tokens.
  apply post_bind_dict_setitem; [intros; extends_solve|].
  intros l3 d3 [= <-] Hl3.
  apply post_bind_read; [eauto with reads | intros; extends_solve |].
  intros has.
  eapply post_seq with (I := λ _ h', extends h h').
  - destruct has; [|apply post_ret; extends_solve].
    apply post_bind_dict_pop; [intros; extends_solve|].
    intros l4 d4 y [= <-] Hl4 Hy.
    apply post_bind_read; [eauto with reads | intros; extends_solve |].
    intros configs.
    eapply post_seq.
    + apply post_list_comprehension with (I := extends h) (P := λ _, True).
      * extends_solve.
      * intros f h1 Hh1. by apply openai_func_to_anthropic_extends.
    + by intros e h1 [? _].
    + intros configs' h1 [Hh1 _]. pose proof (extends_length _ _ Hh1) as Hlen1.
      apply post_bind_new_list. apply post_tail.
      apply post_bind_dict_setitem; [intros; extends_solve|].
      intros l5 d5 [= <-] Hl5. apply post_ret. extends_solve.
  - done.
  - intros [] h1 Hh1. by apply post_ret.
Qed.

(** ** Requests that [create] cannot translate *)

Lemma run_list_last_empty (l : nat) (h : list obj) :
  h !! l = Some (OList []) → list_last (VRef l) h = (Raise IndexError, h).
Proof. intros Hl. unfold list_last. by rewrite run_bind, (run_as_list _ _ _ _ Hl). Qed.

Lemma pop_invalid_message_keys_empty (model_fields : gset string) (lr : nat) (h : list obj) :
  h !! lr = Some (OList []) →
  pop_invalid_message_keys model_fields (VRef lr) h = (Raise IndexError, h ++ [OList []]).
Proof.
  intros Hlr. unfold pop_invalid_message_keys. mstep. cbn [list_comprehension].
  do 2 mstep. rewrite run_bind, (run_list_last_empty lr); [done|].
  by apply lookup_app_l_Some.
Qed.

(** X13: A request without "messages" raises [KeyError], and a request whose
    list of messages is empty raises [IndexError] (from [messages[-1]] in
    [pop_invalid_message_keys]); in both cases the transport is not
    reached, whether or not the request has "model_client_cls". *)
Theorem create_without_turns (model_fields : gset string) (TOOL_ENABLED : bool)
    (completions_create : completions → val → M Response) (self : AnthropicClient)
    (p : nat) (h : list obj) (d : gmap string val) :
  h !! p = Some (ODict d) →
  d !! "tools" = None →
  (d !! "messages" = None →
   create model_fields TOOL_ENABLED completions_create self (VRef p) h
   = (Raise (KeyError "messages"), h)) ∧
  (∀ lr, d !! "messages" = Some (VRef lr) → h !! lr = Some (OList []) →
         create model_fields TOOL_ENABLED completions_create self (VRef p) h
         = (Raise IndexError, h ++ [OList []; OList []])).
Proof.
  intros Hp Htools.
  assert (create_functions (VRef p) h = (Ok tt, h)) as Hfun.
  { unfold create_functions. mstep.
    by rewrite bool_decide_false by (rewrite Htools; intros [? ?]; done). }
  split.
  - intros Hmsg. unfold create, create_request.
    rewrite !run_bind, Hfun. unfold create_messages. by mstep.
  - intros lr Hmsg Hlr. unfold create, create_request.
    rewrite !run_bind, Hfun. unfold create_messages. do 2 mstep.
    rewrite run_bind, (pop_invalid_message_keys_empty model_fields lr);
      [|by apply lookup_app_l_Some].
    by rewrite <-app_assoc.
Qed.

Lemma create_without_turns_sample :
  create message_fields true (λ _ _, raise TypeError) sample_client (VRef 0)
    [ODict ∅; OList []; ODict (<["messages" := VRef 1]> ∅)]
  = (Raise (KeyError "messages"), [ODict ∅; OList []; ODict (<["messages" := VRef 1]> ∅)]) ∧
  create message_fields true (λ _ _, raise TypeError) sample_client (VRef 2)
    [ODict ∅; OList []; ODict (<["messages" := VRef 1]> ∅)]
  = (Raise IndexError,
     [ODict ∅; OList []; ODict (<["messages" := VRef 1]> ∅)] ++ [OList []; OList []]).
Proof.
  split.
  - by apply (create_without_turns message_fields true (λ _ _, raise TypeError)
                sample_client 0 [ODict ∅; OList []; ODict (<["messages" := VRef 1]> ∅)] ∅).
  - by apply (create_without_turns message_fields true (λ _ _, raise TypeError)
                sample_client 2 [ODict ∅; OList []; ODict (<["messages" := VRef 1]> ∅)]
                (<["messages" := VRef 1]> ∅)) with (lr := 1).
Defined.

(** ** A turn that carries a function_call marker *)

Lemma create_loop_body_marked (self : AnthropicClient) (params : val)
    (lr lp lm lo i : nat) (h : list obj) (ms ps : list val)
    (dold dm dc : gmap string val) (r tu : val) :
  h !! _last_tooluse_status self = Some (ODict dc) →
  dc !! "tool_use" = Some tu →
  h !! lr = Some (OList ms) →
  ms !! i = Some (VRef lo) →
  h !! lo = Some (ODict dold) →
  is_Some (dold !! "function_call") →
  h !! lm = Some (ODict dm) →
  dm !! "role" = Some r →
  val_eq_str r "system" = false →
  val_eq_str r "function" = false →
  h !! lp = Some (OList ps) →
  create_loop_body self params (VRef lr) (VRef lp) i (VRef lm) h =
    match dc !! "think" with
    | Some think =>
        (Ok tt,
         <[lp := OList (ps ++ [VRef (length h + 2)])]>
           (h ++ [ OList [VRef (length h + 1); tu];
                   ODict (<["type" := VStr "text"]> (<["text" := think]> ∅));
                   ODict (<["role" := VStr "assistant"]>
                            (<["content" := VRef (length h)]> ∅)) ]))
    | None =>
        (Ok tt,
         <[lp := OList (ps ++ [VRef (length h + 1)])]>
           (h ++ [ OList [tu];
                   ODict (<["role" := VStr "assistant"]>
                            (<["content" := VRef (length h)]> ∅)) ]))
    end.
Proof.
  intros Hc Htu Hlr Hi Hlo Hmark Hlm Hrole Hsys Hfun Hlp.
  unfold create_loop_body. do 2 mstep. rewrite Hsys. mstep. rewrite Hfun. mstep.
  rewrite bool_decide_true by done. cbv iota.
  rewrite run_bind, (run_restore_last_tooluse_status self h dc tu Hc Htu).
  destruct (dc !! "think") as [think|]; cbv beta iota;
    by erewrite run_list_append by (by apply lookup_app_l_Some).
Qed.

(** X14: A run of the translation that returns has replaced every turn whose
    original carries a function_call marker (and whose role is neither
    "system" nor "function") by the assistant turn recalled from the cache:
    the list bound to "messages" refers to a new turn of role "assistant"
    whose content is a text block for the cached "think", when there is
    one, followed by the cached tool_use entry. The fields of the turn
    itself, its content included, are not sent. *)
Theorem marked_turn_translated (model_fields : gset string) (self : AnthropicClient)
    (p : nat) (h h' : list obj) (ds : list (gmap string val)) (i : nat)
    (d dc : gmap string val) (r tu : val) :
  request_messages h p = Some ds →
  ds !! i = Some d →
  d !! "role" = Some r →
  val_eq_str r "system" = false →
  val_eq_str r "function" = false →
  is_Some (d !! "function_call") →
  "role" ∈ model_fields →
  h !! _last_tooluse_status self = Some (ODict dc) →
  dc !! "tool_use" = Some tu →
  create_messages model_fields self (VRef p) h = (Ok tt, h') →
  ∃ dp' lp outs j lt lcnt,
    h' !! p = Some (ODict dp') ∧
    dp' !! "messages" = Some (VRef lp) ∧
    h' !! lp = Some (OList outs) ∧
    outs !! j = Some (VRef lt) ∧
    h' !! lt = Some (ODict (<["role" := VStr "assistant"]> (<["content" := VRef lcnt]> ∅))) ∧
    match dc !! "think" with
    | Some think =>
        ∃ lb, h' !! lcnt = Some (OList [VRef lb; tu]) ∧
              h' !! lb = Some (ODict (<["type" := VStr "text"]> (<["text" := think]> ∅)))
    | None => h' !! lcnt = Some (OList [tu])
    end.
Proof.
  intros (dp & lr & xs & Hp & Hmsg & Hlr & Hall)%request_messages_Some Hd Hrole Hsys Hfun
    Hmark Hr Hc Htu Hrun.
  destruct (Forall2_lookup_r _ _ _ _ _ Hall Hd) as (x & Hx & (lo & -> & Hlo)%turn_dict_Some).
  destruct (create_messages_split model_fields self p h dp lr xs ds i (VRef lo) d
              Hp Hmsg Hlr Hall Hx Hd h' Hrun)
    as (hi & hi' & lm & ps & Hi & Hlm & Hcopy & Hps & Hbody & Hp' & Hgrow & Hsame).
  destruct (keeps_dict_key _ _ _ _ _ _ _ _ Hi Hlo) as (d' & Hlo' & Hd');
    [apply lookup_lt_Some in Hlo; lia | tauto |].
  rewrite <-Hd' in Hmark by (by apply not_rebound).
  destruct (keeps_dict_key _ _ _ _ _ _ _ _ Hi Hc) as (dc' & Hc' & Hdc');
    [apply lookup_lt_Some in Hc; lia | tauto |].
  rewrite <-Hdc' in Htu by (by apply not_rebound).
  rewrite <-(Hdc' "think") by (by apply not_rebound).
  assert (hi !! lr = Some (OList xs)) as Hlr'.
  { eapply keeps_list; [done..| |tauto|congruence].
    apply lookup_lt_Some in Hlr. lia. }
  rewrite (create_loop_body_marked self (VRef p) lr (length h) lm lo i hi xs ps d'
             (filter (λ kv, kv.1 ∈ model_fields) d) dc' r tu) in Hbody;
    [|done..| by apply filter_fields_lookup | done | done | done].
  destruct Hp' as (dp' & Hp' & Hmsg').
  assert (length h < length hi) as Hlt by (by apply lookup_lt_Some in Hps).
  destruct (dc' !! "think") as [think|]; injection Hbody as <-.
  - destruct (Hgrow (ps ++ [VRef (length hi + 2)])) as (zs & Hzs); [heap_lookup|].
    exists dp', (length h), ((ps ++ [VRef (length hi + 2)]) ++ zs), (length ps),
      (length hi + 2), (length hi).
    split; [done|]. split; [done|]. split; [done|].
    split; [rewrite <-app_assoc; simpl; by rewrite list_lookup_middle|].
    rewrite !Hsame by (rewrite length_insert, length_app; simpl; lia).
    rewrite !list_lookup_insert_ne by lia.
    split.
    + rewrite lookup_app_r by lia. by replace (length hi + 2 - length hi) with 2 by lia.
    + exists (length hi + 1).
      rewrite !Hsame by (rewrite length_insert, length_app; simpl; lia).
      rewrite !list_lookup_insert_ne by lia. split.
      * by rewrite list_lookup_middle.
      * rewrite lookup_app_r by lia. by replace (length hi + 1 - length hi) with 1 by lia.
  - destruct (Hgrow (ps ++ [VRef (length hi + 1)])) as (zs & Hzs); [heap_lookup|].
    exists dp', (length h), ((ps ++ [VRef (length hi + 1)]) ++ zs), (length ps),
      (length hi + 1), (length hi).
    split; [done|]. split; [done|]. split; [done|].
    split; [rewrite <-app_assoc; simpl; by rewrite list_lookup_middle|].
    rewrite !Hsame by (rewrite length_insert, length_app; simpl; lia).
    rewrite !list_lookup_insert_ne by lia.
    split.
    + rewrite lookup_app_r by lia. by replace (length hi + 1 - length hi) with 1 by lia.
    + by rewrite list_lookup_middle.
Qed.

Lemma marked_turn_translated_sample :
  let h' := (create_messages message_fields sample_client (VRef 6) marked_store).2 in
  ∃ dp' lp outs j lt lcnt,
    h' !! 6 = Some (ODict dp') ∧
    dp' !! "messages" = Some (VRef lp) ∧
    h' !! lp = Some (OList outs) ∧
    outs !! j = Some (VRef lt) ∧
    h' !! lt = Some (ODict (<["role" := VStr "assistant"]> (<["content" := VRef lcnt]> ∅))) ∧
    ∃ lb, h' !! lcnt = Some (OList [VRef lb; VRef 1]) ∧
          h' !! lb = Some (ODict (<["type" := VStr "text"]>
                                    (<["text" := VStr "Let me look."]> ∅))).
Proof.
  refine (marked_turn_translated message_fields sample_client 6 marked_store _
            [ <["role" := VStr "user"]> (<["content" := VStr "What is the weather?"]> ∅);
              <["role" := VStr "assistant"]> (<["content" := VNone]>
                (<["function_call" := VJson (JDict [("name", JStr "search");
                                                     ("arguments", JStr "{}")])]> ∅));
              <["role" := VStr "function"]> (<["content" := VStr "42"]>
                (<["name" := VStr "search"]> ∅)) ]
            1
            (<["role" := VStr "assistant"]> (<["content" := VNone]>
               (<["function_call" := VJson (JDict [("name", JStr "search");
                                                    ("arguments", JStr "{}")])]> ∅)))
            (<["think" := VStr "Let me look."]> (<["tool_use" := VRef 1]> ∅))
            (VStr "assistant") (VRef 1) _ _ _ _ _ _ _ _ _ _);
    try reflexivity; try (by vm_compute).
  eexists. reflexivity.
Defined.

(** ** System turns and the number of outbound turns *)

Lemma post_bind_dict_getitem {B} v key (k : val → M B) h Q :
  (∀ e, Q (Raise e) h) →
  (∀ l d x, v = VRef l → h !! l = Some (ODict d) → d !! key = Some x → post (k x) h Q) →
  post (dict_getitem v key ≫= k) h Q.
Proof.
  intros He Hk. apply post_bind. unfold post, dict_getitem.
  destruct (as_dict_cases TypeError v h) as [(l & d & -> & Hl & E)|[e' E]].
  - rewrite run_bind, E. destruct (d !! key) as [x|] eqn:Ex; [|apply He].
    by eapply Hk.
  - rewrite run_bind, E. apply He.
Qed.

Lemma return_function_call_result_extends (self : AnthropicClient) (result : val)
    (h : list obj) :
  post (return_function_call_result self result) h (λ _ h', extends h h').
Proof.
  unfold return_function_call_result.
  apply post_bind_read; [eauto with reads | intros; extends_solve | intros tool_use].
  apply post_bind_read; [eauto with reads | intros; extends_solve | intros tool_use_id].
  apply post_bind_new_dict, post_bind_new_list, post_new_dict. extends_solve.
Qed.

Lemma restore_last_tooluse_status_extends (self : AnthropicClient) (h : list obj) :
  post (restore_last_tooluse_status self) h (λ _ h', extends h h').
Proof.
  unfold restore_last_tooluse_status.
  apply post_bind_new_list.
  apply post_bind_read; [eauto with reads | intros; extends_solve | intros has_think].
  eapply post_seq with (I := λ _ h', extends h h').
  - destruct has_think; [|apply post_ret; extends_solve].
    apply post_bind_read; [eauto with reads | intros; extends_solve | intros think].
    apply post_bind_new_dict, post_tail.
    apply post_bind_list_append; [intros; extends_solve|].
    intros l xs [= <-] Hl. apply post_ret. extends_solve.
  - done.
  - intros [] h1 Hext.
    apply post_bind_read; [eauto with reads | done | intros tool_use].
    apply post_bind_list_append; [done|]. intros l xs [= <-] Hl.
    apply post_new_dict. extends_solve.
Qed.

Section SystemTurns.

Context (self : AnthropicClient) (p lp : nat) (raw : val).

Hypothesis list_apart : lp ≠ p.

(** What the loop body does to the outbound list and to the request: a
    system turn binds "system" and emits nothing, any other turn emits one
    turn and leaves the request alone. *)
Lemma create_loop_body_effect (i lm : nat) (h : list obj) (ps : list val)
    (dp dm : gmap string val) :
  h !! lp = Some (OList ps) →
  h !! p = Some (ODict dp) →
  h !! lm = Some (ODict dm) →
  lm ≠ lp → lm ≠ p →
  post (create_loop_body self (VRef p) raw (VRef lp) i (VRef lm)) h (λ r h',
    r = Ok tt →
    if is_system_turn dm
    then h' !! lp = Some (OList ps) ∧ h' !! p = Some (ODict (hoist_system dp dm))
    else (∃ v, h' !! lp = Some (OList (ps ++ [v]))) ∧ h' !! p = Some (ODict dp)).
Proof.
  intros Hlp Hp Hlm Hne1 Hne2.
  pose proof (lookup_lt_Some _ _ _ Hlp) as Hlplt.
  pose proof (lookup_lt_Some _ _ _ Hp) as Hplt.
  assert (∀ (turn : val) (h1 : list obj),
            extends h h1 →
            post (list_append (VRef lp) turn) h1 (λ r h',
              r = Ok tt →
              (∃ v, h' !! lp = Some (OList (ps ++ [v]))) ∧ h' !! p = Some (ODict dp)))
    as Happend.
  { intros turn h1 Hext. apply post_tail, post_bind_list_append; [intros e [=]|].
    intros l xs [= <-] Hl. apply post_ret. intros _.
    rewrite (Hext _ _ Hlp) in Hl. injection Hl as <-.
    pose proof (lookup_lt_Some _ _ _ (Hext _ _ Hlp)).
    split; [exists turn; by apply list_lookup_insert_eq|].
    rewrite list_lookup_insert_ne by done. by apply Hext. }
  unfold create_loop_body.
  apply post_bind_read; [eauto with reads | intros e [=] | intros old].
  apply post_bind_dict_getitem; [intros e [=]|]. intros l d0 ro [= <-] Hl Hro.
  assert (d0 = dm) as -> by congruence. clear Hl.
  unfold is_system_turn, hoist_system, is_system_turn. rewrite Hro.
  destruct (val_eq_str ro "system") eqn:Hsys.
  - apply post_bind_dict_getitem; [intros e [=]|]. intros l d0 c [= <-] Hl Hc.
    assert (d0 = dm) as -> by congruence. clear Hl. rewrite Hc.
    apply post_tail, post_bind_dict_setitem; [intros e [=]|].
    intros l d0 [= <-] Hl. assert (d0 = dp) as -> by congruence.
    apply post_ret. intros _. split.
    + by rewrite list_lookup_insert_ne.
    + by apply list_lookup_insert_eq.
  - apply post_bind_read; [eauto with reads | intros e [=] | intros ro'].
    destruct (val_eq_str ro' "function").
    + apply post_bind_read; [eauto with reads | intros e [=] | intros c].
      eapply post_seq; [apply return_function_call_result_extends | by intros e h1 _ [=] |].
      intros turn h1 Hext. by apply Happend.
    + apply post_bind_read; [eauto with reads | intros e [=] | intros marked].
      destruct marked.
      * eapply post_seq; [apply restore_last_tooluse_status_extends | by intros e h1 _ [=] |].
        intros turn h1 Hext. by apply Happend.
      * apply post_bind_read; [eauto with reads | intros e [=] | intros c].
        destruct (val_eq_str c ""); [|by apply Happend, extends_refl].
        apply post_bind_dict_setitem; [intros e [=]|]. intros l d0 [= <-] Hl.
        apply post_tail, post_bind_list_append; [intros e [=]|].
        intros l xs [= <-] Hl'. apply post_ret. intros _.
        rewrite list_lookup_insert_ne in Hl' by done.
        assert (xs = ps) as -> by congruence.
        split.
        -- exists (VRef lm). apply list_lookup_insert_eq. by rewrite length_insert.
        -- by rewrite !list_lookup_insert_ne.
Qed.

Lemma run_hoist_loop (valid : list val) :
  ∀ (dms : list (gmap string val)) (i : nat) (h : list obj) (ps : list val)
    (dp : gmap string val) (h' : list obj),
    h !! lp = Some (OList ps) →
    h !! p = Some (ODict dp) →
    NoDup valid →
    Forall2 (λ v dm, ∃ l, v = VRef l ∧ l ≠ lp ∧ l ≠ p ∧ h !! l = Some (ODict dm)) valid dms →
    for_enumerate i valid (create_loop_body self (VRef p) raw (VRef lp)) h = (Ok tt, h') →
    ∃ zs, h' !! lp = Some (OList (ps ++ zs)) ∧
          length zs = length (filter (λ d, is_system_turn d = false) dms) ∧
          h' !! p = Some (ODict (foldl hoist_system dp dms)).
Proof.
  induction valid as [|v valid IH]; intros dms i h ps dp h' Hlp Hp Hnodup Hall Hrun.
  - apply Forall2_nil_inv_l in Hall as ->. simpl in Hrun. injection Hrun as <-.
    exists []. by rewrite app_nil_r.
  - apply Forall2_cons_inv_l in Hall as (dm & dms' & (l & -> & Hl1 & Hl2 & Hl) & Hall & ->).
    apply NoDup_cons in Hnodup as [Hnotin Hnodup].
    cbn [for_enumerate] in Hrun. rewrite run_bind in Hrun.
    pose proof (create_loop_body_effect i l h ps dp dm Hlp Hp Hl Hl1 Hl2) as Heff.
    pose proof (create_loop_body_keeps self p lp (λ l', l' = l) h
                  ltac:(by intros ? ->) raw lp i (VRef l) h
                  (keeps_refl _ _ _ _ _) ltac:(by right)
                  ltac:(exists l; split; [done|by right])) as Hkeeps.
    unfold post in Heff, Hkeeps.
    destruct (create_loop_body self (VRef p) raw (VRef lp) i (VRef l) h)
      as [[[]|e] h1] eqn:Ebody; [|done].
    simpl in Heff, Hkeeps. specialize (Heff eq_refl).
    destruct Hkeeps as (_ & Hold & _ & _).
    assert (Forall2 (λ v dm, ∃ l, v = VRef l ∧ l ≠ lp ∧ l ≠ p ∧ h1 !! l = Some (ODict dm))
              valid dms') as Hall1.
    { apply Forall2_same_length_lookup_2; [by eapply Forall2_length|].
      intros j v dm' Hv Hdm'.
      destruct (Forall2_lookup_lr _ _ _ _ _ _ Hall Hv Hdm') as (l' & -> & ? & ? & Hl').
      exists l'. split; [done|]. split; [done|]. split; [done|].
      rewrite Hold; [done|by eapply lookup_lt_Some|done..|].
      intros ->. apply Hnotin. by eapply list_elem_of_lookup_2. }
    rewrite filter_cons. cbn [foldl].
    destruct (is_system_turn dm) eqn:Hsys.
    + destruct Heff as [Hlp1 Hp1].
      destruct (IH dms' (S i) h1 ps _ h' Hlp1 Hp1 Hnodup Hall1 Hrun) as (zs & ? & ? & ?).
      exists zs. by rewrite decide_False by done.
    + destruct Heff as [[v Hlp1] Hp1].
      destruct (IH dms' (S i) h1 (ps ++ [v]) _ h' Hlp1 Hp1 Hnodup Hall1 Hrun)
        as (zs & Hzs & Hlen & Hp').
      exists (v :: zs). rewrite decide_True by done.
      split; [by rewrite <-app_assoc in Hzs|]. split; [simpl; by rewrite Hlen|].
      unfold hoist_system at 2. by rewrite Hsys.
Qed.

End SystemTurns.

Section Hoisting.

Context (model_fields : gset string).

Hypothesis role_field : "role" ∈ model_fields.
Hypothesis content_field : "content" ∈ model_fields.

Local Abbreviation keep_fields := (filter (λ kv : string * val, kv.1 ∈ model_fields)).

Lemma keep_fields_lookup (d : gmap string val) (k : string) :
  k ∈ model_fields → keep_fields d !! k = d !! k.
Proof.
  intros Hk. destruct (d !! k) as [x|] eqn:Hx.
  - by apply filter_fields_lookup.
  - apply map_lookup_filter_None. by left.
Qed.

Lemma is_system_turn_keep (d : gmap string val) :
  is_system_turn (keep_fields d) = is_system_turn d.
Proof. unfold is_system_turn. by rewrite keep_fields_lookup. Qed.

Lemma hoist_system_keep (dp : gmap string val) (ds : list (gmap string val)) :
  foldl hoist_system dp (keep_fields <$> ds) = foldl hoist_system dp ds.
Proof.
  revert dp. induction ds as [|d ds IH]; intros dp; [done|]. cbn [fmap list_fmap foldl].
  rewrite IH. f_equal. unfold hoist_system.
  by rewrite is_system_turn_keep, keep_fields_lookup.
Qed.

Lemma non_system_keep (ds : list (gmap string val)) :
  length (filter (λ d, is_system_turn d = false) (keep_fields <$> ds)) =
  length (filter (λ d, is_system_turn d = false) ds).
Proof.
  induction ds as [|d ds IH]; [done|]. cbn [fmap list_fmap].
  rewrite !filter_cons, is_system_turn_keep.
  destruct (decide (is_system_turn d = false)); simpl; by rewrite IH.
Qed.

End Hoisting.

Lemma create_messages_request (model_fields : gset string) (self : AnthropicClient)
    (p : nat) (h h' : list obj) (dp : gmap string val) (ds : list (gmap string val)) :
  h !! p = Some (ODict dp) →
  request_messages h p = Some ds →
  "role" ∈ model_fields →
  "content" ∈ model_fields →
  create_messages model_fields self (VRef p) h = (Ok tt, h') →
  ∃ outs,
    h' !! p = Some (ODict (<["messages" := VRef (length h)]> (foldl hoist_system dp ds))) ∧
    h' !! length h = Some (OList outs) ∧
    length outs = length (filter (λ d, is_system_turn d = false) ds).
Proof.
  intros Hp (dp0 & lr & xs & Hp0 & Hmsg & Hlr & Hall)%request_messages_Some Hr Hc.
  assert (dp0 = dp) as -> by congruence. clear Hp0.
  pose proof (lookup_lt_Some _ _ _ Hp) as Hplt.
  unfold create_messages. do 2 mstep.
  destruct xs as [|x0 xs0] eqn:Hxs.
  { rewrite run_bind, (pop_invalid_message_keys_empty model_fields lr);
      [done|by apply lookup_app_l_Some]. }
  rewrite <-Hxs in *. assert (xs ≠ []) as Hne by (by rewrite Hxs). clear Hxs x0 xs0.
  destruct (run_pop_invalid_message_keys model_fields lr xs ds (h ++ [OList []]))
    as (h1 & lv & valid & invalid & E & Hext & Hlv & Hvalid_list & Hnodup & Hvalid).
  { by apply lookup_app_l_Some. }
  { eapply Forall2_impl; [done|]. intros ? ? ?.
    by eapply turn_dict_extends; [apply extends_alloc|]. }
  { done. }
  rewrite run_bind, E. cbv beta iota. mstep.
  rewrite length_app in Hlv, Hvalid. simpl in Hlv, Hvalid.
  assert (h1 !! length h = Some (OList [])) as Hlp1.
  { apply Hext. by rewrite list_lookup_middle. }
  assert (h1 !! p = Some (ODict dp)) as Hp1.
  { apply Hext. by apply lookup_app_l_Some. }
  rewrite run_bind.
  destruct (for_enumerate 0 valid
              (create_loop_body self (VRef p) (VRef lr) (VRef (length h))) h1)
    as [[[]|e] h2] eqn:Eloop; [|done].
  destruct (run_hoist_loop self p (length h) (VRef lr) ltac:(lia) valid
              ((filter (λ kv : string * val, kv.1 ∈ model_fields)) <$> ds) 0 h1 [] dp h2
              Hlp1 Hp1 Hnodup) as (outs & Houts & Hlen & Hp2); [|done|].
  { apply Forall2_fmap_r. eapply Forall2_impl; [done|].
    intros v d (l & -> & Hl & Hd). exists l. split; [done|].
    split; [lia|]. split; [lia|done]. }
  rewrite hoist_system_keep in Hp2 by done. rewrite non_system_keep in Hlen by done.
  erewrite run_dict_setitem by done. intros [= <-].
  exists outs. split; [by apply list_lookup_insert_eq; eapply lookup_lt_Some|].
  split; [|done]. by rewrite list_lookup_insert_ne by lia.
Qed.

(** X15: What a run of the translation that returns leaves in the request of
    the caller: "messages" is bound to a new list with exactly one turn for
    every turn that is not a system turn; "system" is bound to the content
    of the last system turn, when there is one; every other key of the
    request, "functions" included, is as it was. System turns are never
    sent as messages. *)
Theorem system_turns_hoisted (model_fields : gset string) (self : AnthropicClient)
    (p : nat) (h h' : list obj) (dp : gmap string val) (ds : list (gmap string val)) :
  h !! p = Some (ODict dp) →
  request_messages h p = Some ds →
  "role" ∈ model_fields →
  "content" ∈ model_fields →
  create_messages model_fields self (VRef p) h = (Ok tt, h') →
  ∃ outs,
    h' !! p = Some (ODict (<["messages" := VRef (length h)]> (foldl hoist_system dp ds))) ∧
    h' !! length h = Some (OList outs) ∧
    length outs = length (filter (λ d, is_system_turn d = false) ds).
Proof. apply create_messages_request. Qed.

Lemma system_turns_hoisted_sample :
  let h' := (create_messages message_fields sample_client (VRef 6) sample_store).2 in
  ∃ outs,
    h' !! 6 = Some (ODict (<["messages" := VRef 7]> (<["system" := VStr "be brief"]>
                          (<["messages" := VRef 5]>
                          (<["model" := VStr "claude-3-opus-20240229"]>
                          (<["model_client_cls" := VStr "AnthropicClient"]> ∅)))))) ∧
    h' !! 7 = Some (OList outs) ∧
    length outs = 2.
Proof.
  refine (system_turns_hoisted message_fields sample_client 6 sample_store _
            (<["messages" := VRef 5]> (<["model" := VStr "claude-3-opus-20240229"]>
               (<["model_client_cls" := VStr "AnthropicClient"]> ∅)))
            [ <["role" := VStr "system"]> (<["content" := VStr "be brief"]> ∅);
              <["role" := VStr "function"]> (<["content" := VStr "42"]>
                (<["name" := VStr "search"]> ∅));
              <["role" := VStr "user"]> (<["content" := VStr ""]> ∅) ]
            _ _ _ _ _);
    try reflexivity; by vm_compute.
Defined.

(** ** A whole call of [create] *)

Lemma hoist_system_plain (model_fields : gset string) (dp : gmap string val)
    (ds : list (gmap string val)) :
  Forall (target_shaped model_fields) ds → foldl hoist_system dp ds = dp.
Proof.
  induction 1 as [|d ds Hd _ IH]; [done|]. cbn [foldl].
  destruct Hd as (_ & _ & r & c & Hr & Hsys & _).
  unfold hoist_system at 2, is_system_turn. by rewrite Hr, Hsys.
Qed.

(** X16: For a request without tool or function declarations whose turns are
    all in the shape of the target protocol, [create] is one call of the
    transport: the plain endpoint is called with a new dict of keyword
    arguments, the request with "messages" bound to the list of the
    translated turns (which have the fields and values of the turns given),
    "stream" [False], "max_tokens" defaulted and "model_client_cls"
    removed. What the transport returns or raises is the outcome of
    [create]. In the request of the caller only "messages" is rebound. *)
Theorem create_sends_plain_conversation (model_fields : gset string) (TOOL_ENABLED : bool)
    (completions_create : completions → val → M Response) (self : AnthropicClient)
    (p : nat) (h : list obj) (dp : gmap string val) (ds : list (gmap string val))
    (cls : val) :
  h !! p = Some (ODict dp) →
  request_messages h p = Some ds →
  ds ≠ [] →
  Forall (target_shaped model_fields) ds →
  dp !! "tools" = None →
  dp !! "functions" = None →
  dp !! "model_client_cls" = Some cls →
  ∃ h1,
    create model_fields TOOL_ENABLED completions_create self (VRef p) h =
      completions_create PlainMessages (VRef (length h1))
        (h1 ++ [ODict (outbound_kwargs (<["messages" := VRef (length h)]> dp))]) ∧
    h1 !! p = Some (ODict (<["messages" := VRef (length h)]> dp)) ∧
    request_messages h1 p = Some ds.
Proof.
  intros Hp Hreq Hne Hshaped Htools Hfuns Hcls.
  destruct (create_messages_plain model_fields self p h ds Hreq Hne Hshaped)
    as (h1 & Hrun & Hreq1).
  assert ("role" ∈ model_fields ∧ "content" ∈ model_fields) as [Hr Hc].
  { destruct ds as [|d ds']; [done|]. apply Forall_cons in Hshaped as [Hd _].
    destruct Hd as (Hdom & _ & r & c & Hrole & _ & _ & Hcontent & _).
    split; apply Hdom; by eapply elem_of_dom_2. }
  destruct (create_messages_request model_fields self p h h1 dp ds Hp Hreq Hr Hc Hrun)
    as (outs & Hp1 & _).
  rewrite (hoist_system_plain model_fields) in Hp1 by done.
  exists h1. split; [|done].
  assert (create_functions (VRef p) h = (Ok tt, h)) as Hfun.
  { unfold create_functions. mstep.
    by rewrite bool_decide_false by (rewrite Htools; intros [? ?]; done). }
  unfold create, create_request. rewrite !run_bind, Hfun. cbv beta iota.
  rewrite run_bind, Hrun. cbv beta iota.
  by rewrite (run_create_outbound_plain TOOL_ENABLED p h1
                (<["messages" := VRef (length h)]> dp) cls Hp1)
    by (by rewrite lookup_insert_ne).
Qed.

Lemma create_sends_plain_conversation_sample :
  ∃ h1,
    create message_fields true (λ c kw, raise (KeyError "transport")) plain_client (VRef 3)
      plain_store =
    (λ c kw, raise (KeyError "transport")) PlainMessages (VRef (length h1))
      (h1 ++ [ODict (outbound_kwargs
                       (<["messages" := VRef (length plain_store)]>
                          (<["messages" := VRef 2]>
                          (<["model" := VStr "claude-3-opus-20240229"]>
                          (<["model_client_cls" := VStr "AnthropicClient"]> ∅)))))]) ∧
    h1 !! 3 = Some (ODict (<["messages" := VRef (length plain_store)]>
                             (<["messages" := VRef 2]>
                             (<["model" := VStr "claude-3-opus-20240229"]>
                             (<["model_client_cls" := VStr "AnthropicClient"]> ∅))))) ∧
    request_messages h1 3 = Some plain_turns.
Proof.
  apply (create_sends_plain_conversation message_fields true
           (λ c kw, raise (KeyError "transport")) plain_client 3 plain_store
           (<["messages" := VRef 2]> (<["model" := VStr "claude-3-opus-20240229"]>
              (<["model_client_cls" := VStr "AnthropicClient"]> ∅)))
           plain_turns (VStr "AnthropicClient")); try reflexivity; try discriminate.
  repeat constructor; try (apply (bool_decide_unpack _); by vm_compute);
    eexists _, _; repeat split; reflexivity.
Defined.

(** ** More on the cost calculator *)

Lemma float_of_million : ∃ m e, float_of_int 1000000 = Ok (S754_finite false m e).
Proof. vm_compute. eauto. Qed.

Lemma cost_add_no_tokens (price_per_million : gmap string number) (key : string)
    (price : number) :
  price_per_million !! key = Some price →
  finite_price price →
  cost_add price_per_million (PFloat (S754_zero false)) key 0 = Ok (PFloat (S754_zero false)).
Proof.
  intros Hkey Hprice. unfold cost_add. rewrite Hkey.
  destruct float_of_million as (m & e & Hmillion).
  destruct price as [z|[s|s| |s m' e']]; try done.
  - cbn [py_mul py_float mbind result_mbind result_bind].
    change (float_of_int 0) with (Ok (S754_zero false)).
    cbn [py_truediv py_float mbind result_mbind result_bind SFmul].
    rewrite Hmillion. cbn [mbind result_mbind result_bind is_zero].
    by destruct s.
  - cbn [py_mul py_float mbind result_mbind result_bind].
    change (float_of_int 0) with (Ok (S754_zero false)).
    cbn [py_truediv py_float mbind result_mbind result_bind SFmul].
    rewrite Hmillion. cbn [mbind result_mbind result_bind is_zero].
    by destruct s.
Qed.

(** X17: A response without usage costs nothing: for a listed model with finite
    prices, of any sign, [cost] returns the float 0.0 (for a model that is
    not listed it returns the int 0). *)
Theorem cost_without_usage (ANTHROPIC_PRICE1MM : gmap string (gmap string number))
    (self : AnthropicClient) (response : Response) (m : string)
    (price : gmap string number) (pin pout : number) :
  model self = VStr m →
  ANTHROPIC_PRICE1MM !! m = Some price →
  price !! "input" = Some pin →
  price !! "output" = Some pout →
  finite_price pin →
  finite_price pout →
  usage response = None →
  cost ANTHROPIC_PRICE1MM self response = Ok (PFloat (S754_zero false)).
Proof.
  intros Hmodel Hprice Hin Hout Hpin Hpout Husage.
  unfold cost, tokens_input, tokens_output. rewrite Hmodel, Hprice, Husage.
  rewrite (cost_add_no_tokens price "input" pin Hin Hpin).
  cbn [mbind result_mbind result_bind].
  by rewrite (cost_add_no_tokens price "output" pout Hout Hpout).
Qed.

Lemma cost_without_usage_sample :
  cost sample_prices sample_client
    {| content := []; usage := None; response_model := "claude-3-opus-20240229" |}
  = Ok (PFloat (S754_zero false)).
Proof.
  by apply (cost_without_usage sample_prices sample_client _ "claude-3-opus-20240229"
              (<["input" := PFloat (binary_normalize prec emax 15 0 false)]>
                 (<["output" := PFloat (binary_normalize prec emax 75 0 false)]> ∅))
              (PFloat (binary_normalize prec emax 15 0 false))
              (PFloat (binary_normalize prec emax 75 0 false))).
Defined.

Lemma cost_add_outcome (price_per_million : gmap string number) (f : spec_float)
    (key : string) (value : Z) :
  match cost_add price_per_million (PFloat f) key value with
  | Ok v => ∃ g, v = PFloat g
  | Raise e => e = KeyError key ∨ e = OverflowError
  end.
Proof.
  unfold cost_add. destruct (price_per_million !! key) as [[z|g]|]; [| |by left].
  - cbn [py_mul py_truediv mbind result_mbind result_bind]. unfold int_truediv.
    change (1000000 =? 0)%Z with false. cbv iota.
    destruct (value * z =? 0)%Z.
    + cbn [mbind result_mbind result_bind py_add py_float]. eauto.
    + destruct (SFdiv_core_binary _ _ _ _ _ _) as [[q e] l].
      destruct (binary_round_aux _ _ _ _ _ _);
        cbn [mbind result_mbind result_bind py_add py_float]; eauto.
  - cbn [py_mul py_float mbind result_mbind result_bind]. unfold float_of_int at 1.
    destruct float_of_million as (m & e & Hmillion).
    destruct (binary_normalize prec emax value 0 false);
      cbn [mbind result_mbind result_bind py_truediv py_float]; eauto;
      rewrite Hmillion; cbn [mbind result_mbind result_bind is_zero py_add py_float]; eauto.
Qed.

(** X18: [cost] returns the int 0 or a float, and the only exceptions it can
    raise are [TypeError] (a model identifier that cannot be a key),
    [KeyError] for a price entry without "input" or "output", and
    [OverflowError] (a token count too large for a float): it never
    divides by zero. *)
Theorem cost_outcomes (ANTHROPIC_PRICE1MM : gmap string (gmap string number))
    (self : AnthropicClient) (response : Response) :
  match cost ANTHROPIC_PRICE1MM self response with
  | Ok v => v = PInt 0 ∨ ∃ f, v = PFloat f
  | Raise e => e = TypeError ∨ e = OverflowError ∨
               e = KeyError "input" ∨ e = KeyError "output"
  end.
Proof.
  unfold cost. destruct (model self) as [| | |m| |]; eauto.
  destruct (ANTHROPIC_PRICE1MM !! m) as [price|]; [|eauto].
  pose proof (cost_add_outcome price (S754_zero false) "input" (tokens_input response)) as H1.
  destruct (cost_add price _ "input" _) as [v1|e1];
    cbn [mbind result_mbind result_bind]; [|destruct H1 as [-> | ->]; auto].
  destruct H1 as [f1 ->].
  pose proof (cost_add_outcome price f1 "output" (tokens_output response)) as H2.
  destruct (cost_add price _ "output" _) as [v2|e2];
    cbn [mbind result_mbind result_bind]; [auto|].
  destruct H2 as [-> | ->]; auto.
Qed.

(** ** Splitting the fields of the turns *)

(** X19: [pop_invalid_message_keys] leaves its argument alone and returns new
    dicts only: one per turn with the fields of the message schema, in the
    order of the turns, and one with the remaining fields of the last turn.
    The two dicts made for the last turn have no key in common and together
    hold the last turn again. *)
Theorem pop_invalid_message_keys_splits (model_fields : gset string) (lr : nat)
    (xs : list val) (ds : list (gmap string val)) (dlast : gmap string val)
    (h : list obj) :
  h !! lr = Some (OList xs) →
  Forall2 (λ x d, turn_dict h x = Some d) xs ds →
  last ds = Some dlast →
  ∃ h' lv li valid,
    pop_invalid_message_keys model_fields (VRef lr) h = (Ok (VRef lv, VRef li), h') ∧
    extends h h' ∧
    length h ≤ lv ∧ length h ≤ li ∧
    h' !! lv = Some (OList valid) ∧
    Forall2 (λ v d, ∃ l, v = VRef l ∧ length h ≤ l ∧
                         h' !! l = Some (ODict (filter (λ kv, kv.1 ∈ model_fields) d)))
            valid ds ∧
    h' !! li = Some (ODict (filter (λ kv, kv.1 ∉ model_fields) dlast)) ∧
    filter (λ kv, kv.1 ∈ model_fields) dlast ##ₘ filter (λ kv, kv.1 ∉ model_fields) dlast ∧
    filter (λ kv, kv.1 ∈ model_fields) dlast ∪ filter (λ kv, kv.1 ∉ model_fields) dlast
      = dlast.
Proof.
  intros Hlr Hxs Hlast. unfold pop_invalid_message_keys. mstep.
  destruct (run_filter_comprehension model_fields xs ds h Hxs)
    as (h1 & valid & E & Hext & _ & Hvalid).
  rewrite run_bind, E. cbv beta iota. mstep.
  apply last_Some in Hlast as (ds' & ->).
  apply Forall2_app_inv_r in Hxs
    as (xs' & xl & _ & (x & ? & (m & -> & Hm)%turn_dict_Some & ->%Forall2_nil_inv_r & ->
                         )%Forall2_cons_inv_r & ->).
  pose proof (Hext _ _ Hlr) as Hlr1. pose proof (Hext _ _ Hm) as Hm1.
  pose proof (extends_length _ _ Hext) as Hlen.
  erewrite run_bind, run_list_last; [|heap_lookup|apply last_snoc]. cbv beta iota.
  do 3 mstep.
  eexists _, (length h1), (length h1 + 1), valid. split.
  { rewrite length_app. simpl. reflexivity. }
  split; [extends_solve|]. split; [done|]. split; [lia|].
  split; [rewrite <-app_assoc; by apply list_lookup_middle|].
  split.
  { eapply Forall2_impl; [done|]. intros v d' (l & -> & Hl & Hd').
    exists l. split; [done|]. split; [done|].
    rewrite <-app_assoc. by apply lookup_app_l_Some. }
  split.
  { rewrite lookup_app_r by (rewrite length_app; simpl; lia).
    rewrite length_app. simpl. by rewrite Nat.sub_diag. }
  split; [apply map_disjoint_filter_complement | apply map_filter_union_complement].
Qed.

Lemma pop_invalid_message_keys_splits_sample :
  ∃ h' lv li valid,
    pop_invalid_message_keys message_fields (VRef 5) marked_store
      = (Ok (VRef lv, VRef li), h') ∧
    extends marked_store h' ∧
    length marked_store ≤ lv ∧ length marked_store ≤ li ∧
    h' !! lv = Some (OList valid) ∧
    Forall2 (λ v d, ∃ l, v = VRef l ∧ length marked_store ≤ l ∧
                         h' !! l = Some (ODict (filter (λ kv, kv.1 ∈ message_fields) d)))
            valid
            [ <["role" := VStr "user"]> (<["content" := VStr "What is the weather?"]> ∅);
              <["role" := VStr "assistant"]> (<["content" := VNone]>
                (<["function_call" := VJson (JDict [("name", JStr "search");
                                                     ("arguments", JStr "{}")])]> ∅));
              <["role" := VStr "function"]> (<["content" := VStr "42"]>
                (<["name" := VStr "search"]> ∅)) ] ∧
    h' !! li = Some (ODict (filter (λ kv, kv.1 ∉ message_fields)
                              (<["role" := VStr "function"]> (<["content" := VStr "42"]>
                                 (<["name" := VStr "search"]> ∅))))) ∧
    filter (λ kv, kv.1 ∈ message_fields)
      (<["role" := VStr "function"]> (<["content" := VStr "42"]>
         (<["name" := VStr "search"]> (∅ : gmap string val))))
    ##ₘ filter (λ kv, kv.1 ∉ message_fields)
      (<["role" := VStr "function"]> (<["content" := VStr "42"]>
         (<["name" := VStr "search"]> ∅))) ∧
    filter (λ kv, kv.1 ∈ message_fields)
      (<["role" := VStr "function"]> (<["content" := VStr "42"]>
         (<["name" := VStr "search"]> (∅ : gmap string val))))
    ∪ filter (λ kv, kv.1 ∉ message_fields)
      (<["role" := VStr "function"]> (<["content" := VStr "42"]>
         (<["name" := VStr "search"]> ∅)))
    = <["role" := VStr "function"]> (<["content" := VStr "42"]>
         (<["name" := VStr "search"]> ∅)).
Proof.
  apply (pop_invalid_message_keys_splits message_fields 5 [VRef 2; VRef 3; VRef 4]).
  - reflexivity.
  - repeat constructor.
  - reflexivity.
Defined.

(** ** A new client *)

(** X20: [__init__] reads [config["model"]] first: a configuration without
    "model" raises [KeyError]. A client that was constructed has a cache of
    its own, a new and empty dict, so both recall operations of a new
    client raise [KeyError "tool_use"]; nothing that existed is changed. *)
Theorem new_client_has_empty_cache (config : val) (h : list obj) :
  (∀ l d, config = VRef l → h !! l = Some (ODict d) → d !! "model" = None →
          AnthropicClient__init__ config h = (Raise (KeyError "model"), h)) ∧
  (∀ self h',
     AnthropicClient__init__ config h = (Ok self, h') →
     extends h h' ∧
     length h ≤ _last_tooluse_status self ∧
     h' !! _last_tooluse_status self = Some (ODict ∅) ∧
     (∀ result, return_function_call_result self result h'
                = (Raise (KeyError "tool_use"), h')) ∧
     ∃ h2, restore_last_tooluse_status self h' = (Raise (KeyError "tool_use"), h2)).
Proof.
  split.
  - intros l d -> Hl Hmodel. unfold AnthropicClient__init__. by mstep.
  - intros self h'. unfold AnthropicClient__init__.
    rewrite run_bind. pose proof (reads_dict_getitem config "model" h) as Hread.
    destruct (dict_getitem config "model" h) as [[m|e] h1]; simpl in Hread; subst h1; [|done].
    rewrite run_bind, run_alloc. cbv beta iota. rewrite run_ret. intros [= <- <-]. simpl.
    assert ((h ++ [ODict ∅]) !! length h = Some (ODict ∅)) as Hc
      by (by apply list_lookup_middle).
    split; [apply extends_alloc|]. split; [done|]. split; [done|]. split.
    + intros result.
      by apply (return_result_unprimed
                  {| model := m; _last_tooluse_status := length h |} _ ∅).
    + by apply (restore_unprimed {| model := m; _last_tooluse_status := length h |} _ ∅).
Qed.

(** ** The outbound turns, in order *)

Lemma emitted_within_transport (F F' : nat → Prop) (model_fields : gset string)
    (dc : gmap string val) (T : option val) (h h' : list obj) (d : gmap string val)
    (v : val) :
  (∀ l, F l → F' l ∧ h' !! l = h !! l) →
  emitted_within F model_fields dc T h d v →
  emitted_within F' model_fields dc T h' d v.
Proof.
  intros HF (lt & r & -> & Hlt & Hr & Hcase). exists lt, r.
  assert (∀ l, F l → h' !! l = h !! l) as Heq by (intros; by apply HF).
  split; [done|]. split; [by apply HF|]. split; [done|].
  destruct (val_eq_str r "function"); [|case_bool_decide].
  - destruct Hcase as (c & id & lb & lk & ? & ? & Hlb & Hlk & H1 & H2 & H3).
    exists c, id, lb, lk. split; [done|]. split; [done|].
    split; [by apply HF|]. split; [by apply HF|].
    by rewrite !Heq by done.
  - destruct Hcase as (tu & lcnt & ? & Hlcnt & H1 & H2).
    exists tu, lcnt. split; [done|]. split; [by apply HF|].
    rewrite !Heq by done. split; [done|].
    destruct (dc !! "think") as [think|]; [|done].
    destruct H2 as (lb & Hlb & H2 & H3). exists lb. split; [by apply HF|].
    by rewrite !Heq by done.
  - destruct Hcase as (c & ? & H1). exists c. split; [done|].
    by rewrite Heq.
Qed.

Section Emission.

Context (model_fields : gset string) (self : AnthropicClient).
Context (p lr : nat) (h0 : list obj) (dp0 dc : gmap string val) (xs : list val).

Hypothesis role_field : "role" ∈ model_fields.
Hypothesis content_field : "content" ∈ model_fields.
Hypothesis request_dict : h0 !! p = Some (ODict dp0).
Hypothesis messages_list : h0 !! lr = Some (OList xs).
Hypothesis cache_dict : h0 !! _last_tooluse_status self = Some (ODict dc).
Hypothesis cache_closed : ∀ v, dc !! "tool_use" = Some v → is_Some (turn_dict h0 v).

Local Abbreviation keep_fields := (filter (λ kv : string * val, kv.1 ∈ model_fields)).
Local Abbreviation K := rebound_keys.
Local Abbreviation lp := (length h0).
Local Abbreviation T := (remembered_id h0 dc).

(** The loop body, run on a turn that is not a system turn in a store that
    descends from [h0], either raises or appends the translation of the
    turn, built from the copy of the turn and from new objects. *)
Lemma create_loop_body_emits (i lm lo : nat) (d : gmap string val) (h h1 : list obj)
    (ps : list val) :
  keeps p K lp (λ _, False) h0 h →
  h !! lp = Some (OList ps) →
  h !! lm = Some (ODict (keep_fields d)) →
  length h0 < lm →
  xs !! i = Some (VRef lo) →
  h0 !! lo = Some (ODict d) →
  is_system_turn d = false →
  create_loop_body self (VRef p) (VRef lr) (VRef lp) i (VRef lm) h = (Ok tt, h1) →
  ∃ v, h1 !! lp = Some (OList (ps ++ [v])) ∧
       emitted_within (λ l, l = lm ∨ length h ≤ l < length h1) model_fields dc T h1 d v.
Proof.
  intros Hk Hlp Hlm Hfresh Hi Hlo Hsys.
  pose proof (lookup_lt_Some _ _ _ request_dict) as Hplt.
  pose proof (lookup_lt_Some _ _ _ messages_list) as Hlrlt.
  pose proof (lookup_lt_Some _ _ _ Hlo) as Hlolt.
  pose proof (lookup_lt_Some _ _ _ cache_dict) as Hclt.
  pose proof (lookup_lt_Some _ _ _ Hlp) as Hlplt.
  pose proof (lookup_lt_Some _ _ _ Hlm) as Hlmlt.
  assert (h !! lr = Some (OList xs)) as Hlr.
  { eapply keeps_list; [done..|lia|tauto|congruence]. }
  destruct (keeps_dict_key _ _ _ _ _ _ _ _ Hk Hlo) as (d' & Hlo' & Hd'); [lia|tauto|].
  destruct (keeps_dict_key _ _ _ _ _ _ _ _ Hk cache_dict) as (dc' & Hc' & Hdc');
    [lia|tauto|].
  pose proof (Hd' "function_call" ltac:(by apply not_rebound)) as Hmark.
  pose proof (Hdc' "tool_use" ltac:(by apply not_rebound)) as Htu'.
  pose proof (Hdc' "think" ltac:(by apply not_rebound)) as Hthink'.
  pose proof (keep_fields_lookup model_fields d "role" role_field) as Hrole'.
  pose proof (keep_fields_lookup model_fields d "content" content_field) as Hcontent'.
  unfold is_system_turn in Hsys.
  destruct (d !! "role") as [r|] eqn:Hrole.
  2:{ clear Hrole. unfold create_loop_body. do 2 mstep. intros [=]. }
  destruct (val_eq_str r "function") eqn:Hfun.
  - (* a turn of role "function" *)
    assert (r = VStr "function") as ->.
    { destruct r; try done. simpl in Hfun. by apply bool_decide_eq_true in Hfun as ->. }
    destruct (d !! "content") as [c|] eqn:Hcontent.
    2:{ clear Hrole Hcontent. unfold create_loop_body. do 2 mstep. rewrite Hsys. cbv iota.
        mstep. rewrite Hfun. cbv iota. mstep. intros [=]. }
    destruct (dc !! "tool_use") as [tu|] eqn:Htu.
    2:{ clear Hrole Hcontent. unfold create_loop_body. do 2 mstep. rewrite Hsys. cbv iota.
        mstep. rewrite Hfun. cbv iota. mstep.
        rewrite run_bind, (return_result_unprimed self h dc' Hc' Htu').
        intros [=]. }
    destruct (cache_closed tu eq_refl) as (dtu & (ltu & -> & Hltu)%turn_dict_Some).
    destruct (keeps_dict_key _ _ _ _ _ _ _ _ Hk Hltu) as (dtu' & Hltu' & Hdtu');
      [apply lookup_lt_Some in Hltu; lia|tauto|].
    pose proof (Hdtu' "id" ltac:(by apply not_rebound)) as Hid'.
    destruct (dtu !! "id") as [id|] eqn:Hid.
    2:{ clear Hrole Hcontent. unfold create_loop_body. do 2 mstep. rewrite Hsys. cbv iota.
        mstep. rewrite Hfun. cbv iota. mstep.
        rewrite run_bind. unfold return_function_call_result.
        rewrite run_bind, (run_dict_getitem _ _ _ _ _ Hc' Htu'). cbv beta iota.
        rewrite run_bind, (run_dict_getitem_missing _ _ _ _ Hltu' Hid'). intros [=]. }
    rewrite (create_loop_body_function self (VRef p) lr lp lm ltu i h xs ps (VRef lo)
               (keep_fields d) dc' dtu' id c) by done.
    intros [= <-]. exists (VRef (length h + 2)).
    split; [by apply list_lookup_insert_eq; rewrite length_app; lia|].
    exists (length h + 2), (VStr "function"). split; [done|].
    split; [right; rewrite length_insert, length_app; simpl; lia|].
    split; [done|]. rewrite Hfun.
    exists c, id, (length h + 1), (length h).
    split; [done|].
    split; [unfold remembered_id; rewrite Htu; simpl; rewrite Hltu; by simpl|].
    split; [right; rewrite length_insert, length_app; simpl; lia|].
    split; [right; rewrite length_insert, length_app; simpl; lia|].
    rewrite !list_lookup_insert_ne by lia.
    split; [|split].
    + rewrite lookup_app_r by lia. by replace (length h + 2 - length h) with 2 by lia.
    + rewrite lookup_app_r by lia. by replace (length h + 1 - length h) with 1 by lia.
    + rewrite lookup_app_r by lia. by rewrite Nat.sub_diag.
  - destruct (d !! "function_call") as [fc|] eqn:Hfc.
    + (* a turn that carries the marker *)
      destruct (dc !! "tool_use") as [tu|] eqn:Htu.
      2:{ clear Hrole. unfold create_loop_body. do 2 mstep. rewrite Hsys. cbv iota.
          mstep. rewrite Hfun. cbv iota. mstep.
          rewrite bool_decide_true by (by rewrite Hmark). cbv iota. rewrite run_bind.
          destruct (restore_unprimed self h dc' Hc' Htu') as [h2 ->]. intros [=]. }
      rewrite (create_loop_body_marked self (VRef p) lr lp lm lo i h xs ps d'
                 (keep_fields d) dc' r tu) by (done || by rewrite Hmark).
      rewrite Hthink'.
      destruct (dc !! "think") as [think|] eqn:Hthink; intros [= <-].
      * exists (VRef (length h + 2)).
        split; [by apply list_lookup_insert_eq; rewrite length_app; lia|].
        exists (length h + 2), r. split; [done|].
        split; [right; rewrite length_insert, length_app; simpl; lia|].
        split; [done|]. rewrite Hfun, bool_decide_true by done.
        exists tu, (length h). split; [done|].
        split; [right; rewrite length_insert, length_app; simpl; lia|].
        rewrite !list_lookup_insert_ne by lia.
        split.
        { rewrite lookup_app_r by lia. by replace (length h + 2 - length h) with 2 by lia. }
        rewrite Hthink. exists (length h + 1).
        split; [right; rewrite length_insert, length_app; simpl; lia|].
        rewrite !list_lookup_insert_ne by lia. split.
        { by rewrite list_lookup_middle. }
        rewrite lookup_app_r by lia. by replace (length h + 1 - length h) with 1 by lia.
      * exists (VRef (length h + 1)).
        split; [by apply list_lookup_insert_eq; rewrite length_app; lia|].
        exists (length h + 1), r. split; [done|].
        split; [right; rewrite length_insert, length_app; simpl; lia|].
        split; [done|]. rewrite Hfun, bool_decide_true by done.
        exists tu, (length h). split; [done|].
        split; [right; rewrite length_insert, length_app; simpl; lia|].
        rewrite !list_lookup_insert_ne by lia.
        split.
        { rewrite lookup_app_r by lia. by replace (length h + 1 - length h) with 1 by lia. }
        rewrite Hthink. by rewrite list_lookup_middle.
    + (* any other turn *)
      destruct (d !! "content") as [c|] eqn:Hcontent.
      2:{ clear Hrole Hcontent. unfold create_loop_body. do 2 mstep. rewrite Hsys. cbv iota.
          mstep. rewrite Hfun. cbv iota. mstep.
          rewrite bool_decide_false by (rewrite Hmark; intros [? ?]; done). cbv iota.
          mstep. intros [=]. }
      rewrite (create_loop_body_plain self (VRef p) lr lp lm lo i h xs ps d'
                 (keep_fields d) r c) by done.
      intros [= <-]. exists (VRef lm).
      split.
      { apply list_lookup_insert_eq. destruct (val_eq_str c ""); by rewrite ?length_insert. }
      exists lm, r. split; [done|]. split; [by left|]. split; [done|].
      rewrite Hfun, bool_decide_false by (rewrite Hfc; intros [? ?]; done).
      exists c. split; [done|].
      rewrite list_lookup_insert_ne by lia.
      destruct (val_eq_str c "").
      * by apply list_lookup_insert_eq.
      * rewrite Hlm. do 2 f_equal. symmetry. by apply insert_id.
Qed.

Lemma run_emit_loop (valid : list val) :
  ∀ (dsr : list (gmap string val)) (i : nat) (h : list obj) (ps : list val)
    (h' : list obj),
    keeps p K lp (λ _, False) h0 h →
    h !! lp = Some (OList ps) →
    NoDup valid →
    Forall2 (λ v d, ∃ l, v = VRef l ∧ length h0 < l ∧
                         h !! l = Some (ODict (keep_fields d))) valid dsr →
    (∀ j d, dsr !! j = Some d →
            ∃ lo, xs !! (i + j) = Some (VRef lo) ∧ h0 !! lo = Some (ODict d)) →
    for_enumerate i valid (create_loop_body self (VRef p) (VRef lr) (VRef lp)) h
      = (Ok tt, h') →
    ∃ zs, h' !! lp = Some (OList (ps ++ zs)) ∧
          Forall2 (λ v d, emitted_within (λ l, length h0 < l) model_fields dc T h' d v)
                  zs (filter (λ d, is_system_turn d = false) dsr) ∧
          length h ≤ length h' ∧
          (∀ l, l < length h → l ≠ p → l ≠ lp → VRef l ∉ valid → h' !! l = h !! l).
Proof.
  pose proof (lookup_lt_Some _ _ _ request_dict) as Hplt.
  induction valid as [|v valid IH]; intros dsr i h ps h' Hk Hlp Hnodup Hall Hraw Hrun.
  - apply Forall2_nil_inv_l in Hall as ->. simpl in Hrun. injection Hrun as <-.
    exists []. rewrite app_nil_r. split; [done|]. split; [constructor|]. done.
  - apply Forall2_cons_inv_l in Hall as (d & dsr' & (lm & -> & Hfresh & Hlm) & Hall & ->).
    apply NoDup_cons in Hnodup as [Hnotin Hnodup].
    destruct (Hraw 0 d eq_refl) as (lo & Hi & Hlo). rewrite Nat.add_0_r in Hi.
    pose proof (lookup_lt_Some _ _ _ Hlp) as Hlplt.
    pose proof (lookup_lt_Some _ _ _ Hlm) as Hlmlt.
    cbn [for_enumerate] in Hrun. rewrite run_bind in Hrun.
    pose proof (create_loop_body_keeps self p lp (λ _, False) h0
                  ltac:(done) (VRef lr) lp i (VRef lm) h Hk ltac:(by right)
                  ltac:(exists lm; split; [done|left; lia])) as Hk1.
    pose proof (create_loop_body_keeps self p lp (λ l', l' = lm) h
                  ltac:(intros ? ->; lia) (VRef lr) lp i (VRef lm) h
                  (keeps_refl _ _ _ _ _) ltac:(by right)
                  ltac:(exists lm; split; [done|by right])) as Hstep.
    destruct Hk as (Hlen0 & Hk_old & Hk_p & Hk_lp).
    destruct (Hk_p _ request_dict) as (dph & Hph & _).
    pose proof (create_loop_body_effect self p lp (VRef lr) ltac:(lia) i lm h ps dph
                  (keep_fields d) Hlp Hph Hlm ltac:(lia) ltac:(lia)) as Heff.
    unfold post in Hk1, Hstep, Heff.
    destruct (create_loop_body self (VRef p) (VRef lr) (VRef lp) i (VRef lm) h)
      as [[[]|e] h1] eqn:Ebody; [|done].
    simpl in Hk1, Hstep, Heff. specialize (Heff eq_refl).
    rewrite (is_system_turn_keep model_fields role_field) in Heff.
    pose proof (keeps_length _ _ _ _ _ _ Hstep) as Hlen1.
    destruct Hstep as (_ & Hold & _ & _).
    assert (Forall2 (λ v d, ∃ l, v = VRef l ∧ length h0 < l ∧
                                 h1 !! l = Some (ODict (keep_fields d))) valid dsr') as Hall1.
    { apply Forall2_same_length_lookup_2; [by eapply Forall2_length|].
      intros j v d' Hv Hd'.
      destruct (Forall2_lookup_lr _ _ _ _ _ _ Hall Hv Hd') as (l' & -> & ? & Hl').
      exists l'. split; [done|]. split; [done|].
      rewrite Hold; [done|by eapply lookup_lt_Some|lia|lia|].
      intros ->. apply Hnotin. by eapply list_elem_of_lookup_2. }
    assert (∀ j d', dsr' !! j = Some d' →
                    ∃ lo, xs !! (S i + j) = Some (VRef lo) ∧ h0 !! lo = Some (ODict d'))
      as Hraw1.
    { intros j d' Hd'. destruct (Hraw (S j) d' Hd') as (lo' & Hx & Hlo').
      exists lo'. split; [|done]. by replace (S i + j) with (i + S j) by lia. }
    assert (∀ l, l < length h → l ≠ p → l ≠ lp → VRef l ∉ VRef lm :: valid →
                 h1 !! l = h !! l) as Hframe1.
    { intros l Hl ? ? Hnot. apply Hold; [done..|].
      intros ->. apply Hnot. by left. }
    rewrite filter_cons.
    destruct (is_system_turn d) eqn:Hsys.
    + destruct Heff as [Hlp1 _].
      destruct (IH dsr' (S i) h1 ps h' Hk1 Hlp1 Hnodup Hall1 Hraw1 Hrun)
        as (zs & Hzs & Hem & Hlen' & Hframe').
      exists zs. rewrite decide_False by done.
      split; [done|]. split; [done|]. split; [lia|].
      intros l Hl ? ? Hnot. rewrite Hframe'; [by apply Hframe1|lia|done..|].
      intros Hin. apply Hnot. by right.
    + clear Heff.
      destruct (create_loop_body_emits i lm lo d h h1 ps
                  (conj Hlen0 (conj Hk_old (conj Hk_p Hk_lp))) Hlp Hlm Hfresh Hi Hlo Hsys Ebody)
        as (v & Hlp1 & Hv).
      destruct (IH dsr' (S i) h1 (ps ++ [v]) h' Hk1 Hlp1 Hnodup Hall1 Hraw1 Hrun)
        as (zs & Hzs & Hem & Hlen' & Hframe').
      exists (v :: zs). rewrite decide_True by done.
      split; [by rewrite <-app_assoc in Hzs|].
      split; [|split; [lia|]].
      * constructor; [|done].
        eapply emitted_within_transport; [|exact Hv].
        intros l Hl. split; [destruct Hl as [->|?]; lia|].
        apply Hframe'; [destruct Hl as [->|?]; lia..|].
        intros Hin. apply list_elem_of_lookup in Hin as [j Hj].
        destruct (Forall2_lookup_l _ _ _ _ _ Hall Hj) as (d' & _ & l' & [= <-] & _ & Hl').
        apply lookup_lt_Some in Hl'.
        destruct Hl as [->|?]; [|lia].
        apply Hnotin. by eapply list_elem_of_lookup_2.
      * intros l Hl ? ? Hnot. rewrite Hframe'; [by apply Hframe1|lia|done..|].
        intros Hin. apply Hnot. by right.
Qed.

End Emission.

Lemma create_messages_emits (model_fields : gset string) (self : AnthropicClient)
    (p : nat) (h h' : list obj) (dp dc : gmap string val) (ds : list (gmap string val)) :
  h !! p = Some (ODict dp) →
  request_messages h p = Some ds →
  "role" ∈ model_fields →
  "content" ∈ model_fields →
  h !! _last_tooluse_status self = Some (ODict dc) →
  (∀ v, dc !! "tool_use" = Some v → is_Some (turn_dict h v)) →
  create_messages model_fields self (VRef p) h = (Ok tt, h') →
  ∃ dp' outs,
    h' !! p = Some (ODict dp') ∧
    dp' !! "messages" = Some (VRef (length h)) ∧
    h' !! length h = Some (OList outs) ∧
    Forall2 (λ v d, emitted_within (λ l, length h < l) model_fields dc
                      (remembered_id h dc) h' d v)
            outs (filter (λ d, is_system_turn d = false) ds).
Proof.
  intros Hp (dp0 & lr & xs & Hp0 & Hmsg & Hlr & Hall)%request_messages_Some Hr Hc
    Hcache Hclosed.
  assert (dp0 = dp) as -> by congruence. clear Hp0.
  pose proof (lookup_lt_Some _ _ _ Hp) as Hplt.
  unfold create_messages. do 2 mstep.
  destruct xs as [|x0 xs0] eqn:Hxs.
  { rewrite run_bind, (pop_invalid_message_keys_empty model_fields lr);
      [done|by apply lookup_app_l_Some]. }
  rewrite <-Hxs in *. assert (xs ≠ []) as Hne by (by rewrite Hxs). clear Hxs x0 xs0.
  destruct (run_pop_invalid_message_keys model_fields lr xs ds (h ++ [OList []]))
    as (h1 & lv & valid & invalid & E & Hext & Hlv & Hvalid_list & Hnodup & Hvalid).
  { by apply lookup_app_l_Some. }
  { eapply Forall2_impl; [done|]. intros ? ? ?.
    by eapply turn_dict_extends; [apply extends_alloc|]. }
  { done. }
  rewrite run_bind, E. cbv beta iota. mstep.
  rewrite length_app in Hlv, Hvalid. simpl in Hlv, Hvalid.
  pose proof (extends_trans _ _ _ (extends_alloc h (OList [])) Hext) as Hext0.
  assert (h1 !! length h = Some (OList [])) as Hlp1.
  { apply Hext. by rewrite list_lookup_middle. }
  rewrite run_bind.
  destruct (for_enumerate 0 valid
              (create_loop_body self (VRef p) (VRef lr) (VRef (length h))) h1)
    as [[[]|e] h2] eqn:Eloop; [|done].
  destruct (run_emit_loop model_fields self p lr h dp dc xs Hr Hc Hp Hlr Hcache Hclosed
              valid ds 0 h1 [] h2) as (outs & Houts & Hem & Hlen & _); [| | | | |done|].
  { by apply extends_keeps. }
  { done. }
  { done. }
  { eapply Forall2_impl; [done|]. intros v d (l & -> & Hl & Hd). exists l.
    split; [done|]. split; [lia|done]. }
  { intros j d Hd.
    destruct (Forall2_lookup_r _ _ _ _ _ Hall Hd) as (x & Hx & (lo & -> & Hlo)%turn_dict_Some).
    by exists lo. }
  pose proof (Hext0 _ _ Hp) as Hp1.
  pose proof (lookup_lt_Some _ _ _ Hp1) as Hplt1.
  assert (∃ dp2, h2 !! p = Some (ODict dp2)) as [dp2 Hp2].
  { destruct (lookup_lt_is_Some_2 h2 p ltac:(lia)) as [o Ho].
    pose proof (create_messages_keeps model_fields self p (length h) (λ _, False) h
                  ltac:(done) h (keeps_refl _ _ _ _ _)) as Hk.
    unfold post, create_messages in Hk. revert Hk. do 2 mstep.
    rewrite run_bind, E. cbv beta iota. mstep. rewrite run_bind, Eloop. cbv beta iota.
    destruct o as [dp2|ys]; [by exists dp2|].
    unfold dict_setitem, as_dict, load. rewrite !run_bind, Ho. simpl.
    intros (_ & _ & Hsame & _). destruct (Hsame _ Hp) as (? & ? & _). congruence. }
  erewrite run_dict_setitem by done. intros [= <-].
  exists (<["messages" := VRef (length h)]> dp2), outs.
  split; [by apply list_lookup_insert_eq; eapply lookup_lt_Some|].
  split; [by rewrite lookup_insert_eq|].
  split; [by rewrite list_lookup_insert_ne by lia|].
  eapply Forall2_impl; [done|]. intros v d Hv.
  eapply emitted_within_transport; [|exact Hv].
  intros l Hl. simpl in Hl. split; [done|]. by rewrite list_lookup_insert_ne by lia.
Qed.

(** X21: The translation of a conversation is complete and keeps the order of
    the turns: whenever it returns, the list bound to "messages" holds, in
    the order of the conversation, the translation of every turn that is
    not a system turn and nothing else. A turn of role "function" has
    become a user turn with the tool_result block for the remembered
    tool_use id, a turn with a function_call marker the assistant turn
    recalled from the cache, and any other turn a dict of its recognised
    fields with the sentinel in place of an empty content. Every turn sent
    is a new object: the turns of the caller are not sent themselves. *)
Theorem conversation_translated (model_fields : gset string) (self : AnthropicClient)
    (p : nat) (h h' : list obj) (dp dc : gmap string val) (ds : list (gmap string val)) :
  h !! p = Some (ODict dp) →
  request_messages h p = Some ds →
  "role" ∈ model_fields →
  "content" ∈ model_fields →
  h !! _last_tooluse_status self = Some (ODict dc) →
  (∀ v, dc !! "tool_use" = Some v → is_Some (turn_dict h v)) →
  create_messages model_fields self (VRef p) h = (Ok tt, h') →
  ∃ dp' outs,
    h' !! p = Some (ODict dp') ∧
    dp' !! "messages" = Some (VRef (length h)) ∧
    h' !! length h = Some (OList outs) ∧
    Forall2 (λ v d, emitted_within (λ l, length h < l) model_fields dc
                      (remembered_id h dc) h' d v)
            outs (filter (λ d, is_system_turn d = false) ds).
Proof. apply create_messages_emits. Qed.

Lemma conversation_translated_sample :
  let h' := (create_messages message_fields sample_client (VRef 6) marked_store).2 in
  ∃ dp' outs,
    h' !! 6 = Some (ODict dp') ∧
    dp' !! "messages" = Some (VRef (length marked_store)) ∧
    h' !! length marked_store = Some (OList outs) ∧
    Forall2 (λ v d, emitted_within (λ l, length marked_store < l) message_fields
                      (<["think" := VStr "Let me look."]> (<["tool_use" := VRef 1]> ∅))
                      (remembered_id marked_store
                         (<["think" := VStr "Let me look."]> (<["tool_use" := VRef 1]> ∅)))
                      h' d v)
            outs
            (filter (λ d, is_system_turn d = false)
               [ <["role" := VStr "user"]> (<["content" := VStr "What is the weather?"]> ∅);
                 <["role" := VStr "assistant"]> (<["content" := VNone]>
                   (<["function_call" := VJson (JDict [("name", JStr "search");
                                                        ("arguments", JStr "{}")])]> ∅));
                 <["role" := VStr "function"]> (<["content" := VStr "42"]>
                   (<["name" := VStr "search"]> ∅)) ]).
Proof.
  refine (conversation_translated message_fields sample_client 6 marked_store _
            (<["messages" := VRef 5]> (<["model" := VStr "claude-3-opus-20240229"]>
               (<["model_client_cls" := VStr "AnthropicClient"]> ∅)))
            _ _ _ _ _ _ _ _ _);
    try reflexivity; try (by vm_compute).
  intros v [= <-]. eexists. reflexivity.
Defined.

(** ** Translating a translated request *)

Lemma emitted_target_shaped (F : nat → Prop) (model_fields : gset string)
    (dc : gmap string val) (T : option val) (h : list obj) (d : gmap string val) (v : val) :
  "role" ∈ model_fields →
  "content" ∈ model_fields →
  is_system_turn d = false →
  emitted_within F model_fields dc T h d v →
  ∃ dv, turn_dict h v = Some dv ∧ target_shaped model_fields dv.
Proof.
  intros Hr Hc Hsys (lt & r & -> & _ & Hrole & Hcase).
  unfold is_system_turn in Hsys. rewrite Hrole in Hsys.
  assert (∀ (ro : string) (x : val),
            val_eq_str (VStr ro) "system" = false →
            val_eq_str (VStr ro) "function" = false →
            val_eq_str x "" = false →
            target_shaped model_fields (<["role" := VStr ro]> (<["content" := x]> ∅)))
    as Hnew.
  { intros ro x ? ? ?. split; [|split].
    - intros k. rewrite !dom_insert, dom_empty, !elem_of_union, !elem_of_singleton.
      intros [->|[->|?%elem_of_empty]]; done.
    - by rewrite !lookup_insert_ne.
    - exists (VStr ro), x. rewrite lookup_insert_eq, lookup_insert_ne, lookup_insert_eq by done.
      done. }
  destruct (val_eq_str r "function") eqn:Hfun; [|case_bool_decide as Hmark].
  - destruct Hcase as (c & id & lb & lk & _ & _ & _ & _ & Hlt & _).
    eexists. split; [by apply turn_dict_Some; eauto|]. by apply Hnew.
  - destruct Hcase as (tu & lcnt & _ & _ & Hlt & _).
    eexists. split; [by apply turn_dict_Some; eauto|]. by apply Hnew.
  - destruct Hcase as (c & Hcontent & Hlt).
    eexists. split; [by apply turn_dict_Some; eauto|]. split; [|split].
    + intros k. rewrite dom_insert, elem_of_union, elem_of_singleton.
      intros [->|Hk]; [done|].
      apply elem_of_dom in Hk as [x Hx].
      by apply map_lookup_filter_Some in Hx as [_ ?].
    + rewrite lookup_insert_ne by done. apply map_lookup_filter_None. left.
      destruct (d !! "function_call") eqn:E; [|done]. destruct Hmark. eauto.
    + eexists r, _. rewrite lookup_insert_ne by done.
      rewrite (keep_fields_lookup model_fields d "role" Hr), lookup_insert_eq.
      split; [done|]. split; [done|]. split; [done|]. split; [done|].
      by destruct (val_eq_str c "") eqn:E.
Qed.

Lemma Forall2_turn_dicts (P : gmap string val → Prop) (Q : val → gmap string val → Prop)
    (h : list obj) (vs : list val) (ds : list (gmap string val)) :
  Forall2 Q vs ds →
  (∀ v d, Q v d → ∃ dv, turn_dict h v = Some dv ∧ P dv) →
  ∃ dvs, Forall2 (λ v dv, turn_dict h v = Some dv) vs dvs ∧ Forall P dvs.
Proof.
  intros Hall HQ. induction Hall as [|v d vs ds Hv _ (dvs & Hdvs & HP)].
  - exists []. split; constructor.
  - destruct (HQ v d Hv) as (dv & Hdv & Hdv'). exists (dv :: dvs).
    split; by constructor.
Qed.

(** X22: One pass of the translation settles a conversation: whenever it
    returns for a conversation with at least one turn that is not a system
    turn, every turn it leaves under "messages" is in the shape of the
    target protocol, so translating the same request again returns and
    leaves the same messages. (When every turn is a system turn the first
    pass leaves an empty list, on which a second pass raises.) *)
Theorem translation_settles (model_fields : gset string) (self : AnthropicClient)
    (p : nat) (h h' : list obj) (dp dc : gmap string val) (ds : list (gmap string val)) :
  h !! p = Some (ODict dp) →
  request_messages h p = Some ds →
  "role" ∈ model_fields →
  "content" ∈ model_fields →
  h !! _last_tooluse_status self = Some (ODict dc) →
  (∀ v, dc !! "tool_use" = Some v → is_Some (turn_dict h v)) →
  filter (λ d, is_system_turn d = false) ds ≠ [] →
  create_messages model_fields self (VRef p) h = (Ok tt, h') →
  ∃ ds' h2,
    request_messages h' p = Some ds' ∧
    length ds' = length (filter (λ d, is_system_turn d = false) ds) ∧
    Forall (target_shaped model_fields) ds' ∧
    create_messages model_fields self (VRef p) h' = (Ok tt, h2) ∧
    request_messages h2 p = Some ds'.
Proof.
  intros Hp Hreq Hr Hc Hcache Hclosed Hne Hrun.
  destruct (create_messages_emits model_fields self p h h' dp dc ds
              Hp Hreq Hr Hc Hcache Hclosed Hrun) as (dp' & outs & Hp' & Hmsg & Houts & Hem).
  assert (Forall (λ d, is_system_turn d = false)
            (filter (λ d, is_system_turn d = false) ds)) as Hfilter.
  { apply Forall_forall. by intros d [? _]%list_elem_of_filter. }
  destruct (Forall2_turn_dicts (target_shaped model_fields)
              (λ v d, emitted_within (λ l, length h < l) model_fields dc (remembered_id h dc)
                        h' d v ∧ is_system_turn d = false)
              h' outs (filter (λ d, is_system_turn d = false) ds))
    as (ds' & Hds' & Hshaped).
  { eapply Forall2_Forall_r_impl; [exact Hem | exact Hfilter | done]. }
  { intros v d [Hv Hsys]. by eapply emitted_target_shaped. }
  assert (request_messages h' p = Some ds') as Hreq'.
  { apply request_messages_Some. by exists dp', (length h), outs. }
  assert (ds' ≠ []) as Hne'.
  { intros ->. apply Forall2_nil_inv_r in Hds' as ->.
    by apply Forall2_nil_inv_l in Hem. }
  destruct (create_messages_plain model_fields self p h' ds' Hreq' Hne' Hshaped)
    as (h2 & Hrun2 & Hreq2).
  exists ds', h2. split; [done|]. split; [|done].
  rewrite <-(Forall2_length _ _ _ Hds'). by eapply Forall2_length.
Qed.

Lemma translation_settles_sample :
  let h' := (create_messages message_fields sample_client (VRef 6) marked_store).2 in
  ∃ ds' h2,
    request_messages h' 6 = Some ds' ∧
    length ds' =
      length (filter (λ d, is_system_turn d = false)
                [ <["role" := VStr "user"]> (<["content" := VStr "What is the weather?"]> ∅);
                  <["role" := VStr "assistant"]> (<["content" := VNone]>
                    (<["function_call" := VJson (JDict [("name", JStr "search");
                                                         ("arguments", JStr "{}")])]> ∅));
                  <["role" := VStr "function"]> (<["content" := VStr "42"]>
                    (<["name" := VStr "search"]> ∅)) ]) ∧
    Forall (target_shaped message_fields) ds' ∧
    create_messages message_fields sample_client (VRef 6) h' = (Ok tt, h2) ∧
    request_messages h2 6 = Some ds'.
Proof.
  refine (translation_settles message_fields sample_client 6 marked_store _
            (<["messages" := VRef 5]> (<["model" := VStr "claude-3-opus-20240229"]>
               (<["model_client_cls" := VStr "AnthropicClient"]> ∅)))
            (<["think" := VStr "Let me look."]> (<["tool_use" := VRef 1]> ∅))
            _ _ _ _ _ _ _ _ _);
    try reflexivity; try (by vm_compute).
  intros v [= <-]. eexists. reflexivity.
Defined.

(** ** A request used for two calls *)

(** X23: The declarations unwrapped from "tools" accumulate in the request
    of the caller: lines 81-83 of [create], run twice on the same request,
    leave under "functions" the caller's declarations followed by the
    unwrapped declarations twice. *)
Theorem create_functions_accumulates (p : nat) (h : list obj) (d : gmap string val)
    (lt : nat) (ts : list val) (tds : list (gmap string val)) (fs : list val) :
  h !! p = Some (ODict d) →
  d !! "tools" = Some (VRef lt) →
  h !! lt = Some (OList ts) →
  Forall2 (λ t td, turn_dict h t = Some td) ts tds →
  VRef p ∉ ts →
  match d !! "functions" with
  | Some v => ∃ lf, v = VRef lf ∧ h !! lf = Some (OList fs)
  | None => fs = []
  end →
  ∃ h2 lf2,
    (create_functions (VRef p) ≫= λ _, create_functions (VRef p)) h = (Ok tt, h2) ∧
    h2 !! p = Some (ODict (<["functions" := VRef lf2]> d)) ∧
    h2 !! lf2 = Some (OList (fs ++ omap wrapped_function tds ++ omap wrapped_function tds)).
Proof.
  intros Hp Htools Hlt Hts Hself Hfs.
  pose proof (lookup_lt_Some _ _ _ Hp) as Hplt.
  pose proof (lookup_lt_Some _ _ _ Hlt) as Hltlt.
  rewrite run_bind, (run_create_functions p h d lt ts tds fs) by done. cbv beta iota.
  set (conv := omap wrapped_function tds).
  set (h1 := <[p := ODict (<["functions" := VRef (length h + 2)]> d)]>
               (h ++ [OList conv; OList []; OList (fs ++ conv)])).
  assert (length h1 = length h + 3) as Hlen1.
  { unfold h1. rewrite length_insert, length_app. simpl. lia. }
  rewrite (run_create_functions p h1 (<["functions" := VRef (length h + 2)]> d) lt ts tds
             (fs ++ conv)).
  - eexists _, (length h1 + 2). split; [reflexivity|]. split.
    + rewrite list_lookup_insert_eq by (rewrite length_app; lia).
      by rewrite insert_insert_eq.
    + rewrite list_lookup_insert_ne by lia.
      rewrite lookup_app_r by lia. replace (length h1 + 2 - length h1) with 2 by lia.
      simpl. by rewrite <-app_assoc.
  - unfold h1. by apply list_lookup_insert_eq; rewrite length_app; lia.
  - by rewrite lookup_insert_ne.
  - unfold h1. rewrite list_lookup_insert_ne by congruence. by apply lookup_app_l_Some.
  - apply Forall2_same_length_lookup_2; [by eapply Forall2_length|].
    intros j t td Ht Htd.
    pose proof (Forall2_lookup_lr _ _ _ _ _ _ Hts Ht Htd) as (l & -> & Hl)%turn_dict_Some.
    apply turn_dict_Some. exists l. split; [done|]. unfold h1.
    rewrite list_lookup_insert_ne; [by apply lookup_app_l_Some|].
    intros ->. apply Hself. by eapply list_elem_of_lookup_2.
  - rewrite lookup_insert_eq. exists (length h + 2). split; [done|]. unfold h1.
    rewrite list_lookup_insert_ne by lia. rewrite lookup_app_r by lia.
    by replace (length h + 2 - length h) with 2 by lia.
Qed.

Lemma create_functions_accumulates_sample :
  ∃ h2 lf2,
    (create_functions (VRef 9) ≫= λ _, create_functions (VRef 9)) tools_store = (Ok tt, h2) ∧
    h2 !! 9 = Some (ODict (<["functions" := VRef lf2]>
                             (<["messages" := VRef 8]> (<["tools" := VRef 4]>
                             (<["functions" := VRef 6]>
                             (<["model_client_cls" := VStr "AnthropicClient"]>
                             (<["stream" := VBool true]> ∅))))))) ∧
    h2 !! lf2 = Some (OList ([VRef 5] ++
                  omap wrapped_function
                    [ <["type" := VStr "function"]> (<["function" := VRef 1]> ∅);
                      <["type" := VStr "retrieval"]> ∅;
                      <["type" := VStr "function"]> ∅ ] ++
                  omap wrapped_function
                    [ <["type" := VStr "function"]> (<["function" := VRef 1]> ∅);
                      <["type" := VStr "retrieval"]> ∅;
                      <["type" := VStr "function"]> ∅ ])).
Proof.
  apply (create_functions_accumulates 9 tools_store _ 4 [VRef 0; VRef 2; VRef 3]).
  - reflexivity.
  - reflexivity.
  - reflexivity.
  - repeat constructor.
  - intros Hin. by repeat (apply elem_of_cons in Hin as [?|Hin]; [done|]);
      apply elem_of_nil in Hin.
  - exists 6. split; reflexivity.
Defined.

(** ** A tool call, from the response to the next request *)


